(** * DAFI Telegram bot: conversation engine, payment ledger, settlement

    A shallow embedding of [index.js]: the validators, the message handler of
    the bot, the public payment page and the PayTabs callback, followed by
    the properties of the specification that were checked against them. *)

From Stdlib Require Import ZArith NArith List Ascii String Bool Lia.
From Stdlib Require Import SpecFloat DecimalString.
From Stdlib Require DecimalPos DecimalZ.
From stdpp Require Import base tactics option list gmap.

Local Open Scope N_scope.

(* ===================================================================== *)
(** * JavaScript strings *)
(* ===================================================================== *)

(** A JavaScript string is a sequence of UTF-16 code units; [length],
    [trim], [startsWith], [===] and the regular expressions all work on
    code units. *)
Module JSString.

Abbreviation t := (list N).

(** ** Literals

    The literals of the source are written here as UTF-8 text and decoded
    to code units by [lit]. *)

Definition bytes_of (s : string) : list N :=
  map N_of_ascii (list_ascii_of_string s).

Definition cont (b : N) : N := N.land b 63.

Fixpoint code_points (bs : list N) : list N :=
  match bs with
  | [] => []
  | b0 :: r0 =>
    if b0 <? 128 then b0 :: code_points r0
    else match r0 with
      | [] => []
      | b1 :: r1 =>
        if b0 <? 224 then
          (N.shiftl (N.land b0 31) 6 + cont b1) :: code_points r1
        else match r1 with
          | [] => []
          | b2 :: r2 =>
            if b0 <? 240 then
              (N.shiftl (N.land b0 15) 12 + N.shiftl (cont b1) 6 + cont b2)
                :: code_points r2
            else match r2 with
              | [] => []
              | b3 :: r3 =>
                (N.shiftl (N.land b0 7) 18 + N.shiftl (cont b1) 12
                 + N.shiftl (cont b2) 6 + cont b3) :: code_points r3
              end
          end
      end
  end.

Definition units_of_code_point (cp : N) : list N :=
  if cp <? 65536 then [cp]
  else [55296 + N.shiftr (cp - 65536) 10; 56320 + N.land (cp - 65536) 1023].

Definition lit (s : string) : t :=
  flat_map units_of_code_point (code_points (bytes_of s)).

(** ** Character classes *)

(** [\s] of a regular expression, which is also the white space and the
    line terminators that [trim] removes. *)
Definition is_space (c : N) : bool :=
  ((9 <=? c) && (c <=? 13)) || (c =? 32) || (c =? 160) || (c =? 5760)
  || ((8192 <=? c) && (c <=? 8202)) || (c =? 8232) || (c =? 8233)
  || (c =? 8239) || (c =? 8287) || (c =? 12288) || (c =? 65279).

(** [\d] and [[0-9]]. *)
Definition is_digit (c : N) : bool := (48 <=? c) && (c <=? 57).

(** [[1-9]]. *)
Definition is_digit19 (c : N) : bool := (49 <=? c) && (c <=? 57).

(** ** Methods *)

Fixpoint trimStart (s : t) : t :=
  match s with
  | c :: r => if is_space c then trimStart r else s
  | [] => []
  end.

Definition trimEnd (s : t) : t := rev (trimStart (rev s)).

Definition trim (s : t) : t := trimEnd (trimStart s).

(** [s.replace(/\s/g, '')] *)
Definition remove_spaces (s : t) : t :=
  List.filter (fun c => negb (is_space c)) s.

(** [s.startsWith(p)] *)
Fixpoint startsWith (s p : t) : bool :=
  match p, s with
  | [], _ => true
  | _ :: _, [] => false
  | a :: p', b :: s' => (a =? b) && startsWith s' p'
  end.

(** [String(n)] for an integer [n] (of less than 22 digits, which JavaScript
    writes without an exponent). *)
Definition of_Z (n : Z) : t :=
  bytes_of (NilZero.string_of_int (Z.to_int n)).

Definition hex_digit (n : N) : N := if n <? 10 then 48 + n else 87 + n.

(** [buffer.toString('hex')] *)
Definition hex (bytes : list N) : t :=
  flat_map (fun b => [hex_digit (N.shiftr b 4); hex_digit (N.land b 15)]) bytes.

End JSString.

Abbreviation jsstring := JSString.t.

(* ===================================================================== *)
(** * Regular expressions *)
(* ===================================================================== *)

(** The fragment of RegExp that the source uses, matched against a whole
    string (the pattern of the source is anchored by [^] and [$] and has no
    flags, so [test] is membership of the whole string). *)
Module Regex.

Inductive t :=
| Void
| Eps
| Class (p : N -> bool)
| Cat (r1 r2 : t)
| Alt (r1 r2 : t)
| Star (r : t).

(** [r?] *)
Definition opt (r : t) : t := Alt r Eps.

(** [r{n}] *)
Fixpoint times (r : t) (n : nat) : t :=
  match n with
  | O => Eps
  | S k => Cat r (times r k)
  end.

(** [r{0,n}] *)
Fixpoint upto (r : t) (n : nat) : t :=
  match n with
  | O => Eps
  | S k => opt (Cat r (upto r k))
  end.

(** [r{lo,hi}] *)
Definition range (r : t) (lo hi : nat) : t :=
  Cat (times r lo) (upto r (hi - lo)).

Fixpoint nullable (r : t) : bool :=
  match r with
  | Void => false
  | Eps => true
  | Class _ => false
  | Cat r1 r2 => nullable r1 && nullable r2
  | Alt r1 r2 => nullable r1 || nullable r2
  | Star _ => true
  end.

Fixpoint deriv (c : N) (r : t) : t :=
  match r with
  | Void => Void
  | Eps => Void
  | Class p => if p c then Eps else Void
  | Cat r1 r2 =>
    if nullable r1 then Alt (Cat (deriv c r1) r2) (deriv c r2)
    else Cat (deriv c r1) r2
  | Alt r1 r2 => Alt (deriv c r1) (deriv c r2)
  | Star r1 => Cat (deriv c r1) (Star r1)
  end.

Fixpoint test (r : t) (s : jsstring) : bool :=
  match s with
  | [] => nullable r
  | c :: s' => test (deriv c r) s'
  end.

(** The language of a regular expression. *)
Inductive matches : t -> jsstring -> Prop :=
| m_eps : matches Eps []
| m_class p c : p c = true -> matches (Class p) [c]
| m_cat r1 r2 s1 s2 :
    matches r1 s1 -> matches r2 s2 -> matches (Cat r1 r2) (s1 ++ s2)
| m_alt_l r1 r2 s : matches r1 s -> matches (Alt r1 r2) s
| m_alt_r r1 r2 s : matches r2 s -> matches (Alt r1 r2) s
| m_star_nil r : matches (Star r) []
| m_star_cons r s1 s2 :
    matches r s1 -> matches (Star r) s2 -> matches (Star r) (s1 ++ s2).

End Regex.

(* ===================================================================== *)
(** * JavaScript numbers *)
(* ===================================================================== *)

(** A JavaScript number is an IEEE 754 binary64 value, here a [spec_float]
    with a 53 bit significand, rounded to nearest, ties to even. *)
Module Number.

Abbreviation t := spec_float.

Definition prec : Z := 53.
Definition emax : Z := 1024.

Definition NaN : t := S754_nan.
Definition zero : t := S754_zero false.

(** The number denoted by an integer literal of the source. *)
Definition of_Z (n : Z) : t := binary_normalize prec emax n 0 false.

(** [x + y] *)
Definition add (x y : t) : t := SFadd prec emax x y.

(** [x <= y] and [x >= y]; both are false when an operand is NaN. *)
Definition le (x y : t) : bool := SFleb x y.
Definition ge (x y : t) : bool := SFleb y x.

Definition isNaN (x : t) : bool :=
  match x with S754_nan => true | _ => false end.

(** Truthiness of a number: [0], [-0] and [NaN] are falsy. *)
Definition truthy (x : t) : bool :=
  match x with S754_zero _ | S754_nan => false | _ => true end.

(** The binary64 value nearest to [m * 10 ^ k], with the sign [neg]. *)
Definition of_decimal (neg : bool) (m : N) (k : Z) : t :=
  match m with
  | N0 => S754_zero neg
  | Npos p =>
    match k with
    | Zneg d =>
      let '(q, e, l) :=
        SFdiv_core_binary prec emax (Zpos p) 0 (Zpos (10 ^ d)) 0 in
      binary_round_aux prec emax neg q e l
    | Z0 => binary_round prec emax neg p 0
    | Zpos d => binary_round prec emax neg (p * 10 ^ d) 0
    end
  end.

(** ** [parseFloat] *)

(** The longest prefix of digits, and what follows it. *)
Fixpoint digits (s : jsstring) : jsstring * jsstring :=
  match s with
  | c :: r =>
    if JSString.is_digit c then let '(ds, rest) := digits r in (c :: ds, rest)
    else ([], s)
  | [] => ([], [])
  end.

(** The value of a sequence of decimal digits. *)
Definition digits_value (ds : jsstring) : N :=
  fold_left (fun acc d => 10 * acc + (d - 48))%N ds 0%N.

(** An optional sign: [true] for [-]. *)
Definition sign (s : jsstring) : bool * jsstring :=
  match s with
  | c :: r =>
    if (c =? 43)%N then (false, r)
    else if (c =? 45)%N then (true, r)
    else (false, s)
  | [] => (false, s)
  end.

(** The exponent part [e±ddd] at the head of [s], when there is a
    complete one; an [e] that no digit follows is not part of the
    literal. *)
Definition exponent (s : jsstring) : Z :=
  match s with
  | c :: r =>
    if (c =? 101)%N || (c =? 69)%N then
      let '(neg, r') := sign r in
      let '(ds, _) := digits r' in
      match ds with
      | [] => 0
      | _ => if neg then - Z.of_N (digits_value ds) else Z.of_N (digits_value ds)
      end
    else 0
  | [] => 0
  end%Z.

(** What [parseFloat] reads at the head of a string: nothing, [Infinity]
    with its sign, or the decimal [m * 10 ^ k] with its sign. *)
Inductive Literal :=
| NoLiteral
| Infinite (neg : bool)
| Decimal (neg : bool) (m : N) (k : Z).

(** Leading white space is skipped, then the longest prefix that is a
    decimal literal (sign, [Infinity] or digits with an optional fraction
    and exponent) is read, and whatever follows it is ignored. *)
Definition literal (s : jsstring) : Literal :=
  let '(neg, s0) := sign (JSString.trimStart s) in
  if JSString.startsWith s0 (JSString.lit "Infinity") then Infinite neg
  else
    let '(int, s1) := digits s0 in
    let '(frac, s2) :=
      match s1 with
      | c :: r => if (c =? 46)%N then digits r else ([], s1)
      | [] => ([], s1)
      end in
    match int ++ frac with
    | [] => NoLiteral
    | ds =>
      Decimal neg (digits_value ds) (exponent s2 - Z.of_nat (length frac))
    end.

(** The number of a literal: NaN when there is none, and the nearest
    binary64 value of a decimal. *)
Definition value (l : Literal) : t :=
  match l with
  | NoLiteral => NaN
  | Infinite neg => S754_infinity neg
  | Decimal neg m k => of_decimal neg m k
  end.

(** [parseFloat(s)] *)
Definition parseFloat (s : jsstring) : t := value (literal s).

End Number.

Abbreviation number := Number.t.

(* ===================================================================== *)
(** * Validators *)
(* ===================================================================== *)

Definition validateAmount (amount : jsstring) : bool :=
  let num := Number.parseFloat amount in
  negb (Number.isNaN num)
  && Number.ge num (Number.of_Z 1) && Number.le num (Number.of_Z 50000).

(** [/^\+?[1-9]\d{1,14}$/] *)
Definition phoneRegex : Regex.t :=
  Regex.Cat (Regex.opt (Regex.Class (N.eqb 43)))
    (Regex.Cat (Regex.Class JSString.is_digit19)
               (Regex.range (Regex.Class JSString.is_digit) 1 14)).

Definition validatePhone (phone : jsstring) : bool :=
  Regex.test phoneRegex (JSString.remove_spaces phone).

Definition validateBusinessName (name : jsstring) : bool :=
  negb (Nat.eqb (length name) 0)
  && (2 <=? length (JSString.trim name))%nat
  && (length (JSString.trim name) <=? 100)%nat.

(* ===================================================================== *)
(** * The language table *)
(* ===================================================================== *)

Inductive Language := ar | en.

Inductive Key :=
| welcome
| choose_lang
| business_register
| create_payment
| view_dashboard
| settings
| help
| enter_business_name
| enter_business_phone
| enter_amount
| enter_description
| payment_created
| total_sales
| today_sales
| pending_payments
| invalid_amount
| invalid_phone
| business_registered
| register_first
| payment_received
| payment_failed.

Definition lang (l : Language) (k : Key) : jsstring :=
  JSString.lit
  match l, k with
  | ar, welcome => "🎉 مرحباً بك في DAFI!

منصة المدفوعات الفورية للشركات الصغيرة والمتوسطة في السعودية

💳 ادفع واستلم بسهولة
📊 تتبع مبيعاتك
🔔 إشعارات فورية

🏢 مدعوم من NumAris Ltd."
  | ar, choose_lang => "اختر لغتك / Choose your language:"
  | ar, business_register => "📝 تسجيل عملك التجاري"
  | ar, create_payment => "💳 إنشاء رابط دفع"
  | ar, view_dashboard => "📊 لوحة المبيعات"
  | ar, settings => "⚙️ الإعدادات"
  | ar, help => "❓ المساعدة"
  | ar, enter_business_name => "أدخل اسم عملك التجاري:"
  | ar, enter_business_phone => "أدخل رقم هاتف العمل (مثال: +966501234567):"
  | ar, enter_amount => "أدخل المبلغ بالريال السعودي (مثال: 100):"
  | ar, enter_description => "أدخل وصف المنتج/الخدمة:"
  | ar, payment_created => "✅ تم إنشاء رابط الدفع بنجاح!"
  | ar, total_sales => "إجمالي المبيعات"
  | ar, today_sales => "مبيعات اليوم"
  | ar, pending_payments => "المدفوعات المعلقة"
  | ar, invalid_amount => "❌ يرجى إدخال مبلغ صحيح (1-50000 ريال)"
  | ar, invalid_phone => "❌ يرجى إدخال رقم هاتف صحيح"
  | ar, business_registered => "✅ تم تسجيل عملك التجاري بنجاح!"
  | ar, register_first => "❌ يرجى تسجيل عملك التجاري أولاً"
  | ar, payment_received => "🎉 تم استلام الدفعة!"
  | ar, payment_failed => "❌ فشل في الدفع"
  | en, welcome => "🎉 Welcome to DAFI!

Instant Payment Platform for Saudi SME

💳 Pay & Receive Instantly
📊 Track Your Sales
🔔 Real-time Notifications

🏢 Powered by NumAris Ltd."
  | en, choose_lang => "اختر لغتك / Choose your language:"
  | en, business_register => "📝 Register Business"
  | en, create_payment => "💳 Create Payment Link"
  | en, view_dashboard => "📊 Sales Dashboard"
  | en, settings => "⚙️ Settings"
  | en, help => "❓ Help"
  | en, enter_business_name => "Enter your business name:"
  | en, enter_business_phone => "Enter business phone number (example: +966501234567):"
  | en, enter_amount => "Enter amount in SAR (example: 100):"
  | en, enter_description => "Enter product/service description:"
  | en, payment_created => "✅ Payment link created successfully!"
  | en, total_sales => "Total Sales"
  | en, today_sales => "Today's Sales"
  | en, pending_payments => "Pending Payments"
  | en, invalid_amount => "❌ Please enter a valid amount (1-50000 SAR)"
  | en, invalid_phone => "❌ Please enter a valid phone number"
  | en, business_registered => "✅ Business registered successfully!"
  | en, register_first => "❌ Please register your business first"
  | en, payment_received => "🎉 Payment Received!"
  | en, payment_failed => "❌ Payment Failed"
  end.

Arguments lang : simpl never.

(** The two literals of the language keyboard. *)
Definition arabic_button : jsstring := JSString.lit "🇸🇦 العربية".
Definition english_button : jsstring := JSString.lit "🇺🇸 English".

(* ===================================================================== *)
(** * Values of a parsed JSON body *)
(* ===================================================================== *)

Module Value.

(** What [req.body] and the fields destructured from it can hold;
    [Undefined] is a field that is not there. *)
#[local] Unset Elimination Schemes.
Inductive t :=
| Undefined
| Null
| Bool (b : bool)
| Num (x : number)
| Str (s : jsstring)
| Arr (items : list t)
| Obj (members : list (jsstring * t)).
#[local] Set Elimination Schemes.

Definition truthy (v : t) : bool :=
  match v with
  | Undefined | Null => false
  | Bool b => b
  | Num x => Number.truthy x
  | Str s => negb (Nat.eqb (length s) 0)
  | Arr _ | Obj _ => true
  end.

(** [v.name] and [v?.name] for a property [name] that no built-in
    prototype defines: the member of an object (the last one of that
    name, as [JSON.parse] keeps it), [undefined] on every other value.
    Reading a property of [undefined] or [null] without [?.] throws, which
    the callers check with [nullish] first. *)
Definition get (v : t) (name : jsstring) : t :=
  match v with
  | Obj members =>
    fold_left (fun found kv => if decide (fst kv = name) then snd kv else found)
              members Undefined
  | _ => Undefined
  end.

Definition nullish (v : t) : bool :=
  match v with Undefined | Null => true | _ => false end.

(** Whether [`${v}`] gives a string: the conversion throws a TypeError for
    an object with a member named [toString], which hides the method of the
    prototype behind a value that cannot be called (the method [valueOf]
    then gives back the object, or is hidden as well), and for an array that
    holds such an object, since [join] converts the elements. Every other
    value of a parsed body has a string. *)
Fixpoint printable (v : t) : bool :=
  match v with
  | Arr items => forallb printable items
  | Obj members =>
    negb (existsb (fun kv => bool_decide (fst kv = JSString.lit "toString")) members)
  | _ => true
  end.

(** [v === 'literal'] *)
Definition is_string (v : t) (s : jsstring) : bool :=
  match v with
  | Str s' => bool_decide (s' = s)
  | _ => false
  end.

End Value.

Abbreviation jsval := Value.t.

(* ===================================================================== *)
(** * The data model *)
(* ===================================================================== *)

(** The values that the source assigns to [user.step]. *)
Inductive Step :=
| start
| register_name
| register_phone
| main
| payment_amount
| payment_description.

#[global] Instance Step_eq_dec : EqDecision Step.
Proof. solve_decision. Defined.

#[global] Instance Language_eq_dec : EqDecision Language.
Proof. solve_decision. Defined.

(** The values that the source assigns to [payment.status]. *)
Inductive Status := pending | completed | failed | expired.

#[global] Instance Status_eq_dec : EqDecision Status.
Proof. solve_decision. Defined.

(** An entry of [users]. The fields [createdAt] and [lastActivity], which
    [getUser] writes and nothing reads, are left out. *)
Module User.

(** [tempData]: a property that was never assigned is [None]. *)
Record tempData_t := {
  businessName : option jsstring;
  amount : option number;
}.

(** [{}] *)
Definition no_tempData : tempData_t :=
  {| businessName := None; amount := None |}.

Record t := {
  id : Z;
  language : Language;
  step : Step;
  tempData : tempData_t;
}.

Definition set_language (l : Language) (u : t) : t :=
  {| id := id u; language := l; step := step u; tempData := tempData u |}.

Definition set_step (s : Step) (u : t) : t :=
  {| id := id u; language := language u; step := s; tempData := tempData u |}.

Definition set_tempData (d : tempData_t) (u : t) : t :=
  {| id := id u; language := language u; step := step u; tempData := d |}.

Definition set_businessName (n : jsstring) (u : t) : t :=
  set_tempData {| businessName := Some n; amount := amount (tempData u) |} u.

Definition set_amount (a : number) (u : t) : t :=
  set_tempData {| businessName := businessName (tempData u); amount := Some a |} u.

End User.

(** An entry of [businesses]. *)
Module Business.

Record t := {
  id : jsstring;
  ownerId : Z;
  name : option jsstring;
  phone : jsstring;
  createdAt : Z;
  totalSales : number;
  todaySales : number;
  transactionCount : number;
}.

End Business.

(** An entry of [payments]. The three settlement fields are [None] until
    they are assigned. *)
Module Payment.

Record t := {
  id : jsstring;
  merchantId : Z;
  amount : option number;
  description : jsstring;
  status : Status;
  createdAt : Z;
  expiresAt : Z;
  transactionRef : option jsval;
  completedAt : option Z;
  failureReason : option jsval;
}.

Definition set_status (s : Status) (p : t) : t :=
  {| id := id p; merchantId := merchantId p; amount := amount p;
     description := description p; status := s; createdAt := createdAt p;
     expiresAt := expiresAt p; transactionRef := transactionRef p;
     completedAt := completedAt p; failureReason := failureReason p |}.

Definition set_transactionRef (r : jsval) (p : t) : t :=
  {| id := id p; merchantId := merchantId p; amount := amount p;
     description := description p; status := status p; createdAt := createdAt p;
     expiresAt := expiresAt p; transactionRef := Some r;
     completedAt := completedAt p; failureReason := failureReason p |}.

Definition set_completedAt (d : Z) (p : t) : t :=
  {| id := id p; merchantId := merchantId p; amount := amount p;
     description := description p; status := status p; createdAt := createdAt p;
     expiresAt := expiresAt p; transactionRef := transactionRef p;
     completedAt := Some d; failureReason := failureReason p |}.

Definition set_failureReason (r : jsval) (p : t) : t :=
  {| id := id p; merchantId := merchantId p; amount := amount p;
     description := description p; status := status p; createdAt := createdAt p;
     expiresAt := expiresAt p; transactionRef := transactionRef p;
     completedAt := completedAt p; failureReason := Some r |}.

End Payment.

(** ** What the bot hands to the chat transport *)

(** [reply_markup] *)
Inductive Markup :=
| NoMarkup
| Keyboard (rows : list (list jsstring)) (one_time_keyboard : bool)
| RemoveKeyboard.

(** The text of an outbound message: a string of the source, or one of its
    template literals with the values that fill it (the rendering of numbers
    into text is not modelled). *)
Inductive Text :=
| Plain (s : jsstring)
| BusinessRegisteredText (l : Language) (businessName : option jsstring)
| PaymentCreatedText (l : Language) (amount : option number)
                     (description paymentUrl : jsstring)
| DashboardText (l : Language) (business : Business.t)
| HelpText (language : Language)
| PaymentReceivedText (l : Language) (amount : option number)
                      (description : jsstring) (tran_ref : jsval)
| PaymentFailedText (l : Language) (amount : option number)
                    (description : jsstring).

Inductive Outbound :=
| sendMessage (chatId : Z) (text : Text) (reply_markup : Markup)
| sendPhoto (chatId : Z) (photo : jsstring) (caption : Text) (reply_markup : Markup).

(** ** The stores *)

(** The three maps of the process that are in use ([sessions] is declared
    and never touched), and the calls made to the transport so far, oldest
    first. *)
Record World := {
  users : gmap Z User.t;
  businesses : gmap jsstring Business.t;
  payments : gmap jsstring Payment.t;
  outbox : list Outbound;
}.

Definition initial : World :=
  {| users := ∅; businesses := ∅; payments := ∅; outbox := [] |}.

Definition set_users (f : gmap Z User.t -> gmap Z User.t) (w : World) : World :=
  {| users := f (users w); businesses := businesses w;
     payments := payments w; outbox := outbox w |}.

Definition set_businesses
    (f : gmap jsstring Business.t -> gmap jsstring Business.t) (w : World) : World :=
  {| users := users w; businesses := f (businesses w);
     payments := payments w; outbox := outbox w |}.

Definition set_payments
    (f : gmap jsstring Payment.t -> gmap jsstring Payment.t) (w : World) : World :=
  {| users := users w; businesses := businesses w;
     payments := f (payments w); outbox := outbox w |}.

(** The call reaches the transport. *)
Definition send (o : Outbound) (w : World) : World :=
  {| users := users w; businesses := businesses w;
     payments := payments w; outbox := outbox w ++ [o] |}.

(** ** The environment of one event *)

(** The configuration read from [process.env]. *)
Record Config := {
  WEBHOOK_URL : jsstring;
  PAYTABS_SERVER_KEY : option jsstring;
  PAYTABS_PROFILE_ID : option jsstring;
}.

(** What the collaborators outside the process answer while one event is
    handled. *)
Record Env := {
  (** the readings of the clock, in the order the handler asks for them
      (those of [getUser], for the fields left out, are not counted) *)
  clock : nat -> Z;
  (** [crypto.randomBytes(4)] *)
  randomBytes : list N;
  (** [QRCode.toDataURL]: [None] when it throws *)
  toDataURL : jsstring -> option jsstring;
  (** whether the promise of a transport call resolves *)
  delivered : Outbound -> bool;
  (** [response.data] of the gateway request: [None] when the request fails *)
  paytabs_data : option jsval;
}.

(* ===================================================================== *)
(** * The conversation engine *)
(* ===================================================================== *)

Definition new_user (chatId : Z) : User.t :=
  {| User.id := chatId; User.language := en; User.step := start;
     User.tempData := User.no_tempData |}.

(** [getUser(chatId)]: the entry of [chatId], made on first use. *)
Definition getUser (chatId : Z) (w : World) : User.t * World :=
  match users w !! chatId with
  | Some user => (user, w)
  | None => (new_user chatId, set_users (insert chatId (new_user chatId)) w)
  end.

(** The language of [getUserLang(chatId)], whose result is
    [lang[user.language]]. *)
Definition getUserLang (chatId : Z) (w : World) : Language * World :=
  let '(user, w) := getUser chatId w in (User.language user, w).

(** A user object is shared with the map that holds it: an assignment to
    one of its fields is an update of the entry. *)
Definition assign_user (chatId : Z) (user : User.t) (w : World) : World :=
  set_users (insert chatId user) w.

Definition generatePaymentId (env : Env) : jsstring :=
  JSString.lit "DAFI_" ++ JSString.of_Z (clock env 0)
    ++ JSString.lit "_" ++ JSString.hex (randomBytes env).

(** [generateQR(text)]: the data URL, or [null] when the encoder throws. *)
Definition generateQR (env : Env) (text : jsstring) : option jsstring :=
  toDataURL env text.

Definition main_keyboard (l : Language) : Markup :=
  Keyboard [ [lang l business_register; lang l create_payment];
             [lang l view_dashboard; lang l settings];
             [lang l help] ] false.

Definition getMainMenu (chatId : Z) (w : World) : Markup * World :=
  let '(l, w) := getUserLang chatId w in (main_keyboard l, w).

Definition getLanguageKeyboard : Markup :=
  Keyboard [ [arabic_button; english_button] ] true.

(** [handleBotError]: its third argument is an entry of [lang], which has
    no [language] property, so the English sentence is the one sent. *)
Definition handleBotError (chatId : Z) (w : World) : World :=
  let '(menu, w) := getMainMenu chatId w in
  send (sendMessage chatId
          (Plain (JSString.lit "❌ An error occurred. Please try again.")) menu) w.

(** [await bot.send...(...)] as the last statement of a branch of the
    message handler: when the promise rejects, the [catch] of the handler
    runs [handleBotError]. *)
Definition await_send (env : Env) (chatId : Z) (o : Outbound) (w : World) : World :=
  let w := send o w in
  if delivered env o then w else handleBotError chatId w.

Definition businessId_of (chatId : Z) : jsstring :=
  JSString.lit "BIZ_" ++ JSString.of_Z chatId.

(** [qrImage.split(',')[1]]: what lies between the first comma and the
    second, [None] when there is no comma. *)
Fixpoint until_comma (s : jsstring) : jsstring :=
  match s with
  | c :: r => if (c =? 44)%N then [] else c :: until_comma r
  | [] => []
  end.

Fixpoint split_comma_1 (s : jsstring) : option jsstring :=
  match s with
  | c :: r => if (c =? 44)%N then Some (until_comma r) else split_comma_1 r
  | [] => None
  end.

(** ** The branches of the message handler, in the order of the source *)

Definition select_language (env : Env) (chatId : Z) (l : Language)
    (user : User.t) (w : World) : World :=
  let w := assign_user chatId (User.set_language l user) w in
  let '(newL, w) := getUserLang chatId w in
  let '(menu, w) := getMainMenu chatId w in
  await_send env chatId (sendMessage chatId (Plain (lang newL welcome)) menu) w.

Definition enter_registration (env : Env) (chatId : Z) (l : Language)
    (user : User.t) (w : World) : World :=
  let w := assign_user chatId (User.set_step register_name user) w in
  await_send env chatId
    (sendMessage chatId (Plain (lang l enter_business_name)) RemoveKeyboard) w.

Definition on_register_name (env : Env) (chatId : Z) (l : Language)
    (text : jsstring) (user : User.t) (w : World) : World :=
  if negb (validateBusinessName text) then
    await_send env chatId
      (sendMessage chatId
         (Plain (JSString.lit "❌ Please enter a valid business name (2-100 characters)"))
         NoMarkup) w
  else
    let user := User.set_businessName (JSString.trim text) user in
    let user := User.set_step register_phone user in
    let w := assign_user chatId user w in
    await_send env chatId
      (sendMessage chatId (Plain (lang l enter_business_phone)) NoMarkup) w.

Definition on_register_phone (env : Env) (chatId : Z) (l : Language)
    (text : jsstring) (user : User.t) (w : World) : World :=
  if negb (validatePhone text) then
    await_send env chatId (sendMessage chatId (Plain (lang l invalid_phone)) NoMarkup) w
  else
    let businessId := businessId_of chatId in
    let w :=
      set_businesses
        (insert businessId
           {| Business.id := businessId;
              Business.ownerId := chatId;
              Business.name := User.businessName (User.tempData user);
              Business.phone := JSString.trim text;
              Business.createdAt := clock env 0;
              Business.totalSales := Number.zero;
              Business.todaySales := Number.zero;
              Business.transactionCount := Number.zero |}) w in
    let user := User.set_step main user in
    let user := User.set_tempData User.no_tempData user in
    let w := assign_user chatId user w in
    let '(menu, w) := getMainMenu chatId w in
    await_send env chatId
      (sendMessage chatId
         (BusinessRegisteredText l (User.businessName (User.tempData user))) menu) w.

Definition enter_payment (env : Env) (chatId : Z) (l : Language)
    (user : User.t) (w : World) : World :=
  let businessId := businessId_of chatId in
  match businesses w !! businessId with
  | None =>
    let '(menu, w) := getMainMenu chatId w in
    await_send env chatId (sendMessage chatId (Plain (lang l register_first)) menu) w
  | Some _ =>
    let w := assign_user chatId (User.set_step payment_amount user) w in
    await_send env chatId
      (sendMessage chatId (Plain (lang l enter_amount)) RemoveKeyboard) w
  end.

Definition on_payment_amount (env : Env) (chatId : Z) (l : Language)
    (text : jsstring) (user : User.t) (w : World) : World :=
  if negb (validateAmount text) then
    await_send env chatId (sendMessage chatId (Plain (lang l invalid_amount)) NoMarkup) w
  else
    let user := User.set_amount (Number.parseFloat text) user in
    let user := User.set_step payment_description user in
    let w := assign_user chatId user w in
    await_send env chatId
      (sendMessage chatId (Plain (lang l enter_description)) NoMarkup) w.

(** The record that the description step stores. The clock is read once for
    the identifier, once for [createdAt] and once for [expiresAt]. *)
Definition new_payment (env : Env) (chatId : Z) (paymentId : jsstring)
    (amount : option number) (description : jsstring) : Payment.t :=
  {| Payment.id := paymentId;
     Payment.merchantId := chatId;
     Payment.amount := amount;
     Payment.description := description;
     Payment.status := pending;
     Payment.createdAt := clock env 1;
     Payment.expiresAt := clock env 2 + 24 * 60 * 60 * 1000;
     Payment.transactionRef := None;
     Payment.completedAt := None;
     Payment.failureReason := None |}.

Definition on_payment_description (cfg : Config) (env : Env) (chatId : Z)
    (l : Language) (text : jsstring) (user : User.t) (w : World) : World :=
  let paymentId := generatePaymentId env in
  let amount := User.amount (User.tempData user) in
  let description := JSString.trim text in
  let w :=
    set_payments
      (insert paymentId (new_payment env chatId paymentId amount description)) w in
  let paymentUrl := WEBHOOK_URL cfg ++ JSString.lit "/pay/" ++ paymentId in
  let user := User.set_step main user in
  let user := User.set_tempData User.no_tempData user in
  let w := assign_user chatId user w in
  let message := PaymentCreatedText l amount description paymentUrl in
  match generateQR env paymentUrl with
  | Some ((_ :: _) as qrImage) =>
    match split_comma_1 qrImage with
    | Some qrBuffer =>
      let '(menu, w) := getMainMenu chatId w in
      await_send env chatId (sendPhoto chatId qrBuffer message menu) w
    | None => handleBotError chatId w
    end
  | _ =>
    let '(menu, w) := getMainMenu chatId w in
    await_send env chatId (sendMessage chatId message menu) w
  end.

(** The dashboard reads the stores and writes none of them; the totals it
    renders from the ledger are not modelled. *)
Definition show_dashboard (env : Env) (chatId : Z) (l : Language) (w : World) : World :=
  let businessId := businessId_of chatId in
  match businesses w !! businessId with
  | None =>
    let '(menu, w) := getMainMenu chatId w in
    await_send env chatId (sendMessage chatId (Plain (lang l register_first)) menu) w
  | Some business =>
    let '(menu, w) := getMainMenu chatId w in
    await_send env chatId (sendMessage chatId (DashboardText l business) menu) w
  end.

Definition show_help (env : Env) (chatId : Z) (user : User.t) (w : World) : World :=
  let '(menu, w) := getMainMenu chatId w in
  await_send env chatId (sendMessage chatId (HelpText (User.language user)) menu) w.

Definition show_settings (env : Env) (chatId : Z) (w : World) : World :=
  await_send env chatId
    (sendMessage chatId (Plain (lang en choose_lang)) getLanguageKeyboard) w.

(** ** [bot.on('message', ...)] *)

(** The body of the [try] block: the tests of the source, in its order. *)
Definition on_text (cfg : Config) (env : Env) (chatId : Z)
    (text : jsstring) (w : World) : World :=
  let '(user, w) := getUser chatId w in
  let l := User.language user in
  if decide (text = arabic_button) then select_language env chatId ar user w
  else if decide (text = english_button) then select_language env chatId en user w
  else if decide (text = lang l business_register) then
    enter_registration env chatId l user w
  else if decide (User.step user = register_name) then
    on_register_name env chatId l text user w
  else if decide (User.step user = register_phone) then
    on_register_phone env chatId l text user w
  else if decide (text = lang l create_payment) then
    enter_payment env chatId l user w
  else if decide (User.step user = payment_amount) then
    on_payment_amount env chatId l text user w
  else if decide (User.step user = payment_description) then
    on_payment_description cfg env chatId l text user w
  else if decide (text = lang l view_dashboard) then show_dashboard env chatId l w
  else if decide (text = lang l help) then show_help env chatId user w
  else if decide (text = lang l settings) then show_settings env chatId w
  else w.

(** [text] is [None] for a message without text; such a message, an empty
    text and a text that starts with [/] are left alone. *)
Definition on_message (cfg : Config) (env : Env) (chatId : Z)
    (text : option jsstring) (w : World) : World :=
  match text with
  | None | Some [] => w
  | Some text =>
    if JSString.startsWith text (JSString.lit "/") then w
    else on_text cfg env chatId text w
  end.

(** ** [bot.onText(/\/start/, ...)] *)

(** The pattern is not anchored: it is found anywhere in the text. *)
Fixpoint includes (s p : jsstring) : bool :=
  JSString.startsWith s p
  || match s with
     | _ :: r => includes r p
     | [] => false
     end.

Definition on_start (env : Env) (chatId : Z) (w : World) : World :=
  let '(_, w) := getUser chatId w in
  send (sendMessage chatId
          (Plain (JSString.lit "Hello! Please choose your language"))
          getLanguageKeyboard) w.

(** An inbound chat message: the listener of ['message'] runs, then the one
    of [onText] when the text has the pattern. The calls of a listener to
    the transport are in the outbox in their order, and those of the first
    listener come before the prompt of the second. In the bot the second
    listener starts when the first one waits for the first time (for a
    delivery, or for the QR image), so that its prompt goes out before
    what the first one sends after that wait; the stores are the same. *)
Definition receive (cfg : Config) (env : Env) (chatId : Z)
    (text : option jsstring) (w : World) : World :=
  let w := on_message cfg env chatId text w in
  match text with
  | Some t => if includes t (JSString.lit "/start") then on_start env chatId w else w
  | None => w
  end.

(* ===================================================================== *)
(** * The public payment page *)
(* ===================================================================== *)

(** What [GET /pay/:paymentId] answers. *)
Inductive Page :=
| NotFoundPage                       (* 404, "Payment Not Found" *)
| ProcessedPage (status : Status)    (* "Payment <status>" *)
| ExpiredPage                        (* "Payment Expired" *)
| DemoPage (amount : option number) (description : jsstring)
| Redirect (redirect_url : jsval)
| PaymentErrorPage                   (* 500, "Payment Error" *)
| UnavailablePage.                   (* 500, "Service Temporarily Unavailable" *)

(** [!PAYTABS_SERVER_KEY || !PAYTABS_PROFILE_ID] *)
Definition credentials_missing (cfg : Config) : bool :=
  match PAYTABS_SERVER_KEY cfg, PAYTABS_PROFILE_ID cfg with
  | Some (_ :: _), Some (_ :: _) => false
  | _, _ => true
  end.

(** [createPayTabsPayment]: [response.data] of the gateway, or [None] when
    it throws (credentials missing, or the request failed). The request
    that it builds is not modelled. *)
Definition createPayTabsPayment (cfg : Config) (env : Env) : option jsval :=
  if credentials_missing cfg then None else paytabs_data env.

(** [app.get('/pay/:paymentId', ...)] *)
Definition pay_page (cfg : Config) (env : Env) (paymentId : jsstring)
    (w : World) : World * Page :=
  match payments w !! paymentId with
  | None => (w, NotFoundPage)
  | Some payment =>
    if negb (bool_decide (Payment.status payment = pending)) then
      (w, ProcessedPage (Payment.status payment))
    else if (clock env 0 >? Payment.expiresAt payment)%Z then
      (set_payments (insert paymentId (Payment.set_status expired payment)) w,
       ExpiredPage)
    else if credentials_missing cfg then
      (w, DemoPage (Payment.amount payment) (Payment.description payment))
    else
      match createPayTabsPayment cfg env with
      | None => (w, UnavailablePage)
      | Some paytabsResponse =>
        if Value.nullish paytabsResponse then (w, UnavailablePage)
        else
          let redirect_url := Value.get paytabsResponse (JSString.lit "redirect_url") in
          if Value.truthy redirect_url then (w, Redirect redirect_url)
          else (w, PaymentErrorPage)
      end
  end.

(* ===================================================================== *)
(** * The settlement handler *)
(* ===================================================================== *)

(** What [POST /paytabs/callback] answers. *)
Inductive Ack :=
| NotFoundAck      (* 404, 'Payment not found' *)
| OkAck            (* 200, 'OK' *)
| ErrorAck.        (* 500, 'Error' *)

(** The three fields that the handler destructures from [req.body]. *)
Record Notification := {
  tran_ref : jsval;
  payment_result : jsval;
  cart_id : jsval;
}.

(** [payments.get(cart_id)]: the keys of the ledger are strings, and only a
    string is the same value as one of them. *)
Definition payments_get (cart_id : jsval) (w : World) : option (jsstring * Payment.t) :=
  match cart_id with
  | Value.Str key =>
    match payments w !! key with
    | Some payment => Some (key, payment)
    | None => None
    end
  | _ => None
  end.

(** [payment_result && payment_result.response_status === 'A'] *)
Definition approved (payment_result : jsval) : bool :=
  Value.truthy payment_result
  && Value.is_string (Value.get payment_result (JSString.lit "response_status"))
                     (JSString.lit "A").

(** [payment_result?.response_message || 'Unknown error'] *)
Definition failure_reason (payment_result : jsval) : jsval :=
  let response_message := Value.get payment_result (JSString.lit "response_message") in
  if Value.truthy response_message then response_message
  else Value.Str (JSString.lit "Unknown error").

(** [x += amount] where the amount may be [undefined]. *)
Definition add_amount (x : number) (amount : option number) : number :=
  match amount with
  | Some a => Number.add x a
  | None => Number.NaN
  end.

(** The update of the business statistics. *)
Definition record_sale (amount : option number) (business : Business.t) : Business.t :=
  {| Business.id := Business.id business;
     Business.ownerId := Business.ownerId business;
     Business.name := Business.name business;
     Business.phone := Business.phone business;
     Business.createdAt := Business.createdAt business;
     Business.totalSales := add_amount (Business.totalSales business) amount;
     Business.todaySales := add_amount (Business.todaySales business) amount;
     Business.transactionCount :=
       Number.add (Business.transactionCount business) (Number.of_Z 1) |}.

(** [app.post('/paytabs/callback', ...)]. The text of the message to the
    merchant is built after the record is written and before the message
    is sent and the sale counted: when [tran_ref] has no string, the
    template literal throws there, and the [catch] of the handler
    answers. *)
Definition paytabs_callback (env : Env) (body : Notification) (w : World) : World * Ack :=
  match payments_get (cart_id body) w with
  | None => (w, NotFoundAck)
  | Some (key, payment) =>
    if approved (payment_result body) then
      let payment := Payment.set_status completed payment in
      let payment := Payment.set_transactionRef (tran_ref body) payment in
      let payment := Payment.set_completedAt (clock env 0) payment in
      let w := set_payments (insert key payment) w in
      let '(l, w) := getUserLang (Payment.merchantId payment) w in
      if negb (Value.printable (tran_ref body)) then (w, ErrorAck)
      else
        let w :=
          send (sendMessage (Payment.merchantId payment)
                  (PaymentReceivedText l (Payment.amount payment)
                     (Payment.description payment) (tran_ref body)) NoMarkup) w in
        let businessId := businessId_of (Payment.merchantId payment) in
        match businesses w !! businessId with
        | Some business =>
          (set_businesses
             (insert businessId (record_sale (Payment.amount payment) business)) w,
           OkAck)
        | None => (w, OkAck)
        end
    else
      let payment := Payment.set_status failed payment in
      let payment := Payment.set_failureReason (failure_reason (payment_result body)) payment in
      let w := set_payments (insert key payment) w in
      let '(l, w) := getUserLang (Payment.merchantId payment) w in
      (send (sendMessage (Payment.merchantId payment)
               (PaymentFailedText l (Payment.amount payment)
                  (Payment.description payment)) NoMarkup) w,
       OkAck)
  end.

(* ===================================================================== *)
(** * Events and reachable worlds *)
(* ===================================================================== *)

Inductive Event :=
| Message (chatId : Z) (text : option jsstring)
| Visit (paymentId : jsstring)
| Callback (body : Notification).

Definition handle (cfg : Config) (env : Env) (e : Event) (w : World) : World :=
  match e with
  | Message chatId text => receive cfg env chatId text w
  | Visit paymentId => fst (pay_page cfg env paymentId w)
  | Callback body => fst (paytabs_callback env body w)
  end.

(** The worlds that a run of the process goes through, from the empty
    stores it starts with. *)
Inductive reachable (cfg : Config) : World -> Prop :=
| reachable_initial : reachable cfg initial
| reachable_handle env e w :
    reachable cfg w -> reachable cfg (handle cfg env e w).

(** A run on a list of events, each with its environment. *)
Definition run (cfg : Config) (events : list (Env * Event)) (w : World) : World :=
  fold_left (fun w ee => handle cfg (fst ee) (snd ee) w) events w.

(* ===================================================================== *)
(** * The specification's wording of the validators *)
(* ===================================================================== *)

(** The specification's phone format: an optional leading [+], then 2 to 15
    digits, the first of which is not [0]. *)
Definition spec_phone_format (s : jsstring) : bool :=
  let ds := match s with c :: r => if (c =? 43)%N then r else s | [] => s end in
  (2 <=? length ds)%nat && (length ds <=? 15)%nat
  && forallb JSString.is_digit ds
  && match ds with d :: _ => negb (d =? 48)%N | [] => false end.

(** The characters of a text that passes the phone validation: white space,
    [+] and digits. *)
Definition phone_char (c : N) : bool :=
  JSString.is_space c || ((c =? 43)%N || JSString.is_digit c).

(** The exact value of the decimal [m * 10 ^ k], as the fraction
    [decimal_num m k / decimal_den k]. *)
Definition decimal_num (m : N) (k : Z) : Z := (Z.of_N m * 10 ^ Z.max k 0)%Z.
Definition decimal_den (k : Z) : Z := (10 ^ Z.max (- k) 0)%Z.

(** The decimals [v = m * 10 ^ k] with [1 - 2 ^ -54 <= v <= 50000 + 2 ^ -38]:
    those whose nearest binary64 number, ties to even, is in the range 1 to
    50000. *)
Definition rounds_into_range (m : N) (k : Z) : bool :=
  ((2 ^ 54 - 1) * decimal_den k <=? 2 ^ 54 * decimal_num m k)%Z
  && (2 ^ 38 * decimal_num m k <=? (50000 * 2 ^ 38 + 1) * decimal_den k)%Z.

(** The amounts that validation accepts, by the literal read at the head
    of the input. *)
Definition accepted_literal (l : Number.Literal) : bool :=
  match l with
  | Number.Decimal false m k => rounds_into_range m k
  | _ => false
  end.

(** A text that cannot continue a numeral made of digits: it is empty, or
    its first character is neither a digit, nor [.], nor [e] or [E]. *)
Definition ends_numeral (t : jsstring) : bool :=
  match t with
  | [] => true
  | c :: _ =>
    negb (JSString.is_digit c || (c =? 46)%N || (c =? 101)%N || (c =? 69)%N)
  end.

(** A text that cannot start a numeral: it is empty, or its first
    character is neither a digit, nor a sign, nor [.]. *)
Definition starts_no_numeral (t : jsstring) : bool :=
  match t with
  | [] => true
  | c :: _ =>
    negb (JSString.is_digit c || (c =? 43)%N || (c =? 45)%N || (c =? 46)%N)
  end.

(** The specification's numeric input: a whole text that is a decimal
    numeral, that is an optional sign, then digits with an optional
    fraction or a fraction that starts with the point, then an optional
    exponent. *)
Definition numeral : Regex.t :=
  let digit := Regex.Class JSString.is_digit in
  let sign := Regex.opt (Regex.Alt (Regex.Class (N.eqb 43)) (Regex.Class (N.eqb 45))) in
  let digits1 := Regex.Cat digit (Regex.Star digit) in
  Regex.Cat sign
    (Regex.Cat
       (Regex.Alt
          (Regex.Cat digits1
             (Regex.opt (Regex.Cat (Regex.Class (N.eqb 46)) (Regex.Star digit))))
          (Regex.Cat (Regex.Class (N.eqb 46)) digits1))
       (Regex.opt
          (Regex.Cat (Regex.Alt (Regex.Class (N.eqb 101)) (Regex.Class (N.eqb 69)))
             (Regex.Cat sign digits1)))).

Definition spec_numeric (s : jsstring) : bool := Regex.test numeral s.

(* ===================================================================== *)
(** * Abbreviations used by the statements *)
(* ===================================================================== *)

(** The literal of the language keyboard that selects [l]. *)
Definition button (l : Language) : jsstring :=
  match l with
  | ar => arabic_button
  | en => english_button
  end.

(** The reply of [handleBotError] to a user whose language is [l]. *)
Definition error_reply (chatId : Z) (l : Language) : Outbound :=
  sendMessage chatId
    (Plain (JSString.lit "❌ An error occurred. Please try again."))
    (main_keyboard l).

(** What an awaited call [o] leaves in the outbox: the call, and the error
    reply after it when the transport rejects the call. *)
Definition sent (env : Env) (chatId : Z) (l : Language) (o : Outbound) : list Outbound :=
  o :: (if delivered env o then [] else [error_reply chatId l]).

(** The notification to the merchant is written in the merchant's
    language, English for a merchant that has no session yet. *)
Definition merchant_language (chatId : Z) (w : World) : Language :=
  fst (getUserLang chatId w).

(** The steps in which no flow is under way. *)
Definition idle (s : Step) : bool :=
  match s with
  | start | main => true
  | _ => false
  end.

(** A session outside a flow has an empty input buffer. *)
Definition buffer_kept (u : User.t) : Prop :=
  idle (User.step u) = true -> User.tempData u = User.no_tempData.

(* ===================================================================== *)
(** * Proof automation *)
(* ===================================================================== *)

(** The entry of [chatId] in a world that a handler has just written. *)
Ltac user_lookup :=
  unfold assign_user, set_users, set_businesses, set_payments, send;
  cbn [users];
  first [apply lookup_insert_eq | eassumption].

(** The tests of [on_text] that the hypotheses rule out. *)
Ltac skip_tests := repeat (case_decide; try congruence).

(** The stores of a world that a handler has just written. *)
Ltac stores :=
  cbn [users businesses payments outbox
       assign_user set_users set_businesses set_payments send].

(* ===================================================================== *)
(** * Definitions for the rounding to binary64 *)
(* ===================================================================== *)

(** A record of [shr] that locates the fraction [a / b]. *)
Definition locates (a b : Z) (mrs : shr_record) : Prop :=
  let m := shr_m mrs in
  match shr_r mrs, shr_s mrs with
  | false, false => a = m * b
  | false, true => m * b < a /\ 2 * a < (2 * m + 1) * b
  | true, false => 2 * a = (2 * m + 1) * b
  | true, true => (2 * m + 1) * b < 2 * a /\ a < (m + 1) * b
  end%Z.

(** Rounding to nearest, ties to even, of the fraction [a / b] whose
    integer part is [m]. *)
Definition rne (a b m : Z) : Z :=
  match (2 * a ?= (2 * m + 1) * b)%Z with
  | Lt => m
  | Eq => if Z.even m then m else m + 1
  | Gt => m + 1
  end%Z.

(** How the rounding ends: the float of a significand and an exponent. *)
Definition finish (sx : bool) (m e : Z) : spec_float :=
  match m with
  | Z0 => S754_zero sx
  | Zpos p => if (e <=? 1024 - 53)%Z then S754_finite sx p e else S754_infinity sx
  | Zneg _ => S754_nan
  end.

(* ===================================================================== *)
(** * The monitoring endpoints *)
(* ===================================================================== *)

(** The counts that [GET /health] reports in [stats]; the uptime, the
    memory and the timestamp beside them are not modelled. *)
Module Health.

Record t := {
  users : nat;
  businesses : nat;
  payments : nat;
}.

End Health.

Definition health (w : World) : Health.t :=
  {| Health.users := size (users w);
     Health.businesses := size (businesses w);
     Health.payments := size (payments w) |}.

(* ===================================================================== *)
(** * Abbreviations used by the statements on the rest of the code *)
(* ===================================================================== *)

(** A text with no white space at either end. *)
Definition bare (s : jsstring) : bool :=
  match s with
  | c :: _ => negb (JSString.is_space c)
  | [] => true
  end
  && match rev s with
     | c :: _ => negb (JSString.is_space c)
     | [] => true
     end.

(** The characters of the decimal writing of an integer. *)
Definition decimal_char (c : N) : bool := (c =? 45)%N || JSString.is_digit c.

(** The characters of the hexadecimal writing of bytes. *)
Definition hex_char (c : N) : bool :=
  JSString.is_digit c || ((97 <=? c)%N && (c <=? 102)%N).

(** A name that the registration has accepted and stored. *)
Definition stored_name (n : jsstring) : Prop :=
  bare n = true /\ (2 <= length n <= 100)%nat.

(** An amount that the payment flow has accepted: a binary64 number in the
    range 1 to 50000. *)
Definition stored_amount (a : number) : Prop :=
  Number.ge a (Number.of_Z 1) = true /\ Number.le a (Number.of_Z 50000) = true.

(** A number that is neither NaN nor below zero. *)
Definition nonnegative (x : number) : bool :=
  match x with
  | S754_zero _ | S754_finite false _ _ | S754_infinity false => true
  | _ => false
  end.

(** The chat that a call to the transport is addressed to. *)
Definition recipient (o : Outbound) : Z :=
  match o with
  | sendMessage chatId _ _ => chatId
  | sendPhoto chatId _ _ _ => chatId
  end.

(** ** What one chat message does *)

(** The branch of the message handler that a text takes, told by what it
    writes: the session [u] of the sender becomes the first result, and the
    Business Profile and the Payment Record, when there is one, are stored
    under the key of the sender and under the identifier that the handler
    generates. [profile] is the Business Profile that the sender has. *)
Inductive transition (env : Env) (chatId : Z) (text : jsstring)
    (profile : option Business.t) (u : User.t)
  : User.t -> option Business.t -> option Payment.t -> Prop :=
| language_chosen l :
    text = button l ->
    transition env chatId text profile u (User.set_language l u) None None
| registration_entered :
    transition env chatId text profile u (User.set_step register_name u) None None
| name_taken :
    User.step u = register_name -> validateBusinessName text = true ->
    transition env chatId text profile u
      (User.set_step register_phone (User.set_businessName (JSString.trim text) u))
      None None
| phone_taken :
    User.step u = register_phone -> validatePhone text = true ->
    transition env chatId text profile u
      (User.set_tempData User.no_tempData (User.set_step main u))
      (Some {| Business.id := businessId_of chatId;
               Business.ownerId := chatId;
               Business.name := User.businessName (User.tempData u);
               Business.phone := JSString.trim text;
               Business.createdAt := clock env 0;
               Business.totalSales := Number.zero;
               Business.todaySales := Number.zero;
               Business.transactionCount := Number.zero |})
      None
| payment_entered :
    User.step u <> register_name -> User.step u <> register_phone ->
    is_Some profile ->
    transition env chatId text profile u (User.set_step payment_amount u) None None
| amount_taken :
    User.step u = payment_amount -> validateAmount text = true ->
    transition env chatId text profile u
      (User.set_step payment_description
         (User.set_amount (Number.parseFloat text) u))
      None None
| description_taken :
    User.step u = payment_description ->
    transition env chatId text profile u
      (User.set_tempData User.no_tempData (User.set_step main u))
      None
      (Some (new_payment env chatId (generatePaymentId env)
               (User.amount (User.tempData u)) (JSString.trim text)))
| session_kept :
    transition env chatId text profile u u None None.

(** The stores after a message, by what the message wrote. *)
Definition written (chatId : Z) (paymentId : jsstring) (w : World)
    (u' : User.t) (b : option Business.t) (p : option Payment.t)
    (out : list Outbound) : World :=
  {| users := <[chatId := u']> (users w);
     businesses :=
       match b with
       | Some b => <[businessId_of chatId := b]> (businesses w)
       | None => businesses w
       end;
     payments :=
       match p with
       | Some p => <[paymentId := p]> (payments w)
       | None => payments w
       end;
     outbox := outbox w ++ out |}.

(** ** The stores that a run keeps consistent *)

Definition in_payment_flow (s : Step) : bool :=
  match s with
  | payment_amount | payment_description => true
  | _ => false
  end.

(** A session is filed under its chat, and holds what its step is going to
    read. *)
Definition session_ok (c : Z) (u : User.t) : Prop :=
  User.id u = c
  /\ (User.step u = register_phone ->
      exists n, User.businessName (User.tempData u) = Some n /\ stored_name n)
  /\ (User.step u = payment_description ->
      exists a, User.amount (User.tempData u) = Some a /\ stored_amount a).

Definition profile_ok (w : World) (k : jsstring) (b : Business.t) : Prop :=
  k = businessId_of (Business.ownerId b)
  /\ Business.id b = k
  /\ (exists n, Business.name b = Some n /\ stored_name n)
  /\ validatePhone (Business.phone b) = true
  /\ is_Some (users w !! Business.ownerId b)
  /\ Business.todaySales b = Business.totalSales b
  /\ nonnegative (Business.totalSales b) = true
  /\ nonnegative (Business.transactionCount b) = true.

Definition record_ok (w : World) (k : jsstring) (p : Payment.t) : Prop :=
  Payment.id p = k
  /\ JSString.startsWith k (JSString.lit "DAFI_") = true
  /\ (exists a, Payment.amount p = Some a /\ stored_amount a)
  /\ bare (Payment.description p) = true
  /\ is_Some (businesses w !! businessId_of (Payment.merchantId p))
  /\ is_Some (users w !! Payment.merchantId p).

Definition consistent (w : World) : Prop :=
  map_Forall session_ok (users w)
  /\ map_Forall
       (fun c u =>
          in_payment_flow (User.step u) = true ->
          is_Some (businesses w !! businessId_of c))
       (users w)
  /\ map_Forall (profile_ok w) (businesses w)
  /\ map_Forall (record_ok w) (payments w).

(** Two states of a Payment Record with the same terms: what the merchant
    asked for, and when. *)
Definition same_terms (p p' : Payment.t) : Prop :=
  Payment.id p' = Payment.id p
  /\ Payment.merchantId p' = Payment.merchantId p
  /\ Payment.amount p' = Payment.amount p
  /\ Payment.description p' = Payment.description p
  /\ Payment.createdAt p' = Payment.createdAt p
  /\ Payment.expiresAt p' = Payment.expiresAt p.

(** The notifications on which the settlement handler stops midway: the
    outcome is a success, and the transaction reference has no string to put
    into the message for the merchant. *)
Definition interrupted (body : Notification) : bool :=
  approved (payment_result body) && negb (Value.printable (tran_ref body)).

(** The prompt of the [/start] command. *)
Definition start_prompt (chatId : Z) : Outbound :=
  sendMessage chatId (Plain (JSString.lit "Hello! Please choose your language"))
    getLanguageKeyboard.

(** The sessions and the Business Profiles of a world have an entry in
    another one, whatever they hold there. *)
Definition grown (w w' : World) : Prop :=
  (forall c, is_Some (users w !! c) -> is_Some (users w' !! c))
  /\ (forall k, is_Some (businesses w !! k) -> is_Some (businesses w' !! k)).

(** The characters of a payment identifier: the letters of the prefix, the
    separator, and those of the two numbers. *)
Definition id_char (c : N) : bool :=
  existsb (N.eqb c) (JSString.lit "DAFI_") || decimal_char c || hex_char c.

(** ** A configuration, an environment and a run, for the examples *)

Definition demo_cfg : Config :=
  {| WEBHOOK_URL := JSString.lit "https://dafi.example";
     PAYTABS_SERVER_KEY := None; PAYTABS_PROFILE_ID := None |}.

Definition demo_env : Env :=
  {| clock := fun _ => 1700000000000%Z; randomBytes := [222; 173; 190; 239];
     toDataURL := fun _ => None; delivered := fun _ => true;
     paytabs_data := None |}.

(** A merchant registers a business, asks for a payment link, and the
    gateway reports the payment as approved. *)
Definition demo_events : list (Env * Event) :=
  map (fun e => (demo_env, e))
    [ Message 42 (Some english_button);
      Message 42 (Some (lang en business_register));
      Message 42 (Some (JSString.lit "  Acme Foods "));
      Message 42 (Some (JSString.lit "+966 50 123 4567"));
      Message 42 (Some (lang en create_payment));
      Message 42 (Some (JSString.lit "250"));
      Message 42 (Some (JSString.lit " Coffee order "));
      Callback {| tran_ref := Value.Str (JSString.lit "TST2001");
                  payment_result :=
                    Value.Obj [(JSString.lit "response_status",
                                Value.Str (JSString.lit "A"))];
                  cart_id := Value.Str (generatePaymentId demo_env) |} ].

Definition demo_world : World := run demo_cfg demo_events initial.

(** What the run leaves in the three stores. *)
Definition demo_session : User.t :=
  {| User.id := 42; User.language := en; User.step := main;
     User.tempData := User.no_tempData |}.

Definition demo_business : Business.t :=
  {| Business.id := businessId_of 42;
     Business.ownerId := 42;
     Business.name := Some (JSString.lit "Acme Foods");
     Business.phone := JSString.lit "+966 50 123 4567";
     Business.createdAt := 1700000000000;
     Business.totalSales := Number.of_Z 250;
     Business.todaySales := Number.of_Z 250;
     Business.transactionCount := Number.of_Z 1 |}.

Definition demo_payment : Payment.t :=
  {| Payment.id := generatePaymentId demo_env;
     Payment.merchantId := 42;
     Payment.amount := Some (Number.of_Z 250);
     Payment.description := JSString.lit "Coffee order";
     Payment.status := completed;
     Payment.createdAt := 1700000000000;
     Payment.expiresAt := 1700086400000;
     Payment.transactionRef := Some (Value.Str (JSString.lit "TST2001"));
     Payment.completedAt := Some 1700000000000%Z;
     Payment.failureReason := None |}.

(** The moves of a session from one step to the next that the message
    handler makes. *)
Definition moves (s s' : Step) : bool :=
  match s, s' with
  | _, register_name => true
  | register_name, register_phone => true
  | register_phone, main => true
  | (start | main | payment_amount | payment_description), payment_amount => true
  | payment_amount, payment_description => true
  | payment_description, main => true
  | _, _ => bool_decide (s = s')
  end.

(* ===================================================================== *)
(** * Regular expressions: the matcher decides the language *)
(* ===================================================================== *)

Section RegexFacts.

Import Regex.

Lemma matches_void_inv s : matches Void s -> False.
Proof. intros H. inversion H. Qed.

Lemma matches_eps_inv s : matches Eps s -> s = [].
Proof. intros H. inversion H. reflexivity. Qed.

Lemma matches_class_inv p s : matches (Class p) s -> exists c, s = [c] /\ p c = true.
Proof. intros H. inversion H. eauto. Qed.

Lemma matches_cat_inv r1 r2 s :
  matches (Cat r1 r2) s ->
  exists s1 s2, s = s1 ++ s2 /\ matches r1 s1 /\ matches r2 s2.
Proof. intros H. inversion H. eauto. Qed.

Lemma matches_alt_inv r1 r2 s : matches (Alt r1 r2) s -> matches r1 s \/ matches r2 s.
Proof. intros H. inversion H; auto. Qed.

Lemma matches_cons_cat c s1 s2 r1 r2 :
  matches r1 (c :: s1) -> matches r2 s2 -> matches (Cat r1 r2) (c :: s1 ++ s2).
Proof. intros H1 H2. apply (m_cat r1 r2 (c :: s1) s2 H1 H2). Qed.

Lemma nullable_matches r : nullable r = true <-> matches r [].
Proof.
  split.
  - induction r; simpl; intros H; try discriminate.
    + constructor.
    + apply andb_true_iff in H as [H1 H2].
      apply (m_cat r1 r2 [] []); auto.
    + apply orb_true_iff in H as [H | H]; [apply m_alt_l | apply m_alt_r]; auto.
    + constructor.
  - intros H. remember [] as s eqn:E. induction H; simpl; auto.
    + discriminate.
    + apply app_eq_nil in E as [-> ->]. rewrite IHmatches1, IHmatches2; auto.
    + rewrite IHmatches; auto.
    + rewrite IHmatches; auto using orb_true_r.
Qed.

Lemma deriv_sound c r s : matches (deriv c r) s -> matches r (c :: s).
Proof.
  revert s. induction r; simpl; intros s H.
  - destruct (matches_void_inv _ H).
  - destruct (matches_void_inv _ H).
  - destruct (p c) eqn:Hp.
    + apply matches_eps_inv in H as ->. constructor; auto.
    + destruct (matches_void_inv _ H).
  - destruct (nullable r1) eqn:Hn.
    + apply matches_alt_inv in H as [H | H].
      * apply matches_cat_inv in H as (s1 & s2 & -> & H1 & H2).
        apply matches_cons_cat; auto.
      * apply (m_cat r1 r2 [] (c :: s)); auto. apply nullable_matches; auto.
    + apply matches_cat_inv in H as (s1 & s2 & -> & H1 & H2).
      apply matches_cons_cat; auto.
  - apply matches_alt_inv in H as [H | H]; [apply m_alt_l | apply m_alt_r]; auto.
  - apply matches_cat_inv in H as (s1 & s2 & -> & H1 & H2).
    apply (m_star_cons r (c :: s1) s2); auto.
Qed.

Lemma deriv_complete c r s : matches r (c :: s) -> matches (deriv c r) s.
Proof.
  intros H. remember (c :: s) as cs eqn:E. revert c s E.
  induction H as [| p a Hp | r1 r2 s1 s2 H1 IH1 H2 IH2 | r1 r2 s1 H1 IH1
                  | r1 r2 s1 H1 IH1 | r | r s1 s2 H1 IH1 H2 IH2];
    intros c0 s0 E; simpl.
  - discriminate.
  - injection E as -> <-. rewrite Hp. constructor.
  - destruct s1 as [| a s1'].
    + simpl in E. subst s2.
      apply nullable_matches in H1. rewrite H1. apply m_alt_r. auto.
    + injection E as -> <-.
      destruct (nullable r1); [apply m_alt_l |]; constructor; auto.
  - apply m_alt_l; auto.
  - apply m_alt_r; auto.
  - discriminate.
  - destruct s1 as [| a s1'].
    + simpl in E. apply (IH2 c0 s0 E).
    + injection E as -> <-. constructor; auto.
Qed.

Lemma test_matches r s : test r s = true <-> matches r s.
Proof.
  revert r. induction s as [| c s IH]; intros r; simpl.
  - apply nullable_matches.
  - rewrite IH. split; [apply deriv_sound | apply deriv_complete].
Qed.

(** Repetitions of a character class. *)

Lemma matches_times_class p n s :
  matches (times (Class p) n) s <-> length s = n /\ forallb p s = true.
Proof.
  revert s. induction n as [| n IH]; intros s; simpl.
  - split.
    + intros H. apply matches_eps_inv in H as ->. auto.
    + intros [H _]. destruct s; [constructor | discriminate].
  - split.
    + intros H. apply matches_cat_inv in H as (s1 & s2 & -> & H1 & H2).
      apply matches_class_inv in H1 as (c & -> & Hc).
      apply IH in H2 as [Hl Hf]. simpl. rewrite Hc, Hf, Hl. auto.
    + intros [Hl Hf]. destruct s as [| c s]; [discriminate |].
      simpl in *. apply andb_true_iff in Hf as [Hc Hf].
      apply (m_cat (Class p) _ [c] s).
      * constructor; auto.
      * apply IH. split; [lia | auto].
Qed.

Lemma matches_upto_class p n s :
  matches (upto (Class p) n) s <-> (length s <= n)%nat /\ forallb p s = true.
Proof.
  revert s. induction n as [| n IH]; intros s; simpl.
  - split.
    + intros H. apply matches_eps_inv in H as ->. auto.
    + intros [H _]. destruct s; [constructor | simpl in H; lia].
  - unfold opt. split.
    + intros H. apply matches_alt_inv in H as [H | H].
      * apply matches_cat_inv in H as (s1 & s2 & -> & H1 & H2).
        apply matches_class_inv in H1 as (c & -> & Hc).
        apply IH in H2 as [Hl Hf]. simpl. rewrite Hc, Hf. split; [lia | auto].
      * apply matches_eps_inv in H as ->. simpl. split; [lia | auto].
    + intros [Hl Hf]. destruct s as [| c s].
      * apply m_alt_r. constructor.
      * simpl in *. apply andb_true_iff in Hf as [Hc Hf]. apply m_alt_l.
        apply (m_cat (Class p) _ [c] s).
        -- constructor; auto.
        -- apply IH. split; [lia | auto].
Qed.

Lemma matches_range_class p lo hi s :
  (lo <= hi)%nat ->
  matches (range (Class p) lo hi) s
  <-> (lo <= length s <= hi)%nat /\ forallb p s = true.
Proof.
  intros Hle. unfold range. split.
  - intros H. apply matches_cat_inv in H as (s1 & s2 & -> & H1 & H2).
    apply matches_times_class in H1 as [Hl1 Hf1].
    apply matches_upto_class in H2 as [Hl2 Hf2].
    rewrite length_app, forallb_app, Hf1, Hf2. split; [lia | auto].
  - intros [Hl Hf]. rewrite <- (firstn_skipn lo s) in Hf |- *.
    rewrite forallb_app in Hf. apply andb_true_iff in Hf as [Hf1 Hf2].
    constructor.
    + apply matches_times_class. split; [rewrite length_firstn; lia | auto].
    + apply matches_upto_class. split; [rewrite length_skipn; lia | auto].
Qed.

End RegexFacts.

(* ===================================================================== *)
(** * Phone validation *)
(* ===================================================================== *)

Section PhoneFacts.

Import Regex.

Lemma digit19_digit c :
  JSString.is_digit19 c = JSString.is_digit c && negb (c =? 48)%N.
Proof.
  unfold JSString.is_digit19, JSString.is_digit.
  destruct (N.leb_spec 49 c), (N.leb_spec 48 c), (N.leb_spec c 57),
    (N.eqb_spec c 48); simpl; try reflexivity; lia.
Qed.

Lemma digit_not_plus c : JSString.is_digit c = true -> c <> 43%N.
Proof.
  unfold JSString.is_digit. intros H ->. discriminate.
Qed.

(** The language of the pattern of [validatePhone]. *)
Lemma phoneRegex_format s : test phoneRegex s = spec_phone_format s.
Proof.
  apply eq_true_iff_eq. rewrite test_matches. unfold phoneRegex, spec_phone_format.
  split.
  - intros H. apply matches_cat_inv in H as (sp & s' & -> & Hp & H).
    apply matches_cat_inv in H as (sd & sr & -> & Hd & Hr).
    apply matches_class_inv in Hd as (d & -> & Hd).
    apply matches_range_class in Hr as [Hl Hf]; [| lia].
    rewrite digit19_digit in Hd. apply andb_true_iff in Hd as [Hd Hz].
    assert (Hds : (2 <=? length (d :: sr))%nat && (length (d :: sr) <=? 15)%nat
                  && forallb JSString.is_digit (d :: sr) && negb (d =? 48)%N = true).
    { simpl. rewrite Hd, Hf, Hz.
      destruct (length sr) as [| n] eqn:E; [lia |].
      repeat (apply andb_true_iff; split); auto; apply Nat.leb_le; lia. }
    apply matches_alt_inv in Hp as [Hp | Hp].
    + apply matches_class_inv in Hp as (c & -> & Hc).
      apply N.eqb_eq in Hc as <-. exact Hds.
    + apply matches_eps_inv in Hp as ->. cbn [app].
      destruct (N.eqb_spec d 43) as [-> | Hne]; [discriminate | exact Hds].
  - assert (Hbody : forall ds,
      (2 <=? length ds)%nat && (length ds <=? 15)%nat
      && forallb JSString.is_digit ds
      && match ds with d :: _ => negb (d =? 48)%N | [] => false end = true ->
      matches (Cat (Class JSString.is_digit19)
                   (range (Class JSString.is_digit) 1 14)) ds).
    { intros [| d ds] H; [rewrite andb_false_r in H; discriminate |].
      apply andb_true_iff in H as [H Hz]. apply andb_true_iff in H as [H Hf].
      apply andb_true_iff in H as [Hlo Hhi]. apply Nat.leb_le in Hlo, Hhi.
      cbn [length] in Hlo, Hhi. cbn [forallb] in Hf.
      apply andb_true_iff in Hf as [Hd Hf].
      apply (m_cat _ _ [d] ds).
      - constructor. rewrite digit19_digit, Hd. auto.
      - apply matches_range_class; [lia |]. split; [lia | auto]. }
    intros H. destruct s as [| c r].
    + apply (m_cat _ _ [] []); [apply m_alt_r; constructor | apply Hbody, H].
    + destruct (N.eqb_spec c 43) as [-> | Hne].
      * apply (m_cat _ _ [43%N] r).
        -- apply m_alt_l. constructor. reflexivity.
        -- apply Hbody, H.
      * apply (m_cat _ _ [] (c :: r)); [apply m_alt_r; constructor | apply Hbody, H].
Qed.

Lemma forallb_remove_spaces (P : N -> bool) s :
  forallb P (JSString.remove_spaces s) = true ->
  forallb (fun c => JSString.is_space c || P c) s = true.
Proof.
  unfold JSString.remove_spaces. induction s as [| c s IH]; simpl; auto.
  destruct (JSString.is_space c); simpl; auto.
  intros H. apply andb_true_iff in H as [-> H]. auto.
Qed.

Lemma forallb_weaken {A} (P Q : A -> bool) l :
  (forall x, P x = true -> Q x = true) ->
  forallb P l = true -> forallb Q l = true.
Proof.
  intros HPQ. induction l as [| x l IH]; simpl; auto.
  intros H. apply andb_true_iff in H as [Hx Hl]. rewrite (HPQ x Hx). auto.
Qed.

Lemma validatePhone_chars text :
  validatePhone text = true -> text <> [] /\ forallb phone_char text = true.
Proof.
  unfold validatePhone. rewrite phoneRegex_format. intros H. split.
  - intros ->. discriminate.
  - apply forallb_remove_spaces.
    unfold spec_phone_format in H.
    apply andb_true_iff in H as [H _]. apply andb_true_iff in H as [_ Hf].
    destruct (JSString.remove_spaces text) as [| c r]; [reflexivity |].
    destruct (N.eqb_spec c 43) as [-> | Hne].
    + cbn [forallb]. rewrite N.eqb_refl. cbn [orb andb].
      eapply forallb_weaken; [| exact Hf]. intros x ->. apply orb_true_r.
    + eapply forallb_weaken; [| exact Hf]. intros x ->. apply orb_true_r.
Qed.

End PhoneFacts.

(* ===================================================================== *)
(** * Numbers: the rounding of decimals to binary64 *)
(* ===================================================================== *)

Section NumberFacts.

Local Open Scope Z_scope.

Lemma of_Z_1 : Number.of_Z 1 = S754_finite false 4503599627370496 (-52).
Proof. reflexivity. Qed.

Lemma of_Z_50000 : Number.of_Z 50000 = S754_finite false 6871947673600000 (-37).
Proof. reflexivity. Qed.

(** ** The number of binary digits *)

Lemma digits2_pos_bounds p :
  2 ^ (Zpos (digits2_pos p) - 1) <= Zpos p < 2 ^ Zpos (digits2_pos p).
Proof.
  induction p as [p IH | p IH |]; cbn [digits2_pos].
  - rewrite Pos2Z.inj_succ, Z.pow_succ_r by lia.
    replace (Z.succ (Zpos (digits2_pos p)) - 1) with (Z.succ (Zpos (digits2_pos p) - 1)) by lia.
    rewrite Z.pow_succ_r by lia. lia.
  - rewrite Pos2Z.inj_succ, Z.pow_succ_r by lia.
    replace (Z.succ (Zpos (digits2_pos p)) - 1) with (Z.succ (Zpos (digits2_pos p) - 1)) by lia.
    rewrite Z.pow_succ_r by lia. lia.
  - simpl. lia.
Qed.

Lemma Zdigits2_bounds m :
  0 < m -> 2 ^ (Zdigits2 m - 1) <= m < 2 ^ Zdigits2 m.
Proof. destruct m as [| p | p]; try lia. intros _. apply digits2_pos_bounds. Qed.

Lemma Zdigits2_pos m : 0 < m -> 1 <= Zdigits2 m.
Proof. destruct m; cbn; lia. Qed.

Lemma Zdigits2_unique m d :
  2 ^ (d - 1) <= m < 2 ^ d -> 0 < m -> Zdigits2 m = d.
Proof.
  intros [Hlo Hhi] Hm. pose proof (Zdigits2_bounds m Hm) as [Hlo' Hhi'].
  destruct (Z.lt_trichotomy (Zdigits2 m) d) as [H | [H | H]]; [| exact H |].
  - assert (2 ^ Zdigits2 m <= 2 ^ (d - 1)) by (apply Z.pow_le_mono_r; lia). lia.
  - assert (2 ^ d <= 2 ^ (Zdigits2 m - 1)) by (apply Z.pow_le_mono_r; lia). lia.
Qed.

(** ** Shifts keep a fraction located *)

Lemma locates_floor a b mrs :
  0 < b -> locates a b mrs -> shr_m mrs * b <= a < (shr_m mrs + 1) * b.
Proof.
  intros Hb. unfold locates. destruct (shr_r mrs), (shr_s mrs); nia.
Qed.

Lemma shr_1_locates a b mrs :
  0 < b -> 0 <= shr_m mrs -> locates a b mrs -> locates a (2 * b) (shr_1 mrs).
Proof.
  intros Hb Hm. destruct mrs as [m r s]. unfold locates. cbn [shr_m shr_r shr_s] in *.
  destruct m as [| [p | p |] | p]; try lia; cbn [shr_1 shr_m shr_r shr_s];
    destruct r, s; cbn [orb]; try rewrite Pos2Z.inj_xI; try rewrite Pos2Z.inj_xO; nia.
Qed.

Lemma shr_1_m mrs : 0 <= shr_m mrs -> shr_m (shr_1 mrs) = shr_m mrs / 2.
Proof.
  destruct mrs as [m r s]. cbn [shr_m]. intros Hm.
  destruct m as [| [q | q |] | q]; cbn [shr_1 shr_m].
  - reflexivity.
  - rewrite Pos2Z.inj_xI. apply Z.div_unique with 1; lia.
  - rewrite Pos2Z.inj_xO. apply Z.div_unique with 0; lia.
  - reflexivity.
  - lia.
Qed.

Lemma pow2_xI k : 2 ^ Zpos k~1 = 2 * (2 ^ Zpos k * 2 ^ Zpos k).
Proof.
  rewrite Pos2Z.inj_xI. replace (2 * Zpos k + 1) with (1 + (Zpos k + Zpos k)) by lia.
  rewrite !Z.pow_add_r by lia. reflexivity.
Qed.

Lemma pow2_xO k : 2 ^ Zpos k~0 = 2 ^ Zpos k * 2 ^ Zpos k.
Proof.
  rewrite (Pos2Z.inj_xO k). replace (2 * Zpos k) with (Zpos k + Zpos k) by lia.
  rewrite !Z.pow_add_r by lia. reflexivity.
Qed.

(** [k] shifts divide the significand by [2 ^ k] and keep the fraction
    located. *)
Lemma iter_shr_1 k a b mrs :
  0 < b -> 0 <= shr_m mrs -> locates a b mrs ->
  shr_m (SpecFloat.iter_pos shr_1 k mrs) = shr_m mrs / 2 ^ Zpos k
  /\ locates a (b * 2 ^ Zpos k) (SpecFloat.iter_pos shr_1 k mrs).
Proof.
  revert b mrs. induction k as [k IH | k IH |]; intros b mrs Hb Hm Hl;
    cbn [SpecFloat.iter_pos].
  - assert (Hk : 0 < 2 ^ Zpos k) by (apply Z.pow_pos_nonneg; lia).
    assert (H1 : 0 <= shr_m (shr_1 mrs)) by (rewrite shr_1_m by lia; apply Z.div_pos; lia).
    destruct (IH (2 * b) (shr_1 mrs) ltac:(lia) H1 (shr_1_locates a b mrs Hb Hm Hl))
      as [Hm1 Hl1].
    assert (H2 : 0 <= shr_m (SpecFloat.iter_pos shr_1 k (shr_1 mrs)))
      by (rewrite Hm1; apply Z.div_pos; lia).
    destruct (IH (2 * b * 2 ^ Zpos k) _ ltac:(lia) H2 Hl1) as [Hm2 Hl2].
    split.
    + rewrite Hm2, Hm1, (shr_1_m _ Hm), !Z.div_div, pow2_xI by lia. f_equal; ring.
    + rewrite pow2_xI.
      replace (b * (2 * (2 ^ Zpos k * 2 ^ Zpos k))) with (2 * b * 2 ^ Zpos k * 2 ^ Zpos k) by ring.
      exact Hl2.
  - assert (Hk : 0 < 2 ^ Zpos k) by (apply Z.pow_pos_nonneg; lia).
    destruct (IH b mrs Hb Hm Hl) as [Hm1 Hl1].
    assert (H2 : 0 <= shr_m (SpecFloat.iter_pos shr_1 k mrs))
      by (rewrite Hm1; apply Z.div_pos; lia).
    destruct (IH (b * 2 ^ Zpos k) _ ltac:(lia) H2 Hl1) as [Hm2 Hl2].
    split.
    + rewrite Hm2, Hm1, !Z.div_div, pow2_xO by lia. reflexivity.
    + rewrite pow2_xO.
      replace (b * (2 ^ Zpos k * 2 ^ Zpos k)) with (b * 2 ^ Zpos k * 2 ^ Zpos k) by ring.
      exact Hl2.
  - split.
    + rewrite shr_1_m by lia. reflexivity.
    + change (2 ^ 1) with 2. replace (b * 2) with (2 * b) by ring.
      apply shr_1_locates; assumption.
Qed.

(** [shr] by [n] places, when [n] is not negative. *)
Lemma shr_spec mrs e n a b :
  0 < b -> 0 <= shr_m mrs -> 0 <= n -> locates a b mrs ->
  let '(mrs', e') := shr mrs e n in
  e' = e + n
  /\ shr_m mrs' = shr_m mrs / 2 ^ n
  /\ locates a (b * 2 ^ n) mrs'.
Proof.
  intros Hb Hm Hn Hl. unfold shr. destruct n as [| k | k]; try lia.
  - rewrite Z.add_0_r, Z.pow_0_r, Z.div_1_r, Z.mul_1_r. auto.
  - destruct (iter_shr_1 k a b mrs Hb Hm Hl) as [H1 H2]. auto.
Qed.

Lemma shr_record_of_loc_m m l : shr_m (shr_record_of_loc m l) = m.
Proof. destruct l as [| []]; reflexivity. Qed.

Lemma loc_of_shr_record_of_loc m l : loc_of_shr_record (shr_record_of_loc m l) = l.
Proof. destruct l as [| []]; reflexivity. Qed.

(** The location that the division computes. *)
Lemma new_location_locates a b :
  0 <= a -> 0 < b ->
  locates a b (shr_record_of_loc (a / b) (new_location b (a mod b))).
Proof.
  intros Ha Hb.
  pose proof (Z.div_mod a b ltac:(lia)) as Hdiv.
  pose proof (Z.mod_pos_bound a b Hb) as Hmod.
  generalize dependent (a / b). generalize dependent (a mod b). intros r Hmod q Hdiv.
  unfold new_location, new_location_even, new_location_odd.
  destruct (Z.even b) eqn:Heven.
  - destruct (Z.eqb_spec r 0) as [Hr | Hr].
    + unfold locates. cbn [shr_record_of_loc shr_m shr_r shr_s]. nia.
    + destruct (Z.compare_spec (2 * r) b); unfold locates;
        cbn [shr_record_of_loc shr_m shr_r shr_s]; nia.
  - destruct (Z.eqb_spec r 0) as [Hr | Hr].
    + unfold locates. cbn [shr_record_of_loc shr_m shr_r shr_s]. nia.
    + assert (Hodd : 2 * r <> b).
      { intros E. rewrite <- E, Z.even_mul in Heven. discriminate. }
      destruct (Z.compare_spec (2 * r + 1) b); unfold locates;
        cbn [shr_record_of_loc shr_m shr_r shr_s]; nia.
Qed.

Lemma round_nearest_even_rne a b mrs :
  0 < b -> locates a b mrs ->
  round_nearest_even (shr_m mrs) (loc_of_shr_record mrs) = rne a b (shr_m mrs).
Proof.
  intros Hb. unfold locates, rne. destruct mrs as [m r s]. cbn [shr_m shr_r shr_s].
  destruct r, s; cbn [loc_of_shr_record round_nearest_even]; intros H;
    destruct (Z.compare_spec (2 * a) ((2 * m + 1) * b)); try reflexivity; nia.
Qed.

Lemma rne_bounds a b m : m <= rne a b m <= m + 1.
Proof. unfold rne. destruct (_ ?= _); try destruct (Z.even m); lia. Qed.

Lemma round_nearest_even_bounds m l :
  m <= round_nearest_even m l <= m + 1.
Proof. destruct l as [| []]; cbn; try destruct (Z.even m); lia. Qed.

Lemma locates_exists mrs : exists a b, 0 < b /\ locates a b mrs.
Proof.
  destruct mrs as [m [] []]; unfold locates; cbn [shr_m shr_r shr_s].
  - exists (4 * m + 3), 4. lia.
  - exists (2 * m + 1), 2. lia.
  - exists (4 * m + 1), 4. lia.
  - exists m, 1. lia.
Qed.

(** ** The two shifts of [binary_round_aux] *)

Lemma fexp_eq e : fexp 53 1024 e = Z.max (e - 53) (-1074).
Proof. reflexivity. Qed.

Lemma Zdigits2_le m d : 0 <= m -> 0 <= d -> m < 2 ^ d -> Zdigits2 m <= d.
Proof.
  intros Hm Hd Hlt. destruct (Z.eq_dec m 0) as [-> | Hne]; [cbn; lia |].
  pose proof (Zdigits2_bounds m ltac:(lia)) as [Hlo _].
  destruct (Z.le_gt_cases (Zdigits2 m) d) as [H | H]; [exact H |].
  assert (2 ^ d <= 2 ^ (Zdigits2 m - 1)) by (apply Z.pow_le_mono_r; lia). lia.
Qed.

(** The second shift of [binary_round_aux], after the rounding of a
    significand of 53 bits. *)
Lemma shr_fexp_carry m E :
  2 ^ 52 <= m <= 2 ^ 53 -> -1074 <= E ->
  let '(mrs, e) := shr_fexp 53 1024 m E loc_Exact in
  (shr_m mrs, e) = if m =? 2 ^ 53 then (2 ^ 52, E + 1) else (m, E).
Proof.
  intros Hm HE. unfold shr_fexp. rewrite fexp_eq.
  destruct (Z.eqb_spec m (2 ^ 53)) as [-> | Hne].
  - change (Zdigits2 (2 ^ 53)) with 54.
    replace (Z.max (54 + E - 53) (-1074) - E) with 1 by lia. reflexivity.
  - assert (Hd : Zdigits2 m = 53) by (apply Zdigits2_unique; lia).
    rewrite Hd. replace (Z.max (53 + E - 53) (-1074) - E) with 0 by lia.
    cbn [shr shr_record_of_loc shr_m]. reflexivity.
Qed.

(** The rounding of a fraction whose integer part, at the exponent of
    its format, has 53 bits. *)
Lemma round_normal sx q e l a b E :
  0 < b -> 0 < q -> locates a b (shr_record_of_loc q l) ->
  E = Zdigits2 q + e - 53 -> e <= E -> -1074 <= E ->
  let b1 := b * 2 ^ (E - e) in
  let m1 := q / 2 ^ (E - e) in
  let m2 := rne a b1 m1 in
  2 ^ 52 <= m1 < 2 ^ 53
  /\ m1 * b1 <= a < (m1 + 1) * b1
  /\ binary_round_aux 53 1024 sx q e l
     = if m2 =? 2 ^ 53 then finish sx (2 ^ 52) (E + 1) else finish sx m2 E.
Proof.
  intros Hb Hq Hl HE He HE' b1 m1 m2.
  pose proof (Zdigits2_bounds q Hq) as [Hlo Hhi].
  assert (Hn : 0 < 2 ^ (E - e)) by (apply Z.pow_pos_nonneg; lia).
  assert (Hm1 : 2 ^ 52 <= m1 < 2 ^ 53).
  { unfold m1. split.
    - apply Z.div_le_lower_bound; [lia |].
      rewrite <- Z.pow_add_r by lia. replace (E - e + 52) with (Zdigits2 q - 1) by lia. lia.
    - apply Z.div_lt_upper_bound; [lia |].
      rewrite <- Z.pow_add_r by lia. replace (E - e + 53) with (Zdigits2 q) by lia. lia. }
  pose proof (shr_spec (shr_record_of_loc q l) e (E - e) a b Hb
                ltac:(rewrite shr_record_of_loc_m; lia) ltac:(lia) Hl) as Hshr.
  unfold binary_round_aux, shr_fexp at 1. rewrite fexp_eq.
  replace (Z.max (Zdigits2 q + e - 53) (-1074) - e) with (E - e) by lia.
  destruct (shr (shr_record_of_loc q l) e (E - e)) as [mrs1 e1].
  destruct Hshr as (He1 & Hm & Hloc). rewrite shr_record_of_loc_m in Hm.
  fold b1 in Hloc. fold m1 in Hm.
  assert (Hb1 : 0 < b1) by (unfold b1; lia).
  split; [exact Hm1 |]. split.
  { rewrite <- Hm. apply locates_floor; assumption. }
  rewrite (round_nearest_even_rne a b1 mrs1 Hb1 Hloc), Hm. fold m2.
  replace e1 with E by lia.
  pose proof (rne_bounds a b1 m1) as Hr. fold m2 in Hr.
  pose proof (shr_fexp_carry m2 E ltac:(lia) HE') as Hc.
  destruct (shr_fexp 53 1024 m2 E loc_Exact) as [mrs2 e2].
  destruct (m2 =? 2 ^ 53); injection Hc as -> ->; reflexivity.
Qed.

(** The rounding of a fraction below the normal numbers. *)
Lemma round_subnormal sx q e l :
  0 <= q -> e <= -1074 -> Zdigits2 q + e <= -1022 ->
  exists m, 0 <= m /\ binary_round_aux 53 1024 sx q e l = finish sx m (-1074).
Proof.
  intros Hq He Hd.
  destruct (locates_exists (shr_record_of_loc q l)) as (a & b & Hb & Hl).
  pose proof (shr_spec (shr_record_of_loc q l) e (-1074 - e) a b Hb
                ltac:(rewrite shr_record_of_loc_m; lia) ltac:(lia) Hl) as Hshr.
  unfold binary_round_aux, shr_fexp at 1. rewrite fexp_eq.
  replace (Z.max (Zdigits2 q + e - 53) (-1074) - e) with (-1074 - e) by lia.
  destruct (shr (shr_record_of_loc q l) e (-1074 - e)) as [mrs1 e1].
  destruct Hshr as (He1 & Hm & _). rewrite shr_record_of_loc_m in Hm.
  replace e1 with (-1074) by lia.
  assert (Hn : 0 < 2 ^ (-1074 - e)) by (apply Z.pow_pos_nonneg; lia).
  assert (Hm1 : 0 <= shr_m mrs1 < 2 ^ 52).
  { rewrite Hm. split; [apply Z.div_pos; lia |].
    apply Z.div_lt_upper_bound; [lia |].
    rewrite <- Z.pow_add_r by lia.
    destruct (Z.eq_dec q 0) as [-> | Hne]; [apply Z.pow_pos_nonneg; lia |].
    pose proof (Zdigits2_bounds q ltac:(lia)) as [_ Hhi].
    assert (2 ^ Zdigits2 q <= 2 ^ (-1074 - e + 52)) by (apply Z.pow_le_mono_r; lia).
    lia. }
  pose proof (round_nearest_even_bounds (shr_m mrs1) (loc_of_shr_record mrs1)) as Hr.
  set (m2 := round_nearest_even (shr_m mrs1) (loc_of_shr_record mrs1)) in *.
  assert (Hd2 : Zdigits2 m2 <= 53) by (apply Zdigits2_le; lia).
  unfold shr_fexp. rewrite fexp_eq.
  replace (Z.max (Zdigits2 m2 + -1074 - 53) (-1074) - -1074) with 0 by lia.
  cbn [shr]. rewrite shr_record_of_loc_m. exists m2. split; [lia | reflexivity].
Qed.

(** ** Comparisons with 1 and with 50000 *)

Lemma SFleb_finite m1 e1 m2 e2 :
  SFleb (S754_finite false m1 e1) (S754_finite false m2 e2)
  = (e1 <? e2) || ((e1 =? e2) && (Zpos m1 <=? Zpos m2)).
Proof.
  unfold SFleb, SFcompare.
  change (Pos.compare_cont Eq m1 m2) with (Zpos m1 ?= Zpos m2).
  destruct (Z.compare_spec e1 e2) as [H | H | H].
  - subst e2. rewrite Z.ltb_irrefl, Z.eqb_refl. cbn [orb andb].
    unfold Z.leb. destruct (Zpos m1 ?= Zpos m2); reflexivity.
  - replace (e1 <? e2) with true by (symmetry; apply Z.ltb_lt; lia). reflexivity.
  - replace (e1 <? e2) with false by (symmetry; apply Z.ltb_ge; lia).
    replace (e1 =? e2) with false by (symmetry; apply Z.eqb_neq; lia). reflexivity.
Qed.

Lemma ge_one_finish m E :
  0 <= m ->
  SFleb (Number.of_Z 1) (finish false m E)
  = (0 <? m) && ((-52 <? E) || ((E =? -52) && (4503599627370496 <=? m))).
Proof.
  intros Hm. destruct m as [| p | p]; [reflexivity | | lia].
  cbn [finish]. replace (0 <? Zpos p) with true by reflexivity.
  cbn [andb]. destruct (Z.leb_spec E (1024 - 53)) as [HE | HE].
  - rewrite of_Z_1. rewrite SFleb_finite. rewrite (Z.eqb_sym E). reflexivity.
  - replace (-52 <? E) with true by (symmetry; apply Z.ltb_lt; lia). reflexivity.
Qed.

Lemma le_fifty_thousand_finish m E :
  0 <= m ->
  SFleb (finish false m E) (Number.of_Z 50000)
  = (m =? 0) || ((E <? -37) || ((E =? -37) && (m <=? 6871947673600000))).
Proof.
  intros Hm. destruct m as [| p | p]; [reflexivity | | lia].
  cbn [finish]. change (Zpos p =? 0) with false. cbn [orb].
  destruct (Z.leb_spec E (1024 - 53)) as [HE | HE].
  - rewrite of_Z_50000. rewrite SFleb_finite. reflexivity.
  - replace (E <? -37) with false by (symmetry; apply Z.ltb_ge; lia).
    replace (E =? -37) with false by (symmetry; apply Z.eqb_neq; lia). reflexivity.
Qed.

Lemma subnormal_small q e a b :
  0 < b -> 0 <= q -> a < (q + 1) * b -> Zdigits2 q + e <= -1022 ->
  4 * a < b * 2 ^ (- e).
Proof.
  intros Hb Hq Ha Hd.
  assert (Hdq : 0 <= Zdigits2 q).
  { destruct (Z.eq_dec q 0) as [-> | Hne]; [cbn; lia |].
    pose proof (Zdigits2_pos q ltac:(lia)). lia. }
  assert (Hq1 : q + 1 <= 2 ^ Zdigits2 q).
  { destruct (Z.eq_dec q 0) as [-> | Hne]; [cbn; lia |].
    pose proof (Zdigits2_bounds q ltac:(lia)). lia. }
  assert (Hle : 2 ^ Zdigits2 q <= 2 ^ (- e - 2)) by (apply Z.pow_le_mono_r; lia).
  replace (- e) with (2 + (- e - 2)) by ring.
  rewrite Z.pow_add_r by lia. change (2 ^ 2) with 4.
  assert (Hmul : (q + 1) * b <= 2 ^ (- e - 2) * b)
    by (apply Z.mul_le_mono_nonneg_r; lia).
  lia.
Qed.

Lemma scale_down b e E :
  e <= E -> E <= 0 -> b * 2 ^ (- e) = b * 2 ^ (E - e) * 2 ^ (- E).
Proof.
  intros He HE. rewrite <- Z.mul_assoc, <- Z.pow_add_r by lia.
  do 2 f_equal. ring.
Qed.

Lemma scale_up b e E c :
  e <= E -> e <= 0 -> 0 <= c -> 0 <= E + c ->
  b * 2 ^ (E - e) * 2 ^ c = b * 2 ^ (- e) * 2 ^ (E + c).
Proof.
  intros He He0 Hc HE. rewrite <- !Z.mul_assoc, <- !Z.pow_add_r by lia.
  do 2 f_equal. ring.
Qed.

Lemma normal_positive q e :
  0 <= q -> e <= Z.max (Zdigits2 q + e - 53) (-1074) -> -1022 < Zdigits2 q + e -> 0 < q.
Proof.
  intros Hq He Hd. destruct (Z.eq_dec q 0) as [-> | Hne]; [| lia].
  cbn in He, Hd. lia.
Qed.

(** The number that [binary_round_aux] returns for the fraction
    [a / b * 2 ^ e] is at least 1 exactly when the fraction is at least
    [1 - 2 ^ -54]. *)
Lemma round_ge_one q e l a b :
  0 < b -> 0 <= q -> locates a b (shr_record_of_loc q l) ->
  e <= 0 -> e <= Z.max (Zdigits2 q + e - 53) (-1074) ->
  SFleb (Number.of_Z 1) (binary_round_aux 53 1024 false q e l)
  = ((2 ^ 54 - 1) * (b * 2 ^ (- e)) <=? 2 ^ 54 * a).
Proof.
  intros Hb Hq Hl He0 He.
  assert (HP : 0 < 2 ^ (- e)) by (apply Z.pow_pos_nonneg; lia).
  assert (HbP : 0 < b * 2 ^ (- e)) by lia.
  destruct (Z.le_gt_cases (Zdigits2 q + e) (-1022)) as [Hd | Hd].
  - destruct (round_subnormal false q e l Hq ltac:(lia) Hd) as (m & Hm & ->).
    rewrite ge_one_finish by exact Hm.
    change (-52 <? -1074) with false. change (-1074 =? -52) with false.
    cbn [orb andb]. rewrite andb_false_r. symmetry. apply Z.leb_gt.
    pose proof (locates_floor a b _ Hb Hl) as Hfl. rewrite shr_record_of_loc_m in Hfl.
    pose proof (subnormal_small q e a b Hb Hq ltac:(lia) Hd) as Hs.
    change (2 ^ 54) with 18014398509481984. lia.
  - pose proof (normal_positive q e Hq He ltac:(lia)) as Hq0.
    set (E := Zdigits2 q + e - 53).
    assert (HeE : e <= E) by lia.
    destruct (round_normal false q e l a b E Hb Hq0 Hl eq_refl HeE ltac:(lia))
      as (Hm1 & Hfl & ->).
    set (b1 := b * 2 ^ (E - e)) in *. set (m1 := q / 2 ^ (E - e)) in *.
    set (m2 := rne a b1 m1).
    assert (Hb1 : 0 < b1).
    { unfold b1. apply Z.mul_pos_pos; [lia | apply Z.pow_pos_nonneg; lia]. }
    pose proof (rne_bounds a b1 m1) as Hr. fold m2 in Hr.
    change (2 ^ 52) with 4503599627370496 in *.
    change (2 ^ 53) with 9007199254740992 in *.
    change (2 ^ 54) with 18014398509481984.
    assert (Hres : (if m2 =? 9007199254740992
                    then SFleb (Number.of_Z 1) (finish false 4503599627370496 (E + 1))
                    else SFleb (Number.of_Z 1) (finish false m2 E))
                   = if E <? -53 then false
                     else if E =? -53 then m2 =? 9007199254740992 else true).
    { rewrite !ge_one_finish by lia.
      destruct (Z.eqb_spec m2 9007199254740992) as [H2 | H2];
        destruct (Z.ltb_spec E (-53)); destruct (Z.eqb_spec E (-53)); try lia.
      all: repeat match goal with
           | |- context [?x <? ?y] =>
               first [replace (x <? y) with true by (symmetry; apply Z.ltb_lt; lia)
                     | replace (x <? y) with false by (symmetry; apply Z.ltb_ge; lia)]
           | |- context [?x =? ?y] =>
               first [replace (x =? y) with true by (symmetry; apply Z.eqb_eq; lia)
                     | replace (x =? y) with false by (symmetry; apply Z.eqb_neq; lia)]
           | |- context [?x <=? ?y] =>
               first [replace (x <=? y) with true by (symmetry; apply Z.leb_le; lia)
                     | replace (x <=? y) with false by (symmetry; apply Z.leb_gt; lia)]
           end; reflexivity. }
    match goal with
    | |- SFleb (Number.of_Z 1) (if ?c then ?A else ?B) = _ =>
        replace (SFleb (Number.of_Z 1) (if c then A else B))
          with (if c then SFleb (Number.of_Z 1) A else SFleb (Number.of_Z 1) B) by (destruct c; reflexivity)
    end.
    rewrite Hres. clear Hres.
    destruct (Z.ltb_spec E (-53)) as [HE | HE].
    { symmetry. apply Z.leb_gt. rewrite (scale_down b e E HeE ltac:(lia)). fold b1.
      replace (- E) with (54 + (- E - 54)) by ring. rewrite Z.pow_add_r by lia.
      change (2 ^ 54) with 18014398509481984.
      assert (HW : 1 <= 2 ^ (- E - 54)) by (apply (Z.pow_le_mono_r 2 0); lia).
      generalize dependent (2 ^ (- E - 54)). intros W HW. nia. }
    destruct (Z.eqb_spec E (-53)) as [HE' | HE'].
    { rewrite (scale_down b e E HeE ltac:(lia)). fold b1. rewrite HE'.
      change (2 ^ (- -53)) with 9007199254740992.
      unfold m2, rne in *.
      destruct (Z.compare_spec (2 * a) ((2 * m1 + 1) * b1)) as [Hc | Hc | Hc];
        [destruct (Z.even m1) eqn:Hev | |].
      - transitivity false; [apply Z.eqb_neq; lia | symmetry; apply Z.leb_gt].
        assert (m1 <> 9007199254740991) by (intros ->; discriminate Hev). nia.
      - destruct (Z.eqb_spec (m1 + 1) 9007199254740992) as [H1 | H1];
          symmetry; [apply Z.leb_le | apply Z.leb_gt]; nia.
      - transitivity false; [apply Z.eqb_neq; lia | symmetry; apply Z.leb_gt]. nia.
      - destruct (Z.eqb_spec (m1 + 1) 9007199254740992) as [H1 | H1];
          symmetry; [apply Z.leb_le | apply Z.leb_gt]; nia. }
    symmetry. apply Z.leb_le.
    destruct (Z.eq_dec E (-52)) as [HE2 | HE2].
    { rewrite (scale_down b e E HeE ltac:(lia)). fold b1. rewrite HE2.
      change (2 ^ (- -52)) with 4503599627370496. nia. }
    pose proof (scale_up b e E 51 HeE He0 ltac:(lia) ltac:(lia)) as Hs. fold b1 in Hs.
    change (2 ^ 51) with 2251799813685248 in Hs.
    assert (HW : 1 <= 2 ^ (E + 51)) by (apply (Z.pow_le_mono_r 2 0); lia).
    generalize dependent (2 ^ (E + 51)). intros W Hs HW.
    generalize dependent (b * 2 ^ (- e)). intros bP HbP Hs. nia.
Qed.

(** It is at most 50000 exactly when the fraction is at most
    [50000 + 2 ^ -38]. *)
Lemma round_le_fifty_thousand q e l a b :
  0 < b -> 0 <= q -> locates a b (shr_record_of_loc q l) ->
  e <= 0 -> e <= Z.max (Zdigits2 q + e - 53) (-1074) ->
  SFleb (binary_round_aux 53 1024 false q e l) (Number.of_Z 50000)
  = (2 ^ 38 * a <=? (50000 * 2 ^ 38 + 1) * (b * 2 ^ (- e))).
Proof.
  intros Hb Hq Hl He0 He.
  assert (HP : 0 < 2 ^ (- e)) by (apply Z.pow_pos_nonneg; lia).
  assert (HbP : 0 < b * 2 ^ (- e)) by lia.
  change (50000 * 2 ^ 38 + 1) with 13743895347200001.
  change (2 ^ 38) with 274877906944.
  destruct (Z.le_gt_cases (Zdigits2 q + e) (-1022)) as [Hd | Hd].
  - destruct (round_subnormal false q e l Hq ltac:(lia) Hd) as (m & Hm & ->).
    rewrite le_fifty_thousand_finish by exact Hm.
    change (-1074 <? -37) with true. cbn [orb]. rewrite orb_true_r.
    symmetry. apply Z.leb_le.
    pose proof (locates_floor a b _ Hb Hl) as Hfl. rewrite shr_record_of_loc_m in Hfl.
    pose proof (subnormal_small q e a b Hb Hq ltac:(lia) Hd) as Hs. lia.
  - pose proof (normal_positive q e Hq He ltac:(lia)) as Hq0.
    set (E := Zdigits2 q + e - 53).
    assert (HeE : e <= E) by lia.
    destruct (round_normal false q e l a b E Hb Hq0 Hl eq_refl HeE ltac:(lia))
      as (Hm1 & Hfl & ->).
    set (b1 := b * 2 ^ (E - e)) in *. set (m1 := q / 2 ^ (E - e)) in *.
    set (m2 := rne a b1 m1).
    assert (Hb1 : 0 < b1).
    { unfold b1. apply Z.mul_pos_pos; [lia | apply Z.pow_pos_nonneg; lia]. }
    pose proof (rne_bounds a b1 m1) as Hr. fold m2 in Hr.
    change (2 ^ 52) with 4503599627370496 in *.
    change (2 ^ 53) with 9007199254740992 in *.
    assert (Hres : (if m2 =? 9007199254740992
                    then SFleb (finish false 4503599627370496 (E + 1)) (Number.of_Z 50000)
                    else SFleb (finish false m2 E) (Number.of_Z 50000))
                   = if E <? -37 then true
                     else if E =? -37 then m2 <=? 6871947673600000 else false).
    { rewrite !le_fifty_thousand_finish by lia.
      destruct (Z.eqb_spec m2 9007199254740992) as [H2 | H2];
        destruct (Z.ltb_spec E (-37)); destruct (Z.eqb_spec E (-37)); try lia.
      all: repeat match goal with
           | |- context [?x <? ?y] =>
               first [replace (x <? y) with true by (symmetry; apply Z.ltb_lt; lia)
                     | replace (x <? y) with false by (symmetry; apply Z.ltb_ge; lia)]
           | |- context [?x =? ?y] =>
               first [replace (x =? y) with true by (symmetry; apply Z.eqb_eq; lia)
                     | replace (x =? y) with false by (symmetry; apply Z.eqb_neq; lia)]
           | |- context [?x <=? ?y] =>
               first [replace (x <=? y) with true by (symmetry; apply Z.leb_le; lia)
                     | replace (x <=? y) with false by (symmetry; apply Z.leb_gt; lia)]
           end; reflexivity. }
    match goal with
    | |- SFleb (if ?c then ?A else ?B) ?y = _ =>
        replace (SFleb (if c then A else B) y)
          with (if c then SFleb A y else SFleb B y) by (destruct c; reflexivity)
    end.
    rewrite Hres. clear Hres.
    destruct (Z.ltb_spec E (-37)) as [HE | HE].
    { symmetry. apply Z.leb_le. rewrite (scale_down b e E HeE ltac:(lia)). fold b1.
      replace (- E) with (38 + (- E - 38)) by ring. rewrite Z.pow_add_r by lia.
      change (2 ^ 38) with 274877906944.
      assert (HW : 1 <= 2 ^ (- E - 38)) by (apply (Z.pow_le_mono_r 2 0); lia).
      generalize dependent (2 ^ (- E - 38)). intros W HW. nia. }
    destruct (Z.eqb_spec E (-37)) as [HE' | HE'].
    { rewrite (scale_down b e E HeE ltac:(lia)). fold b1. rewrite HE'.
      change (2 ^ (- -37)) with 137438953472.
      unfold m2, rne in *.
      destruct (Z.compare_spec (2 * a) ((2 * m1 + 1) * b1)) as [Hc | Hc | Hc];
        [destruct (Z.even m1) eqn:Hev | |].
      - destruct (Z.leb_spec m1 6871947673600000) as [H1 | H1];
          symmetry; [apply Z.leb_le | apply Z.leb_gt]; nia.
      - assert (m1 <> 6871947673600000) by (intros ->; discriminate Hev).
        destruct (Z.leb_spec (m1 + 1) 6871947673600000) as [H1 | H1];
          symmetry; [apply Z.leb_le | apply Z.leb_gt]; nia.
      - destruct (Z.leb_spec m1 6871947673600000) as [H1 | H1];
          symmetry; [apply Z.leb_le | apply Z.leb_gt]; nia.
      - destruct (Z.leb_spec (m1 + 1) 6871947673600000) as [H1 | H1];
          symmetry; [apply Z.leb_le | apply Z.leb_gt]; nia. }
    symmetry. apply Z.leb_gt.
    pose proof (scale_up b e E 36 HeE He0 ltac:(lia) ltac:(lia)) as Hs. fold b1 in Hs.
    change (2 ^ 36) with 68719476736 in Hs.
    assert (HW : 1 <= 2 ^ (E + 36)) by (apply (Z.pow_le_mono_r 2 0); lia).
    generalize dependent (2 ^ (E + 36)). intros W Hs HW.
    generalize dependent (b * 2 ^ (- e)). intros bP HbP Hs. nia.
Qed.

(** ** Integers and quotients of integers *)

Lemma digits2_pos_iter_xO p k :
  digits2_pos (Pos.iter xO p k) = (digits2_pos p + k)%positive.
Proof.
  induction k as [| k IH] using Pos.peano_ind.
  - simpl. lia.
  - rewrite Pos.iter_succ. cbn [digits2_pos]. rewrite IH. lia.
Qed.

Lemma Zpos_iter_xO p k : Zpos (Pos.iter xO p k) = Zpos p * 2 ^ Zpos k.
Proof.
  induction k as [| k IH] using Pos.peano_ind.
  - simpl. lia.
  - rewrite Pos.iter_succ, Pos2Z.inj_xO, IH, Pos2Z.inj_succ, Z.pow_succ_r by lia. lia.
Qed.

(** The alignment that [binary_round] makes of an integer. *)
Lemma binary_round_integer sx p :
  exists mz ez,
    binary_round 53 1024 sx p 0 = binary_round_aux 53 1024 sx (Zpos mz) ez loc_Exact
    /\ ez <= 0
    /\ Zpos mz = Zpos p * 2 ^ (- ez)
    /\ ez <= Z.max (Zdigits2 (Zpos mz) + ez - 53) (-1074).
Proof.
  unfold binary_round, shl_align. rewrite fexp_eq.
  pose proof (digits2_pos_bounds p) as [Hlo _].
  set (d := Zpos (digits2_pos p)) in *.
  assert (Hd : 1 <= d) by (unfold d; lia).
  replace (Z.max (d + 0 - 53) (-1074) - 0) with (d - 53) by lia.
  destruct (d - 53) as [| k | k] eqn:E.
  - exists p, 0. split; [reflexivity |]. cbn [Zdigits2]. fold d.
    change (2 ^ (- 0)) with 1. lia.
  - exists p, 0. split; [reflexivity |]. cbn [Zdigits2]. fold d.
    change (2 ^ (- 0)) with 1. lia.
  - exists (Pos.iter xO p k), (Z.max (d + 0 - 53) (-1074)). split; [reflexivity |].
    replace (Z.max (d + 0 - 53) (-1074)) with (Zneg k) by lia.
    cbn [Zdigits2]. rewrite digits2_pos_iter_xO, Zpos_iter_xO. fold d.
    change (- Zneg k) with (Zpos k). rewrite Pos2Z.inj_add. fold d. lia.
Qed.

(** The quotient that [SFdiv_core_binary] makes of two integers. *)
Lemma div_core_integers M D :
  let '(q, e, l) := SFdiv_core_binary 53 1024 (Zpos M) 0 (Zpos D) 0 in
  e <= 0 /\ 0 <= q
  /\ locates (Zpos M * 2 ^ (- e)) (Zpos D) (shr_record_of_loc q l)
  /\ e <= Z.max (Zdigits2 q + e - 53) (-1074).
Proof.
  unfold SFdiv_core_binary. rewrite fexp_eq.
  pose proof (Zdigits2_bounds (Zpos M) ltac:(lia)) as [HM1 HM2].
  pose proof (Zdigits2_bounds (Zpos D) ltac:(lia)) as [HD1 HD2].
  pose proof (Zdigits2_pos (Zpos M) ltac:(lia)) as HdM.
  pose proof (Zdigits2_pos (Zpos D) ltac:(lia)) as HdD.
  set (d1 := Zdigits2 (Zpos M)) in *. set (d2 := Zdigits2 (Zpos D)) in *.
  set (e := Z.min (Z.max (d1 + 0 - (d2 + 0) - 53) (-1074)) (0 - 0)).
  assert (He0 : e <= 0) by (unfold e; lia).
  assert (Hm : match 0 - 0 - e with
               | 0 => Zpos M
               | Zpos _ => Z.shiftl (Zpos M) (0 - 0 - e)
               | Zneg _ => 0
               end = Zpos M * 2 ^ (- e)).
  { destruct (0 - 0 - e) as [| s | s] eqn:Hs;
      [| | pose proof (Pos2Z.neg_is_neg s); lia].
    - replace (- e) with 0 by lia. change (2 ^ 0) with 1. lia.
    - rewrite Z.shiftl_mul_pow2 by lia. rewrite <- Hs. do 2 f_equal; lia. }
  rewrite Hm. set (a := Zpos M * 2 ^ (- e)).
  assert (HP : 0 < 2 ^ (- e)) by (apply Z.pow_pos_nonneg; lia).
  assert (Ha : 0 <= a) by (unfold a; lia).
  pose proof (new_location_locates a (Zpos D) Ha ltac:(lia)) as Hloc.
  unfold Z.div, Z.modulo in Hloc.
  destruct (Z.div_eucl a (Zpos D)) as [q r] eqn:Hqr.
  assert (Hq : q = a / Zpos D) by (unfold Z.div; rewrite Hqr; reflexivity).
  split; [exact He0 |]. split; [rewrite Hq; apply Z.div_pos; lia |].
  split; [exact Hloc |].
  destruct (Z.le_gt_cases e (-1074)) as [H | H]; [lia |].
  assert (He : e <= d1 - d2 - 53) by (unfold e in *; lia).
  assert (H52 : 2 ^ 52 <= q).
  { rewrite Hq. apply Z.div_le_lower_bound; [lia |].
    assert (Hle : 2 ^ (52 + d2) <= 2 ^ (d1 - 1 + - e)) by (apply Z.pow_le_mono_r; lia).
    rewrite !Z.pow_add_r in Hle by lia.
    unfold a.
    assert (Zpos D * 2 ^ 52 <= 2 ^ d2 * 2 ^ 52) by (apply Z.mul_le_mono_nonneg_r; lia).
    assert (2 ^ (d1 - 1) * 2 ^ (- e) <= Zpos M * 2 ^ (- e))
      by (apply Z.mul_le_mono_nonneg_r; lia).
    lia. }
  assert (53 <= Zdigits2 q).
  { pose proof (Zdigits2_bounds q ltac:(lia)) as [_ Hhi].
    destruct (Z.le_gt_cases 53 (Zdigits2 q)) as [H1 | H1]; [exact H1 |].
    assert (2 ^ Zdigits2 q <= 2 ^ 52) by (apply Z.pow_le_mono_r; lia). lia. }
  lia.
Qed.

Lemma leb_cancel c x y : 0 < c -> (x * c <=? y * c) = (x <=? y).
Proof.
  intros Hc. destruct (Z.leb_spec x y); [apply Z.leb_le | apply Z.leb_gt]; nia.
Qed.

Lemma locates_exact m : locates m 1 (shr_record_of_loc m loc_Exact).
Proof. unfold locates. cbn. lia. Qed.

Lemma binary_round_ge_one p :
  SFleb (Number.of_Z 1) (binary_round 53 1024 false p 0) = (2 ^ 54 - 1 <=? 2 ^ 54 * Zpos p).
Proof.
  destruct (binary_round_integer false p) as (mz & ez & -> & He0 & Hmz & He).
  rewrite (round_ge_one (Zpos mz) ez loc_Exact (Zpos mz) 1 ltac:(lia) ltac:(lia)
             (locates_exact _) He0 He).
  assert (HP : 0 < 2 ^ (- ez)) by (apply Z.pow_pos_nonneg; lia).
  rewrite Hmz, <- (leb_cancel (2 ^ (- ez)) (2 ^ 54 - 1) _ HP). f_equal; ring.
Qed.

Lemma binary_round_le_fifty_thousand p :
  SFleb (binary_round 53 1024 false p 0) (Number.of_Z 50000)
  = (2 ^ 38 * Zpos p <=? 50000 * 2 ^ 38 + 1).
Proof.
  destruct (binary_round_integer false p) as (mz & ez & -> & He0 & Hmz & He).
  rewrite (round_le_fifty_thousand (Zpos mz) ez loc_Exact (Zpos mz) 1 ltac:(lia)
             ltac:(lia) (locates_exact _) He0 He).
  assert (HP : 0 < 2 ^ (- ez)) by (apply Z.pow_pos_nonneg; lia).
  rewrite Hmz, <- (leb_cancel (2 ^ (- ez)) _ (50000 * 2 ^ 38 + 1) HP). f_equal; ring.
Qed.

(** A number with the minus sign is never 1 or more. *)
Lemma binary_round_aux_negative q e l :
  SFleb (Number.of_Z 1) (binary_round_aux 53 1024 true q e l) = false.
Proof.
  unfold binary_round_aux.
  destruct (shr_fexp 53 1024 q e l) as [mrs e'].
  destruct (shr_fexp 53 1024 _ e' loc_Exact) as [mrs' e''].
  destruct (shr_m mrs'); [reflexivity | destruct (_ <=? _); reflexivity | reflexivity].
Qed.

Lemma decimal_den_positive k : 0 < decimal_den k.
Proof. apply Z.pow_pos_nonneg; lia. Qed.

(** ** Decimals *)

(** The number of the decimal [m * 10 ^ k] is at least 1 exactly when the
    decimal is at least [1 - 2 ^ -54], *)
Lemma of_decimal_ge_one m k :
  SFleb (Number.of_Z 1) (Number.of_decimal false m k)
  = ((2 ^ 54 - 1) * decimal_den k <=? 2 ^ 54 * decimal_num m k).
Proof.
  pose proof (decimal_den_positive k) as HD.
  unfold Number.of_decimal, Number.prec, Number.emax.
  destruct m as [| p].
  - unfold decimal_num. cbn [Z.of_N]. symmetry. apply Z.leb_gt.
    change (2 ^ 54) with 18014398509481984. lia.
  - unfold decimal_num, decimal_den in *. destruct k as [| d | d]; cbv beta iota.
    + rewrite binary_round_ge_one. change (Z.max (- 0) 0) with 0.
      change (Z.max 0 0) with 0. change (10 ^ 0) with 1. cbn [Z.of_N].
      f_equal; ring.
    + rewrite binary_round_ge_one. rewrite Pos2Z.inj_mul, Pos2Z.inj_pow.
      replace (Z.max (Zpos d) 0) with (Zpos d) by lia.
      change (Z.max (- Zpos d) 0) with 0. change (10 ^ 0) with 1.
      f_equal; ring.
    + pose proof (div_core_integers p (10 ^ d)) as H.
      destruct (SFdiv_core_binary 53 1024 (Zpos p) 0 (Zpos (10 ^ d)) 0) as [[q e] l].
      destruct H as (He0 & Hq & Hl & He).
      rewrite (round_ge_one q e l _ (Zpos (10 ^ d)) ltac:(lia) Hq Hl He0 He).
      assert (HP : 0 < 2 ^ (- e)) by (apply Z.pow_pos_nonneg; lia).
      rewrite Pos2Z.inj_pow.
      change (Z.max (Zneg d) 0) with 0. change (- Zneg d) with (Zpos d).
      replace (Z.max (Zpos d) 0) with (Zpos d) by lia.
      change (10 ^ 0) with 1. cbn [Z.of_N]. rewrite Z.mul_1_r.
      rewrite <- (leb_cancel (2 ^ (- e)) ((2 ^ 54 - 1) * 10 ^ Zpos d) _ HP).
      f_equal; ring.
Qed.

(** and at most 50000 exactly when the decimal is at most
    [50000 + 2 ^ -38]. *)
Lemma of_decimal_le_fifty_thousand m k :
  SFleb (Number.of_decimal false m k) (Number.of_Z 50000)
  = (2 ^ 38 * decimal_num m k <=? (50000 * 2 ^ 38 + 1) * decimal_den k).
Proof.
  pose proof (decimal_den_positive k) as HD.
  unfold Number.of_decimal, Number.prec, Number.emax.
  destruct m as [| p].
  - unfold decimal_num. cbn [Z.of_N]. symmetry. apply Z.leb_le.
    change (50000 * 2 ^ 38 + 1) with 13743895347200001. lia.
  - unfold decimal_num, decimal_den in *. destruct k as [| d | d]; cbv beta iota.
    + rewrite binary_round_le_fifty_thousand. change (Z.max (- 0) 0) with 0.
      change (Z.max 0 0) with 0. change (10 ^ 0) with 1. cbn [Z.of_N].
      f_equal; ring.
    + rewrite binary_round_le_fifty_thousand. rewrite Pos2Z.inj_mul, Pos2Z.inj_pow.
      replace (Z.max (Zpos d) 0) with (Zpos d) by lia.
      change (Z.max (- Zpos d) 0) with 0. change (10 ^ 0) with 1.
      f_equal; ring.
    + pose proof (div_core_integers p (10 ^ d)) as H.
      destruct (SFdiv_core_binary 53 1024 (Zpos p) 0 (Zpos (10 ^ d)) 0) as [[q e] l].
      destruct H as (He0 & Hq & Hl & He).
      rewrite (round_le_fifty_thousand q e l _ (Zpos (10 ^ d)) ltac:(lia) Hq Hl He0 He).
      assert (HP : 0 < 2 ^ (- e)) by (apply Z.pow_pos_nonneg; lia).
      rewrite Pos2Z.inj_pow.
      change (Z.max (Zneg d) 0) with 0. change (- Zneg d) with (Zpos d).
      replace (Z.max (Zpos d) 0) with (Zpos d) by lia.
      change (10 ^ 0) with 1. cbn [Z.of_N]. rewrite Z.mul_1_r.
      rewrite <- (leb_cancel (2 ^ (- e)) _ ((50000 * 2 ^ 38 + 1) * 10 ^ Zpos d) HP).
      f_equal; ring.
Qed.

Lemma of_decimal_negative m k :
  SFleb (Number.of_Z 1) (Number.of_decimal true m k) = false.
Proof.
  unfold Number.of_decimal, Number.prec, Number.emax.
  destruct m as [| p]; [reflexivity |].
  destruct k as [| d | d]; cbv beta iota.
  - unfold binary_round. destruct (shl_align _ _ _). apply binary_round_aux_negative.
  - unfold binary_round. destruct (shl_align _ _ _). apply binary_round_aux_negative.
  - destruct (SFdiv_core_binary _ _ _ _ _ _) as [[q e] l]. apply binary_round_aux_negative.
Qed.

(** An integer is in the rounded range exactly when it is in the range 1
    to 50000. *)
Lemma rounds_into_range_integer (n : N) :
  rounds_into_range n 0 = ((1 <=? n)%N && (n <=? 50000)%N).
Proof.
  unfold rounds_into_range, decimal_num, decimal_den.
  change (Z.max (- 0) 0) with 0. change (Z.max 0 0) with 0. change (10 ^ 0) with 1.
  change (2 ^ 54) with 18014398509481984. change (2 ^ 38) with 274877906944.
  f_equal.
  - destruct (N.leb_spec 1 n); [apply Z.leb_le | apply Z.leb_gt]; lia.
  - destruct (N.leb_spec n 50000); [apply Z.leb_le | apply Z.leb_gt]; lia.
Qed.

(** The range check of [validateAmount], by the literal that was read. *)
Lemma range_check_value (l : Number.Literal) :
  negb (Number.isNaN (Number.value l))
  && Number.ge (Number.value l) (Number.of_Z 1)
  && Number.le (Number.value l) (Number.of_Z 50000)
  = accepted_literal l.
Proof.
  destruct l as [| neg | neg m k]; [reflexivity | destruct neg; reflexivity |].
  cbn [Number.value accepted_literal]. unfold Number.ge, Number.le.
  destruct neg.
  - rewrite of_decimal_negative, andb_false_r. reflexivity.
  - unfold rounds_into_range.
    rewrite <- of_decimal_ge_one, <- of_decimal_le_fifty_thousand. f_equal.
    destruct (Number.of_decimal false m k); reflexivity.
Qed.

End NumberFacts.

(* ===================================================================== *)
(** * [parseFloat] on integer numerals *)
(* ===================================================================== *)

Section ParseFacts.

Lemma digit_range c : JSString.is_digit c = true -> (48 <= c <= 57)%N.
Proof.
  unfold JSString.is_digit. intros H. apply andb_true_iff in H as [H1 H2].
  apply N.leb_le in H1, H2. lia.
Qed.

Lemma digit_not_space c : JSString.is_digit c = true -> JSString.is_space c = false.
Proof.
  intros H. apply digit_range in H. unfold JSString.is_space.
  repeat match goal with
  | |- context [(?a <=? ?b)%N] => destruct (N.leb_spec a b); try lia
  | |- context [(?a =? ?b)%N] => destruct (N.eqb_spec a b); try lia
  end; reflexivity.
Qed.

Lemma digit_neq c k :
  JSString.is_digit c = true -> (k < 48 \/ 57 < k)%N -> (c =? k)%N = false.
Proof. intros H Hk. apply digit_range in H. apply N.eqb_neq. lia. Qed.

Lemma trimStart_spaces ws s :
  forallb JSString.is_space ws = true ->
  JSString.trimStart (ws ++ s) = JSString.trimStart s.
Proof.
  induction ws as [| c ws IH]; simpl; auto.
  intros H. apply andb_true_iff in H as [-> H]. auto.
Qed.

Lemma digits_app ds t :
  forallb JSString.is_digit ds = true -> ends_numeral t = true ->
  Number.digits (ds ++ t) = (ds, t).
Proof.
  intros Hds Ht. induction ds as [| d ds IH]; simpl.
  - destruct t as [| c t]; [reflexivity |]. simpl in Ht |- *.
    destruct (JSString.is_digit c); [discriminate | reflexivity].
  - simpl in Hds. apply andb_true_iff in Hds as [-> Hds]. rewrite (IH Hds). reflexivity.
Qed.

Lemma lit_Infinity :
  JSString.lit "Infinity" = [73; 110; 102; 105; 110; 105; 116; 121]%N.
Proof. reflexivity. Qed.

(** What [parseFloat] reads from white space, digits, and a text that does
    not continue them. *)
Lemma literal_integer ws ds t :
  forallb JSString.is_space ws = true ->
  ds <> [] -> forallb JSString.is_digit ds = true ->
  ends_numeral t = true ->
  Number.literal (ws ++ ds ++ t)
  = Number.Decimal false (Number.digits_value ds) 0.
Proof.
  intros Hws Hne Hds Ht. unfold Number.literal.
  rewrite (trimStart_spaces _ _ Hws).
  destruct ds as [| d ds]; [congruence |].
  pose proof Hds as Hds'. cbn [forallb] in Hds'. apply andb_true_iff in Hds' as [Hd _].
  cbn [app JSString.trimStart]. rewrite (digit_not_space d Hd).
  unfold Number.sign.
  rewrite (digit_neq d 43 Hd), (digit_neq d 45 Hd) by lia.
  rewrite lit_Infinity. cbn [JSString.startsWith].
  rewrite N.eqb_sym, (digit_neq d 73 Hd) by lia. cbn [andb].
  change (d :: ds ++ t) with ((d :: ds) ++ t).
  rewrite (digits_app _ _ Hds Ht).
  assert (Hfrac : match t with
                  | c :: r => if (c =? 46)%N then Number.digits r else ([], t)
                  | [] => ([], t)
                  end = ([], t)).
  { destruct t as [| c r]; [reflexivity |]. simpl in Ht.
    destruct (c =? 46)%N; [| reflexivity].
    rewrite orb_true_r in Ht. discriminate. }
  rewrite Hfrac.
  assert (Hexp : Number.exponent t = 0%Z).
  { destruct t as [| c r]; [reflexivity |]. simpl in Ht. unfold Number.exponent.
    destruct (c =? 101)%N; [rewrite !orb_true_r in Ht; discriminate |].
    destruct (c =? 69)%N; [rewrite !orb_true_r in Ht; discriminate |].
    reflexivity. }
  rewrite Hexp, app_nil_r. reflexivity.
Qed.

(** In a text whose first character after the white space cannot start a
    numeral, no decimal is read. *)
Lemma literal_no_numeral s :
  starts_no_numeral (JSString.trimStart s) = true ->
  Number.literal s = Number.NoLiteral \/ Number.literal s = Number.Infinite false.
Proof.
  unfold Number.literal. destruct (JSString.trimStart s) as [| c r].
  - intros _. left. reflexivity.
  - intros H. cbn [starts_no_numeral] in H. apply negb_true_iff in H.
    apply orb_false_iff in H as [H H46]. apply orb_false_iff in H as [H H45].
    apply orb_false_iff in H as [Hd H43].
    unfold Number.sign. rewrite H43, H45.
    destruct (JSString.startsWith (c :: r) (JSString.lit "Infinity")); [right; reflexivity |].
    left. cbn [Number.digits]. rewrite Hd, H46. reflexivity.
Qed.

End ParseFacts.

(* ===================================================================== *)
(** * The stores under the helpers of the handlers *)
(* ===================================================================== *)

Section WorldFacts.

Lemma getUser_known chatId w u :
  users w !! chatId = Some u -> getUser chatId w = (u, w).
Proof. intros H. unfold getUser. rewrite H. reflexivity. Qed.

Lemma getUserLang_known chatId w u :
  users w !! chatId = Some u -> getUserLang chatId w = (User.language u, w).
Proof. intros H. unfold getUserLang. rewrite (getUser_known _ _ _ H). reflexivity. Qed.

Lemma getMainMenu_known chatId w u :
  users w !! chatId = Some u ->
  getMainMenu chatId w = (main_keyboard (User.language u), w).
Proof. intros H. unfold getMainMenu. rewrite (getUserLang_known _ _ _ H). reflexivity. Qed.

Lemma handleBotError_known chatId w u :
  users w !! chatId = Some u ->
  handleBotError chatId w = send (error_reply chatId (User.language u)) w.
Proof. intros H. unfold handleBotError. rewrite (getMainMenu_known _ _ _ H). reflexivity. Qed.

Lemma await_send_known env chatId o w u :
  users w !! chatId = Some u ->
  await_send env chatId o w
  = {| users := users w; businesses := businesses w; payments := payments w;
       outbox := outbox w ++ sent env chatId (User.language u) o |}.
Proof.
  intros H. unfold await_send, sent.
  destruct (delivered env o).
  - reflexivity.
  - rewrite (handleBotError_known chatId (send o w) u H). unfold send. cbn.
    rewrite <- app_assoc. reflexivity.
Qed.

(** [getUser] touches the map of the users only, and leaves an entry for
    [chatId] in it. *)
Lemma getUser_spec chatId w :
  let '(u, w0) := getUser chatId w in
  users w0 !! chatId = Some u
  /\ users w0 = <[chatId := u]> (users w)
  /\ businesses w0 = businesses w
  /\ payments w0 = payments w
  /\ outbox w0 = outbox w.
Proof.
  unfold getUser. destruct (users w !! chatId) as [u |] eqn:E.
  - rewrite insert_id by exact E. auto.
  - cbn. rewrite lookup_insert_eq. auto.
Qed.

Lemma on_message_text cfg env chatId text w :
  text <> [] -> JSString.startsWith text (JSString.lit "/") = false ->
  on_message cfg env chatId (Some text) w = on_text cfg env chatId text w.
Proof.
  intros Hne Hslash. unfold on_message. destruct text; [congruence |].
  rewrite Hslash. reflexivity.
Qed.

End WorldFacts.

(** The calls to the transport at the end of a branch, with the session
    looked up in the world that the branch has written. *)
Ltac transport :=
  repeat first
    [ erewrite getUserLang_known by user_lookup
    | erewrite getMainMenu_known by user_lookup
    | erewrite await_send_known by user_lookup
    | erewrite handleBotError_known by user_lookup ].

(* ===================================================================== *)
(** * The outcome signal of a settlement notification *)
(* ===================================================================== *)

Section OutcomeFacts.





Lemma getUserLang_set_payments chatId f w :
  getUserLang chatId (set_payments f w)
  = (merchant_language chatId w, set_payments f (snd (getUserLang chatId w))).
Proof.
  unfold merchant_language, getUserLang, getUser. cbn [users set_payments].
  destruct (users w !! chatId); reflexivity.
Qed.

End OutcomeFacts.

(* ===================================================================== *)
(** * Texts that the tests before a step do not catch *)
(* ===================================================================== *)

Section PlainTexts.

(** A text that passes the phone validation is not empty, is not a
    command, and is neither a button of the language keyboard nor the label
    that starts a registration. *)
Lemma phone_text_plain text l :
  validatePhone text = true ->
  text <> []
  /\ JSString.startsWith text (JSString.lit "/") = false
  /\ text <> arabic_button /\ text <> english_button
  /\ text <> lang l business_register.
Proof.
  intros H. destruct (validatePhone_chars text H) as [Hne Hch].
  split; [exact Hne |]. split.
  - destruct text as [| c r]; [congruence |].
    cbn [forallb] in Hch. apply andb_true_iff in Hch as [Hc _].
    change (JSString.lit "/") with [47%N]. cbn [JSString.startsWith].
    destruct (N.eqb_spec 47 c) as [<- | _]; [discriminate Hc | reflexivity].
  - repeat split; intros ->; destruct l; vm_compute in Hch; discriminate Hch.
Qed.

End PlainTexts.


(* ===================================================================== *)
(** * Runs *)
(* ===================================================================== *)

Section RunFacts.

Lemma reachable_run cfg events w :
  reachable cfg w -> reachable cfg (run cfg events w).
Proof.
  revert w. induction events as [| [env e] events IH]; intros w Hw; cbn.
  - exact Hw.
  - apply IH. constructor. exact Hw.
Qed.


End RunFacts.

(* ===================================================================== *)
(** * The input buffer of a session outside a flow *)
(* ===================================================================== *)

Section BufferInvariant.

Variable cfg : Config.

Lemma new_user_kept chatId : buffer_kept (new_user chatId).
Proof. intros _. reflexivity. Qed.

Lemma getUser_kept chatId w :
  map_Forall (fun _ u => buffer_kept u) (users w) ->
  let '(u, w0) := getUser chatId w in
  map_Forall (fun _ u => buffer_kept u) (users w0)
  /\ buffer_kept u /\ users w0 !! chatId = Some u.
Proof.
  intros Hw. unfold getUser. destruct (users w !! chatId) as [u |] eqn:E.
  - split; [exact Hw |]. split; [exact (Hw _ _ E) | exact E].
  - cbn [users set_users]. split.
    + apply map_Forall_insert_2; [apply new_user_kept | exact Hw].
    + split; [apply new_user_kept | apply lookup_insert_eq].
Qed.

(** Every branch of the message handler keeps the buffers of the idle
    sessions empty. *)
Lemma on_text_kept env chatId text w :
  map_Forall (fun _ u => buffer_kept u) (users w) ->
  map_Forall (fun _ u => buffer_kept u) (users (on_text cfg env chatId text w)).
Proof.
  intros Hw. pose proof (getUser_kept chatId w Hw) as Hget.
  unfold on_text. destruct (getUser chatId w) as [u w0].
  destruct Hget as (Hw0 & Hu & Hlook). cbv beta iota zeta.
  assert (Hins : forall u', buffer_kept u' ->
            map_Forall (fun _ u => buffer_kept u) (<[chatId := u']> (users w0))).
  { intros u' Hu'. apply map_Forall_insert_2; assumption. }
  repeat case_decide.
  - unfold select_language. transport. stores. apply Hins. exact Hu.
  - unfold select_language. transport. stores. apply Hins. exact Hu.
  - unfold enter_registration. transport. stores. apply Hins. discriminate.
  - unfold on_register_name. destruct (validateBusinessName text); cbn [negb];
      transport; stores; [apply Hins; discriminate | exact Hw0].
  - unfold on_register_phone. destruct (validatePhone text); cbn [negb]; cbv zeta;
      transport; stores; [apply Hins; intros _; reflexivity | exact Hw0].
  - unfold enter_payment. destruct (businesses w0 !! businessId_of chatId);
      transport; stores; [apply Hins; discriminate | exact Hw0].
  - unfold on_payment_amount. destruct (validateAmount text); cbn [negb];
      transport; stores; [apply Hins; discriminate | exact Hw0].
  - unfold on_payment_description. cbv zeta.
    destruct (generateQR env _) as [[| c q] |];
      [ | destruct (split_comma_1 (c :: q)) | ];
      transport; stores; apply Hins; intros _; reflexivity.
  - unfold show_dashboard. destruct (businesses w0 !! businessId_of chatId);
      transport; stores; exact Hw0.
  - unfold show_help. transport. stores. exact Hw0.
  - unfold show_settings. transport. stores. exact Hw0.
  - exact Hw0.
Qed.

Lemma handle_kept env e w :
  map_Forall (fun _ u => buffer_kept u) (users w) ->
  map_Forall (fun _ u => buffer_kept u) (users (handle cfg env e w)).
Proof.
  intros Hw. destruct e as [chatId text | paymentId | body]; cbn [handle].
  - assert (Hmsg : map_Forall (fun _ u => buffer_kept u)
                     (users (on_message cfg env chatId text w))).
    { unfold on_message. destruct text as [[| c r] |]; try exact Hw.
      destruct (JSString.startsWith (c :: r) (JSString.lit "/")); [exact Hw |].
      apply on_text_kept, Hw. }
    unfold receive. destruct text as [t |]; [| exact Hmsg].
    destruct (includes t (JSString.lit "/start")); [| exact Hmsg].
    unfold on_start.
    pose proof (getUser_kept chatId _ Hmsg) as Hget.
    destruct (getUser chatId (on_message cfg env chatId (Some t) w)) as [u w0].
    stores. apply Hget.
  - unfold pay_page. destruct (payments w !! paymentId) as [p |]; [| exact Hw].
    repeat match goal with
           | |- context [if ?b then _ else _] => destruct b
           | |- context [match ?x with Some _ => _ | None => _ end] => destruct x
           end; exact Hw.
  - unfold paytabs_callback. destruct (payments_get (cart_id body) w) as [[key p] |];
      [| exact Hw].
    destruct (approved (payment_result body));
      cbn [Payment.merchantId Payment.set_completedAt Payment.set_transactionRef
           Payment.set_failureReason Payment.set_status];
      rewrite getUserLang_set_payments;
      pose proof (getUser_kept (Payment.merchantId p) w Hw) as Hget;
      unfold getUserLang;
      destruct (getUser (Payment.merchantId p) w) as [u w0]; cbn [snd];
      destruct Hget as (Hw0 & _).
    + destruct (Value.printable (tran_ref body)); cbn [negb];
        [destruct (businesses _ !! _) |]; cbn [fst]; stores; exact Hw0.
    + cbn [fst]. stores. exact Hw0.
Qed.

(** In every world that a run reaches, a session in [start] or in [main]
    has an empty input buffer. *)
Lemma idle_buffer_empty w chatId u :
  reachable cfg w ->
  users w !! chatId = Some u ->
  idle (User.step u) = true ->
  User.tempData u = User.no_tempData.
Proof.
  intros Hreach. revert chatId u.
  change (map_Forall (fun _ u => buffer_kept u) (users w)).
  induction Hreach as [| env e w Hreach IH].
  - apply map_Forall_empty.
  - apply handle_kept, IH.
Qed.

End BufferInvariant.

(* ===================================================================== *)
(** * Texts: trimming, and the writing of identifiers *)
(* ===================================================================== *)

Section TrimFacts.

Lemma trimStart_split s :
  exists ws, s = ws ++ JSString.trimStart s /\ forallb JSString.is_space ws = true.
Proof.
  induction s as [| c r IH]; [exists []; auto |].
  cbn [JSString.trimStart]. destruct (JSString.is_space c) eqn:Hc.
  - destruct IH as (ws & Hr & Hws). exists (c :: ws). cbn [app forallb].
    rewrite Hc, Hws. split; [congruence | reflexivity].
  - exists []. auto.
Qed.

Lemma trimStart_head s :
  match JSString.trimStart s with
  | c :: _ => JSString.is_space c = false
  | [] => True
  end.
Proof.
  induction s as [| c r IH]; [exact I |].
  cbn [JSString.trimStart]. destruct (JSString.is_space c) eqn:Hc; assumption.
Qed.

Lemma trimStart_fixed c r :
  JSString.is_space c = false -> JSString.trimStart (c :: r) = c :: r.
Proof. intros H. cbn [JSString.trimStart]. rewrite H. reflexivity. Qed.

Lemma trimStart_all_spaces ws :
  forallb JSString.is_space ws = true -> JSString.trimStart ws = [].
Proof.
  intros H. rewrite <- (app_nil_r ws). rewrite (trimStart_spaces ws [] H). reflexivity.
Qed.

Lemma forallb_rev {A} (P : A -> bool) l : forallb P (rev l) = forallb P l.
Proof.
  induction l as [| a l IH]; [reflexivity |].
  cbn [rev forallb]. rewrite forallb_app, IH. cbn [forallb].
  rewrite andb_true_r. apply andb_comm.
Qed.

(** What [trim] takes away is white space, on the two sides. *)
Lemma trim_split s :
  exists ws1 ws2,
    s = ws1 ++ JSString.trim s ++ ws2
    /\ forallb JSString.is_space ws1 = true
    /\ forallb JSString.is_space ws2 = true.
Proof.
  unfold JSString.trim, JSString.trimEnd.
  destruct (trimStart_split s) as (ws1 & Hs & Hws1).
  destruct (trimStart_split (rev (JSString.trimStart s))) as (ws2 & Hr & Hws2).
  exists ws1, (rev ws2). split; [| split; [exact Hws1 | rewrite forallb_rev; exact Hws2]].
  rewrite <- rev_app_distr, <- Hr, rev_involutive. exact Hs.
Qed.

(** What [trim] leaves has no white space at either end. *)
Lemma trim_bare s : bare (JSString.trim s) = true.
Proof.
  unfold JSString.trim, JSString.trimEnd, bare.
  pose proof (trimStart_head s) as Ht.
  pose proof (trimStart_head (rev (JSString.trimStart s))) as Hu.
  destruct (trimStart_split (rev (JSString.trimStart s))) as (ws & Hr & _).
  set (t := JSString.trimStart s) in *.
  set (u := JSString.trimStart (rev t)) in *.
  rewrite rev_involutive. apply andb_true_iff. split.
  - assert (Ht' : t = rev u ++ rev ws).
    { rewrite <- rev_app_distr, <- Hr, rev_involutive. reflexivity. }
    destruct (rev u) as [| c r] eqn:E; [reflexivity |].
    rewrite Ht' in Ht. cbn [app] in Ht. rewrite Ht. reflexivity.
  - destruct u as [| c r]; [reflexivity |]. rewrite Hu. reflexivity.
Qed.

(** A text with no white space at either end, with white space around it,
    is what [trim] gives back. *)
Lemma trim_unique ws1 core ws2 :
  forallb JSString.is_space ws1 = true ->
  forallb JSString.is_space ws2 = true ->
  bare core = true ->
  JSString.trim (ws1 ++ core ++ ws2) = core.
Proof.
  intros H1 H2 Hb. unfold JSString.trim, JSString.trimEnd.
  rewrite (trimStart_spaces ws1 _ H1).
  destruct core as [| c r].
  - cbn [app]. rewrite (trimStart_all_spaces ws2 H2). reflexivity.
  - unfold bare in Hb. apply andb_true_iff in Hb as [Hc Hl].
    apply negb_true_iff in Hc.
    change ((c :: r) ++ ws2) with (c :: (r ++ ws2)).
    rewrite (trimStart_fixed c _ Hc).
    change (c :: (r ++ ws2)) with ((c :: r) ++ ws2).
    rewrite rev_app_distr, trimStart_spaces by (rewrite forallb_rev; exact H2).
    destruct (rev (c :: r)) as [| d q] eqn:E.
    + apply (f_equal (@rev N)) in E. rewrite rev_involutive in E. discriminate E.
    + apply negb_true_iff in Hl. rewrite (trimStart_fixed d q Hl), <- E.
      apply rev_involutive.
Qed.

Lemma remove_spaces_app s t :
  JSString.remove_spaces (s ++ t) = JSString.remove_spaces s ++ JSString.remove_spaces t.
Proof. unfold JSString.remove_spaces. apply List.filter_app. Qed.

Lemma remove_spaces_spaces ws :
  forallb JSString.is_space ws = true -> JSString.remove_spaces ws = [].
Proof.
  induction ws as [| c r IH]; [reflexivity |]. cbn [forallb]. intros H.
  apply andb_true_iff in H as [Hc Hr]. unfold JSString.remove_spaces in *.
  cbn [List.filter]. rewrite Hc. cbn [negb]. apply IH, Hr.
Qed.

(** The white space that [trim] takes away plays no part in the phone
    validation. *)
Lemma validatePhone_trim text : validatePhone (JSString.trim text) = validatePhone text.
Proof.
  unfold validatePhone. destruct (trim_split text) as (ws1 & ws2 & Hs & H1 & H2).
  rewrite Hs at 2. rewrite !remove_spaces_app.
  rewrite (remove_spaces_spaces ws1 H1), (remove_spaces_spaces ws2 H2), app_nil_r.
  reflexivity.
Qed.

(** The name that the registration stores for a text it accepts. *)
Lemma validateBusinessName_stored text :
  validateBusinessName text = true -> stored_name (JSString.trim text).
Proof.
  unfold validateBusinessName, stored_name. intros H.
  apply andb_true_iff in H as [H H100]. apply andb_true_iff in H as [_ H2].
  apply Nat.leb_le in H2, H100. split; [apply trim_bare | lia].
Qed.

End TrimFacts.

Section IdentifierFacts.

Lemma bytes_of_inj s t : JSString.bytes_of s = JSString.bytes_of t -> s = t.
Proof.
  unfold JSString.bytes_of. intros H.
  rewrite <- (string_of_list_ascii_of_string s), <- (string_of_list_ascii_of_string t).
  f_equal. revert H. generalize (list_ascii_of_string s) (list_ascii_of_string t).
  intros l. induction l as [| a l IH]; intros [| b m] H; try discriminate H.
  - reflexivity.
  - cbn [map] in H. injection H as Hab Hlm.
    rewrite <- (ascii_N_embedding a), <- (ascii_N_embedding b), Hab.
    f_equal. apply IH, Hlm.
Qed.

Lemma to_int_writable n :
  Z.to_int n <> Decimal.Pos Decimal.Nil /\ Z.to_int n <> Decimal.Neg Decimal.Nil.
Proof.
  destruct n as [| p | p]; cbn [Z.to_int]; split; try discriminate;
    intros H; injection H as H; exact (DecimalPos.Unsigned.to_uint_nonnil p H).
Qed.

(** The decimal writing of an integer tells the integer. *)
Lemma of_Z_inj m n : JSString.of_Z m = JSString.of_Z n -> m = n.
Proof.
  unfold JSString.of_Z. intros H. apply bytes_of_inj in H.
  destruct (to_int_writable m) as [Hm1 Hm2]. destruct (to_int_writable n) as [Hn1 Hn2].
  pose proof (NilZero.isi _ Hm1 Hm2) as Em. pose proof (NilZero.isi _ Hn1 Hn2) as En.
  rewrite H in Em. rewrite Em in En. injection En as En.
  rewrite <- (DecimalZ.of_to m), <- (DecimalZ.of_to n), En. reflexivity.
Qed.

Lemma uint_chars d :
  forallb JSString.is_digit (JSString.bytes_of (NilEmpty.string_of_uint d)) = true.
Proof.
  induction d; cbn [NilEmpty.string_of_uint]; [reflexivity | ..];
    unfold JSString.bytes_of in *; cbn [list_ascii_of_string map forallb];
    rewrite IHd; reflexivity.
Qed.

(** It is made of digits, after [-] for a negative integer. *)
Lemma of_Z_chars n : forallb decimal_char (JSString.of_Z n) = true.
Proof.
  assert (Hu : forall d,
            forallb decimal_char (JSString.bytes_of (NilZero.string_of_uint d)) = true).
  { intros d. apply forallb_forall. intros c Hc. unfold decimal_char.
    apply orb_true_iff. right. revert c Hc. apply forallb_forall.
    destruct d; try apply uint_chars. reflexivity. }
  unfold JSString.of_Z. destruct (Z.to_int n) as [d | d]; cbn [NilZero.string_of_int].
  - apply Hu.
  - change (JSString.bytes_of (String "-" (NilZero.string_of_uint d)))
      with (45 :: JSString.bytes_of (NilZero.string_of_uint d)).
    cbn [forallb]. rewrite Hu. reflexivity.
Qed.

Lemma hex_digit_char n : n < 16 -> hex_char (JSString.hex_digit n) = true.
Proof.
  intros H. unfold JSString.hex_digit, hex_char, JSString.is_digit.
  destruct (N.ltb_spec n 10).
  - apply orb_true_iff. left. apply andb_true_iff. split; apply N.leb_le; lia.
  - apply orb_true_iff. right. apply andb_true_iff. split; apply N.leb_le; lia.
Qed.

Lemma hex_digit_inj m n :
  m < 16 -> n < 16 -> JSString.hex_digit m = JSString.hex_digit n -> m = n.
Proof.
  unfold JSString.hex_digit. intros Hm Hn.
  destruct (N.ltb_spec m 10), (N.ltb_spec n 10); lia.
Qed.

Lemma byte_halves b : b < 256 -> N.shiftr b 4 < 16 /\ N.land b 15 < 16.
Proof.
  intros H. rewrite N.shiftr_div_pow2. change (N.land b 15) with (N.land b (N.ones 4)).
  rewrite N.land_ones. change (2 ^ 4) with 16. split.
  - apply N.Div0.div_lt_upper_bound. lia.
  - apply N.mod_lt. lia.
Qed.

Lemma byte_of_halves b : b = 16 * N.shiftr b 4 + N.land b 15.
Proof.
  rewrite N.shiftr_div_pow2. change (N.land b 15) with (N.land b (N.ones 4)).
  rewrite N.land_ones. change (2 ^ 4) with 16. apply N.div_mod. lia.
Qed.

(** The hexadecimal writing of bytes has two characters for each byte, *)
Lemma hex_length bytes : length (JSString.hex bytes) = (2 * length bytes)%nat.
Proof.
  unfold JSString.hex. induction bytes as [| b r IH]; [reflexivity |].
  cbn [flat_map app length]. rewrite IH. lia.
Qed.

Lemma hex_chars bytes :
  Forall (fun b => b < 256) bytes -> forallb hex_char (JSString.hex bytes) = true.
Proof.
  unfold JSString.hex. induction 1 as [| b r Hb _ IH]; [reflexivity |].
  cbn [flat_map app forallb]. destruct (byte_halves b Hb) as [H1 H2].
  rewrite (hex_digit_char _ H1), (hex_digit_char _ H2), IH. reflexivity.
Qed.

(** and tells the bytes. *)
Lemma hex_inj bs cs :
  Forall (fun b => b < 256) bs -> Forall (fun b => b < 256) cs ->
  JSString.hex bs = JSString.hex cs -> bs = cs.
Proof.
  unfold JSString.hex. intros Hbs. revert cs.
  induction Hbs as [| b r Hb _ IH]; intros cs Hcs H.
  - destruct cs; [reflexivity | discriminate H].
  - destruct Hcs as [| c q Hc Hq]; [discriminate H |].
    cbn [flat_map app] in H. injection H as Hhi Hlo Hrest.
    destruct (byte_halves b Hb) as [Hb1 Hb2]. destruct (byte_halves c Hc) as [Hc1 Hc2].
    apply hex_digit_inj in Hhi, Hlo; try assumption.
    rewrite (byte_of_halves b), (byte_of_halves c), Hhi, Hlo.
    f_equal. apply IH; assumption.
Qed.

(** A separator that is in neither of two texts tells where they end. *)
Lemma split_at_separator (x : N) a1 b1 a2 b2 :
  ~ In x a1 -> ~ In x a2 -> a1 ++ x :: b1 = a2 ++ x :: b2 -> a1 = a2 /\ b1 = b2.
Proof.
  revert a2. induction a1 as [| c a1 IH]; intros [| d a2] H1 H2 H; cbn [app] in H.
  - injection H as H. auto.
  - injection H as Hx _. exfalso. apply H2. left. congruence.
  - injection H as Hx _. exfalso. apply H1. left. congruence.
  - injection H as Hcd H.
    destruct (IH a2) as [Ha Hb]; [intros ?; apply H1; right; assumption
                                 | intros ?; apply H2; right; assumption | exact H |].
    subst. auto.
Qed.

Lemma of_Z_no_separator n : ~ In 95 (JSString.of_Z n).
Proof.
  intros H. pose proof (of_Z_chars n) as Hc.
  rewrite forallb_forall in Hc. specialize (Hc _ H). discriminate Hc.
Qed.

Lemma businessId_of_inj c d : businessId_of c = businessId_of d -> c = d.
Proof.
  unfold businessId_of. intros H. apply app_inv_head in H. apply of_Z_inj, H.
Qed.

Lemma startsWith_app p s : JSString.startsWith (p ++ s) p = true.
Proof.
  induction p as [| c p IH]; [destruct s; reflexivity |].
  cbn [app JSString.startsWith]. rewrite N.eqb_refl, IH. reflexivity.
Qed.

Lemma generatePaymentId_prefix env :
  JSString.startsWith (generatePaymentId env) (JSString.lit "DAFI_") = true.
Proof. unfold generatePaymentId. apply startsWith_app. Qed.

End IdentifierFacts.

(* ===================================================================== *)
(** * Numbers: sums of amounts *)
(* ===================================================================== *)

Section SumFacts.

Local Open Scope Z_scope.

Lemma shr_nonnegative mrs e n :
  0 <= shr_m mrs -> 0 <= shr_m (fst (shr mrs e n)).
Proof.
  intros Hm. destruct n as [| k | k]; try exact Hm.
  destruct (locates_exists mrs) as (a & b & Hb & Hl).
  pose proof (shr_spec mrs e (Zpos k) a b Hb Hm ltac:(lia) Hl) as H.
  destruct (shr mrs e (Zpos k)) as [mrs' e']. destruct H as (_ & H & _).
  cbn [fst]. rewrite H. apply Z.div_pos; [exact Hm | apply Z.pow_pos_nonneg; lia].
Qed.

Lemma shr_fexp_nonnegative m e l :
  0 <= m -> 0 <= shr_m (fst (shr_fexp 53 1024 m e l)).
Proof.
  intros Hm. unfold shr_fexp. apply shr_nonnegative.
  rewrite shr_record_of_loc_m. exact Hm.
Qed.

(** What [binary_round_aux] makes of a significand that is not negative
    is not NaN, and has the sign it was given. *)
Lemma binary_round_aux_nonnegative q e l :
  0 <= q -> nonnegative (binary_round_aux 53 1024 false q e l) = true.
Proof.
  intros Hq. unfold binary_round_aux.
  pose proof (shr_fexp_nonnegative q e l Hq) as H1.
  destruct (shr_fexp 53 1024 q e l) as [mrs1 e1]. cbn [fst] in H1.
  pose proof (round_nearest_even_bounds (shr_m mrs1) (loc_of_shr_record mrs1)) as Hr.
  pose proof (shr_fexp_nonnegative
                (round_nearest_even (shr_m mrs1) (loc_of_shr_record mrs1)) e1 loc_Exact
                ltac:(lia)) as H2.

  destruct (shr_fexp 53 1024 _ e1 loc_Exact) as [mrs2 e2]. cbn [fst] in H2.
  destruct (shr_m mrs2) as [| m | m]; [reflexivity | | lia].
  destruct (e2 <=? 1024 - 53); reflexivity.
Qed.

Lemma stored_amount_finite a :
  stored_amount a -> exists m e, a = S754_finite false m e.
Proof.
  unfold stored_amount, Number.ge, Number.le. rewrite of_Z_1, of_Z_50000.
  intros [Hge Hle]. destruct a as [s | s | | s m e]; try discriminate.
  - destruct s; discriminate.
  - destruct s; [discriminate | eauto].
Qed.

(** Adding an accepted amount to a number that is not negative gives a
    number that is not negative, and so not NaN. *)
Lemma add_nonnegative x a :
  nonnegative x = true -> stored_amount a -> nonnegative (Number.add x a) = true.
Proof.
  intros Hx Ha. destruct (stored_amount_finite a Ha) as (m & e & ->).
  unfold Number.add, Number.prec, Number.emax.
  destruct x as [s | s | | s mx ex]; try discriminate Hx.
  - reflexivity.
  - destruct s; [discriminate Hx | reflexivity].
  - destruct s; [discriminate Hx |]. cbn [SFadd cond_Zopp].
    rewrite <- Pos2Z.inj_add. cbn [binary_normalize]. unfold binary_round.
    destruct (shl_align _ _ _) as [mz ez].
    apply binary_round_aux_nonnegative. lia.
Qed.

Lemma stored_amount_one : stored_amount (Number.of_Z 1).
Proof. split; reflexivity. Qed.

Lemma validateAmount_stored text :
  validateAmount text = true -> stored_amount (Number.parseFloat text).
Proof.
  unfold validateAmount, stored_amount. cbv zeta. intros H.
  apply andb_true_iff in H as [H Hle]. apply andb_true_iff in H as [_ Hge]. auto.
Qed.

End SumFacts.

(* ===================================================================== *)
(** * What the handlers write *)
(* ===================================================================== *)

Section Effects.

Variable cfg : Config.

Lemma getUser_others chatId w c :
  c <> chatId -> users (snd (getUser chatId w)) !! c = users w !! c.
Proof.
  intros Hc. unfold getUser. destruct (users w !! chatId); [reflexivity |].
  cbn [snd users set_users]. apply lookup_insert_ne. congruence.
Qed.

Lemma getUser_keeps chatId w c :
  is_Some (users w !! c) -> is_Some (users (snd (getUser chatId w)) !! c).
Proof.
  intros Hc. unfold getUser. destruct (users w !! chatId); [exact Hc |].
  cbn [snd users set_users]. apply lookup_insert_is_Some'. right. exact Hc.
Qed.

Lemma sent_recipient env chatId l o :
  recipient o = chatId -> Forall (fun o => recipient o = chatId) (sent env chatId l o).
Proof.
  intros H. unfold sent. constructor; [exact H |].
  destruct (delivered env o); constructor; [reflexivity | constructor].
Qed.

(** The branch that a text takes, and the stores it leaves. *)
Lemma on_text_written env chatId text w :
  exists u' b p out,
    transition env chatId text (businesses w !! businessId_of chatId)
      (fst (getUser chatId w)) u' b p
    /\ Forall (fun o => recipient o = chatId) out
    /\ on_text cfg env chatId text w
       = written chatId (generatePaymentId env) w u' b p out.
Proof.
  pose proof (getUser_spec chatId w) as Hget.
  unfold on_text. destruct (getUser chatId w) as [u w0].
  destruct Hget as (Hlook & Hu & Hb & Hp & Hout). cbn [fst]. cbv beta iota zeta.
  assert (Hkeep : forall out,
            {| users := users w0; businesses := businesses w0;
               payments := payments w0; outbox := outbox w0 ++ out |}
            = written chatId (generatePaymentId env) w u None None out).
  { intros out. unfold written. rewrite Hu, Hb, Hp, Hout. reflexivity. }
  assert (Hset : forall u' out,
            {| users := <[chatId := u']> (users w0); businesses := businesses w0;
               payments := payments w0; outbox := outbox w0 ++ out |}
            = written chatId (generatePaymentId env) w u' None None out).
  { intros u' out. unfold written. rewrite Hu, Hb, Hp, Hout, insert_insert_eq.
    reflexivity. }
  repeat case_decide.
  - unfold select_language. transport. stores.
    eexists _, None, None, _. split; [apply (language_chosen _ _ _ _ _ ar); assumption |].
    split; [| apply Hset]. apply sent_recipient. reflexivity.
  - unfold select_language. transport. stores.
    eexists _, None, None, _. split; [apply (language_chosen _ _ _ _ _ en); assumption |].
    split; [| apply Hset]. apply sent_recipient. reflexivity.
  - unfold enter_registration. transport. stores.
    eexists _, None, None, _. split; [apply registration_entered |].
    split; [| apply Hset]. apply sent_recipient. reflexivity.
  - unfold on_register_name. destruct (validateBusinessName text) eqn:Hv; cbn [negb];
      transport; stores.
    + eexists _, None, None, _. split; [apply name_taken; assumption |].
      split; [| apply Hset]. apply sent_recipient. reflexivity.
    + eexists _, None, None, _. split; [apply session_kept |].
      split; [| apply Hkeep]. apply sent_recipient. reflexivity.
  - unfold on_register_phone. destruct (validatePhone text) eqn:Hv; cbn [negb];
      cbv zeta; transport; stores.
    + eexists _, (Some _), None, _. split; [apply phone_taken; assumption |].
      split; [| unfold written; rewrite Hu, Hb, Hp, Hout, insert_insert_eq;
                reflexivity].
      apply sent_recipient. reflexivity.
    + eexists _, None, None, _. split; [apply session_kept |].
      split; [| apply Hkeep]. apply sent_recipient. reflexivity.
  - unfold enter_payment. rewrite Hb.
    destruct (businesses w !! businessId_of chatId) eqn:Hprofile; transport; stores.
    + eexists _, None, None, _. split; [apply payment_entered; eauto |].
      split; [| apply Hset]. apply sent_recipient. reflexivity.
    + eexists _, None, None, _. split; [apply session_kept |].
      split; [| apply Hkeep]. apply sent_recipient. reflexivity.
  - unfold on_payment_amount. destruct (validateAmount text) eqn:Hv; cbn [negb];
      transport; stores.
    + eexists _, None, None, _. split; [apply amount_taken; assumption |].
      split; [| apply Hset]. apply sent_recipient. reflexivity.
    + eexists _, None, None, _. split; [apply session_kept |].
      split; [| apply Hkeep]. apply sent_recipient. reflexivity.
  - unfold on_payment_description. cbv zeta.
    assert (Hrec : forall out,
              {| users := <[chatId := User.set_tempData User.no_tempData
                                        (User.set_step main u)]> (users w0);
                 businesses := businesses w0;
                 payments :=
                   <[generatePaymentId env :=
                       new_payment env chatId (generatePaymentId env)
                         (User.amount (User.tempData u)) (JSString.trim text)]>
                     (payments w0);
                 outbox := outbox w0 ++ out |}
              = written chatId (generatePaymentId env) w
                  (User.set_tempData User.no_tempData (User.set_step main u))
                  None
                  (Some (new_payment env chatId (generatePaymentId env)
                           (User.amount (User.tempData u)) (JSString.trim text)))
                  out).
    { intros out. unfold written. rewrite Hu, Hb, Hp, Hout, insert_insert_eq.
      reflexivity. }
    destruct (generateQR env _) as [[| c q] |];
      [ | destruct (split_comma_1 (c :: q)) | ];
      transport; stores.
    + eexists _, None, (Some _), _. split; [apply description_taken; assumption |].
      split; [| apply Hrec]. apply sent_recipient. reflexivity.
    + eexists _, None, (Some _), _. split; [apply description_taken; assumption |].
      split; [| apply Hrec]. apply sent_recipient. reflexivity.
    + eexists _, None, (Some _), [_]. split; [apply description_taken; assumption |].
      split; [| apply Hrec]. repeat constructor.
    + eexists _, None, (Some _), _. split; [apply description_taken; assumption |].
      split; [| apply Hrec]. apply sent_recipient. reflexivity.
  - unfold show_dashboard. rewrite Hb.
    destruct (businesses w !! businessId_of chatId); transport; stores;
      (eexists _, None, None, _; split; [apply session_kept |];
       split; [| apply Hkeep]; apply sent_recipient; reflexivity).
  - unfold show_help. transport. stores.
    eexists _, None, None, _. split; [apply session_kept |].
    split; [| apply Hkeep]. apply sent_recipient. reflexivity.
  - unfold show_settings. transport. stores.
    eexists _, None, None, _. split; [apply session_kept |].
    split; [| apply Hkeep]. apply sent_recipient. reflexivity.
  - exists u, None, None, []. split; [apply session_kept |]. split; [constructor |].
    rewrite <- Hkeep, app_nil_r. destruct w0; reflexivity.
Qed.

Lemma on_message_written env chatId t w :
  on_message cfg env chatId (Some t) w = w
  \/ exists u' b p out,
       transition env chatId t (businesses w !! businessId_of chatId)
         (fst (getUser chatId w)) u' b p
       /\ Forall (fun o => recipient o = chatId) out
       /\ on_message cfg env chatId (Some t) w
          = written chatId (generatePaymentId env) w u' b p out.
Proof.
  unfold on_message. destruct t as [| c r]; [left; reflexivity |].
  destruct (JSString.startsWith (c :: r) (JSString.lit "/")); [left; reflexivity |].
  right. apply on_text_written.
Qed.

(** An inbound message leaves the stores as they are, or as one branch of
    the message handler writes them, with the prompt of [/start] after its
    replies when the text has the command in it. *)
Lemma receive_written env chatId text w :
  receive cfg env chatId text w = w
  \/ exists t u' b p out,
       text = Some t
       /\ transition env chatId t (businesses w !! businessId_of chatId)
            (fst (getUser chatId w)) u' b p
       /\ Forall (fun o => recipient o = chatId) out
       /\ receive cfg env chatId text w
          = written chatId (generatePaymentId env) w u' b p out.
Proof.
  destruct text as [t |]; [| left; reflexivity]. unfold receive.
  destruct (includes t (JSString.lit "/start")).
  - right. exists t.
    destruct (on_message_written env chatId t w)
      as [-> | (u' & b & p & out & Htr & Hout & ->)].
    + pose proof (getUser_spec chatId w) as Hget. unfold on_start.
      destruct (getUser chatId w) as [u w0].
      destruct Hget as (_ & Hu & Hb & Hp & Ho). cbn [fst].
      exists u, None, None, [start_prompt chatId].
      split; [reflexivity |]. split; [apply session_kept |].
      split; [repeat constructor |].
      unfold send, written, start_prompt. rewrite Hu, Hb, Hp, Ho. reflexivity.
    + unfold on_start.
      rewrite (getUser_known chatId
                 (written chatId (generatePaymentId env) w u' b p out) u')
        by (cbn [users written]; apply lookup_insert_eq).
      exists u', b, p, (out ++ [start_prompt chatId]).
      split; [reflexivity |]. split; [exact Htr |].
      split; [apply Forall_app; split; [exact Hout | repeat constructor] |].
      unfold send, written, start_prompt. cbn [users businesses payments outbox].
      rewrite <- app_assoc. reflexivity.
  - destruct (on_message_written env chatId t w)
      as [-> | (u' & b & p & out & Htr & Hout & ->)]; [left; reflexivity |].
    right. exists t, u', b, p, out. auto.
Qed.

(** A visit of the payment page leaves the stores as they are, or marks
    the pending record it was asked for as expired. *)
Lemma pay_page_written env paymentId w :
  fst (pay_page cfg env paymentId w) = w
  \/ exists p,
       payments w !! paymentId = Some p /\ Payment.status p = pending
       /\ fst (pay_page cfg env paymentId w)
          = set_payments (insert paymentId (Payment.set_status expired p)) w.
Proof.
  unfold pay_page. destruct (payments w !! paymentId) as [p |]; [| left; reflexivity].
  destruct (bool_decide_reflect (Payment.status p = pending)) as [Hs | Hs]; cbn [negb];
    [| left; reflexivity].
  destruct (clock env 0 >? Payment.expiresAt p)%Z; [right; exists p; auto |].
  left. destruct (credentials_missing cfg); [reflexivity |].
  destruct (createPayTabsPayment cfg env) as [r |]; [| reflexivity].
  destruct (Value.nullish r); [reflexivity |].
  destruct (Value.truthy _); reflexivity.
Qed.

(** A settlement notification for a record of the ledger settles it: the
    terms of the record are kept, and a Business Profile is written only to
    add a sale to it. The merchant is told and the notification acknowledged,
    unless the handler stops where it writes the transaction reference into
    the message: then nothing is sent and no profile is written. *)
Lemma callback_found env body w key p :
  cart_id body = Value.Str key ->
  payments w !! key = Some p ->
  exists p' out,
    payments (fst (paytabs_callback env body w)) = <[key := p']> (payments w)
    /\ outbox (fst (paytabs_callback env body w)) = outbox w ++ out
    /\ users (fst (paytabs_callback env body w))
       = users (snd (getUser (Payment.merchantId p) w))
    /\ (businesses (fst (paytabs_callback env body w)) = businesses w
        \/ exists b,
             businesses w !! businessId_of (Payment.merchantId p) = Some b
             /\ businesses (fst (paytabs_callback env body w))
                = <[businessId_of (Payment.merchantId p) :=
                      record_sale (Payment.amount p) b]> (businesses w))
    /\ same_terms p p'
    /\ Payment.status p'
       = (if approved (payment_result body) then completed else failed)
    /\ Forall (fun o => recipient o = Payment.merchantId p) out
    /\ (if interrupted body
        then out = []
             /\ businesses (fst (paytabs_callback env body w)) = businesses w
             /\ snd (paytabs_callback env body w) = ErrorAck
        else length out = 1%nat
             /\ snd (paytabs_callback env body w) = OkAck).
Proof.
  intros Hcart Hp. unfold paytabs_callback, payments_get, interrupted.
  rewrite Hcart, Hp.
  pose proof (getUser_spec (Payment.merchantId p) w) as Hget.
  destruct (approved (payment_result body));
    cbn [Payment.merchantId Payment.amount Payment.description
         Payment.set_completedAt Payment.set_transactionRef
         Payment.set_failureReason Payment.set_status andb];
    rewrite getUserLang_set_payments; unfold getUserLang;
    destruct (getUser (Payment.merchantId p) w) as [u w0];
    destruct Hget as (_ & Hu & Hb & Hpay & Ho); cbn [snd fst].
  - destruct (Value.printable (tran_ref body)); cbn [negb].
    + stores. rewrite Hb.
      destruct (businesses w !! businessId_of (Payment.merchantId p)) as [b |] eqn:Eb;
        cbn [fst snd]; stores; rewrite ?Hb, ?Hpay, ?Ho; eexists _, [_];
        (split; [reflexivity |]); (split; [reflexivity |]); (split; [reflexivity |]).
      * split; [right; exists b; auto |]. split; [repeat split |].
        split; [reflexivity |]. split; [repeat constructor | auto].
      * split; [left; reflexivity |]. split; [repeat split |].
        split; [reflexivity |]. split; [repeat constructor | auto].
    + cbn [fst snd]. stores. rewrite ?Hb, ?Hpay, ?Ho. eexists _, [].
      split; [reflexivity |]. split; [symmetry; apply app_nil_r |].
      split; [reflexivity |]. split; [left; reflexivity |].
      split; [repeat split |]. split; [reflexivity |]. split; [constructor | auto].
  - stores. rewrite ?Hb, ?Hpay, ?Ho. eexists _, [_].
    split; [reflexivity |]. split; [reflexivity |]. split; [reflexivity |].
    split; [left; reflexivity |]. split; [repeat split |].
    split; [reflexivity |]. split; [repeat constructor | auto].
Qed.

(** Any other notification leaves the stores as they are. *)
Lemma callback_written env body w :
  fst (paytabs_callback env body w) = w
  \/ exists key p, cart_id body = Value.Str key /\ payments w !! key = Some p.
Proof.
  unfold paytabs_callback, payments_get.
  destruct (cart_id body) as [| | | | key | |]; try (left; reflexivity).
  destruct (payments w !! key) as [p |] eqn:Hp; [| left; reflexivity].
  right. exists key, p. auto.
Qed.

End Effects.

(* ===================================================================== *)
(** * The stores that a run keeps consistent *)
(* ===================================================================== *)

Section Consistency.

Variable cfg : Config.

Lemma new_user_ok chatId : session_ok chatId (new_user chatId).
Proof. split; [reflexivity |]. split; discriminate. Qed.

(** The session that a handler starts from. *)
Lemma getUser_ok w chatId :
  consistent w ->
  session_ok chatId (fst (getUser chatId w))
  /\ (in_payment_flow (User.step (fst (getUser chatId w))) = true ->
      is_Some (businesses w !! businessId_of chatId)).
Proof.
  intros (Hs & Hf & _). unfold getUser.
  destruct (users w !! chatId) as [u |] eqn:E; cbn [fst].
  - split; [exact (Hs _ _ E) | exact (Hf _ _ E)].
  - split; [apply new_user_ok | discriminate].
Qed.

Lemma transition_session env chatId text profile u u' b p :
  transition env chatId text profile u u' b p ->
  session_ok chatId u -> session_ok chatId u'.
Proof.
  intros Htr (Hid & Hname & Hamount).
  destruct Htr; (split; [exact Hid |]); cbn [User.step User.tempData User.set_language
    User.set_step User.set_tempData User.set_businessName User.set_amount
    User.businessName User.amount]; try (split; [exact Hname | exact Hamount]);
    try (split; discriminate).
  - split; [| discriminate]. intros _. eexists. split; [reflexivity |].
    apply validateBusinessName_stored. assumption.
  - split; [discriminate |]. intros _. eexists. split; [reflexivity |].
    apply validateAmount_stored. assumption.
Qed.

Lemma transition_flow env chatId text profile u u' b p :
  transition env chatId text profile u u' b p ->
  (in_payment_flow (User.step u) = true -> is_Some profile) ->
  in_payment_flow (User.step u') = true -> is_Some profile.
Proof.
  intros Htr Hflow.
  destruct Htr; cbn [User.step User.set_language User.set_step User.set_tempData
                     User.set_businessName User.set_amount in_payment_flow];
    try discriminate; try exact Hflow; intros _.
  - assumption.
  - apply Hflow. rewrite H. reflexivity.
Qed.

Lemma profile_ok_grown w w' k b :
  grown w w' -> profile_ok w k b -> profile_ok w' k b.
Proof.
  intros [Hu _] (H1 & H2 & H3 & H4 & H5 & H6). repeat split; try assumption.
  - apply Hu, H5.
  - apply H6.
  - apply H6.
  - apply H6.
Qed.

Lemma record_ok_grown w w' k p :
  grown w w' -> record_ok w k p -> record_ok w' k p.
Proof.
  intros [Hu Hb] (H1 & H2 & H3 & H4 & H5 & H6). repeat split; try assumption.
  - apply Hb, H5.
  - apply Hu, H6.
Qed.

Lemma record_ok_terms w k p p' :
  same_terms p p' -> record_ok w k p -> record_ok w k p'.
Proof.
  intros (E1 & E2 & E3 & E4 & _) (H1 & H2 & H3 & H4 & H5 & H6).
  unfold record_ok. rewrite E1, E2, E3, E4. repeat split; assumption.
Qed.

Lemma insert_is_Some {K A} `{Countable K} (m : gmap K A) i x j :
  is_Some (m !! j) -> is_Some (<[i := x]> m !! j).
Proof. intros Hj. apply lookup_insert_is_Some'. right. exact Hj. Qed.

Lemma written_grown chatId paymentId w u' b p out :
  grown w (written chatId paymentId w u' b p out).
Proof.
  split; intros k Hk; cbn [users businesses written].
  - apply insert_is_Some, Hk.
  - destruct b; [apply insert_is_Some |]; exact Hk.
Qed.

(** A branch of the message handler keeps the stores consistent. *)
Lemma written_consistent env chatId text w u' b p out :
  consistent w ->
  transition env chatId text (businesses w !! businessId_of chatId)
    (fst (getUser chatId w)) u' b p ->
  consistent (written chatId (generatePaymentId env) w u' b p out).
Proof.
  intros Hw Htr. destruct (getUser_ok w chatId Hw) as [Hok Hflow].
  pose proof (written_grown chatId (generatePaymentId env) w u' b p out) as Hgrown.
  destruct Hw as (Hs & Hf & Hb & Hp).
  set (w' := written chatId (generatePaymentId env) w u' b p out) in *.
  assert (Hme : is_Some (users w' !! chatId)).
  { cbn [users w' written]. rewrite lookup_insert_eq. eauto. }
  split; [| split; [| split]].
  - cbn [users w' written]. apply map_Forall_insert_2; [| exact Hs].
    exact (transition_session _ _ _ _ _ _ _ _ Htr Hok).
  - cbn [users w' written]. apply map_Forall_insert_2.
    + intros Hin. apply (proj2 Hgrown).
      exact (transition_flow _ _ _ _ _ _ _ _ Htr Hflow Hin).
    + intros c u Hc Hin. apply (proj2 Hgrown). exact (Hf c u Hc Hin).
  - assert (Hold : map_Forall (profile_ok w') (businesses w)).
    { intros k b0 Hk. apply (profile_ok_grown w w' k b0 Hgrown), (Hb k b0 Hk). }
    cbn [businesses w' written]. destruct b as [nb |]; [| exact Hold].
    apply map_Forall_insert_2; [| exact Hold].
    inversion Htr; subst.
    destruct Hok as (_ & Hname & _).
    repeat split; cbn [Business.ownerId Business.id Business.name Business.phone
                       Business.totalSales Business.todaySales
                       Business.transactionCount]; try reflexivity.
    + apply Hname. assumption.
    + rewrite validatePhone_trim. assumption.
    + exact Hme.
  - assert (Hold : map_Forall (record_ok w') (payments w)).
    { intros k p0 Hk. apply (record_ok_grown w w' k p0 Hgrown), (Hp k p0 Hk). }
    cbn [payments w' written]. destruct p as [np |]; [| exact Hold].
    apply map_Forall_insert_2; [| exact Hold].
    inversion Htr; subst.
    destruct Hok as (_ & _ & Hamount).
    repeat split; cbn [new_payment Payment.id Payment.amount Payment.description
                       Payment.merchantId]; try reflexivity.
    + apply generatePaymentId_prefix.
    + apply Hamount. assumption.
    + apply trim_bare.
    + apply (proj2 Hgrown), Hflow.
      match goal with H : User.step _ = payment_description |- _ => rewrite H end.
      reflexivity.
    + exact Hme.
Qed.

(** Every handler keeps the stores consistent. *)
Lemma handle_consistent env e w : consistent w -> consistent (handle cfg env e w).
Proof.
  intros Hw. destruct e as [chatId text | paymentId | body]; cbn [handle].
  - destruct (receive_written cfg env chatId text w)
      as [-> | (t & u' & b & p & out & _ & Htr & _ & ->)]; [exact Hw |].
    exact (written_consistent env chatId t w u' b p out Hw Htr).
  - destruct (pay_page_written cfg env paymentId w) as [-> | (p & Hp & _ & ->)];
      [exact Hw |].
    destruct Hw as (Hs & Hf & Hb & Hpay). split; [| split; [| split]]; try assumption.
    cbn [payments set_payments]. apply map_Forall_insert_2.
    + apply (record_ok_terms _ _ p); [repeat split | exact (Hpay _ _ Hp)].
    + exact Hpay.
  - destruct (callback_written env body w) as [-> | (key & p & Hcart & Hp)];
      [exact Hw |].
    destruct (callback_found env body w key p Hcart Hp)
      as (p' & o & Epay & _ & Eusers & Ebus & Hterms & _).
    set (w' := fst (paytabs_callback env body w)) in *.
    destruct Hw as (Hs & Hf & Hb & Hpay).
    pose proof (Hpay _ _ Hp) as Hrec.
    destruct Hrec as (_ & _ & (a & Ha & Hstored) & _ & Hprofile & Hsession).
    destruct Hsession as [um Hum].
    assert (Eu : users w' = users w).
    { rewrite Eusers, (getUser_known _ _ _ Hum). reflexivity. }
    assert (Hgrown : grown w w').
    { split; intros k Hk; [rewrite Eu; exact Hk |].
      destruct Ebus as [-> | (b0 & _ & ->)]; [exact Hk | apply insert_is_Some, Hk]. }
    split; [| split; [| split]].
    + rewrite Eu. exact Hs.
    + rewrite Eu. intros c u Hc Hin. apply (proj2 Hgrown). exact (Hf c u Hc Hin).
    + assert (Hold : map_Forall (profile_ok w') (businesses w)).
      { intros k b0 Hk. apply (profile_ok_grown w w' k b0 Hgrown), (Hb k b0 Hk). }
      destruct Ebus as [-> | (b0 & Hb0 & ->)]; [exact Hold |].
      apply map_Forall_insert_2; [| exact Hold].
      destruct (Hold _ _ Hb0) as (H1 & H2 & H3 & H4 & H5 & H6 & H7 & H8).
      unfold record_sale. rewrite Ha.
      repeat split; cbn [Business.ownerId Business.id Business.name Business.phone
                         Business.totalSales Business.todaySales
                         Business.transactionCount add_amount]; try assumption.
      * rewrite H6. reflexivity.
      * apply add_nonnegative; assumption.
      * apply add_nonnegative; [assumption | apply stored_amount_one].
    + assert (Hold : map_Forall (record_ok w') (payments w)).
      { intros k p0 Hk. apply (record_ok_grown w w' k p0 Hgrown), (Hpay k p0 Hk). }
      rewrite Epay. apply map_Forall_insert_2; [| exact Hold].
      apply (record_ok_terms _ _ p p' Hterms), (Hold _ _ Hp).
Qed.

Lemma initial_consistent : consistent initial.
Proof. split; [| split; [| split]]; apply map_Forall_empty. Qed.

Lemma reachable_consistent w : reachable cfg w -> consistent w.
Proof.
  induction 1 as [| env e w _ IH]; [apply initial_consistent |].
  apply handle_consistent, IH.
Qed.

End Consistency.

(* ===================================================================== *)
(** * The labels of the keyboards *)
(* ===================================================================== *)

Section LabelFacts.

(** No text of the language table is empty, is a command, or is a button
    of the language keyboard. *)
Lemma lang_plain l k :
  lang l k <> []
  /\ JSString.startsWith (lang l k) (JSString.lit "/") = false
  /\ lang l k <> arabic_button /\ lang l k <> english_button.
Proof.
  destruct l, k; (split; [discriminate |]); (split; [reflexivity |]);
    split; intros H; vm_compute in H; discriminate H.
Qed.

(** The five labels of the main menu of a language are five texts. *)
Lemma menu_labels_differ l :
  lang l create_payment <> lang l business_register
  /\ lang l view_dashboard <> lang l business_register
  /\ lang l view_dashboard <> lang l create_payment
  /\ lang l help <> lang l business_register
  /\ lang l help <> lang l create_payment
  /\ lang l help <> lang l view_dashboard
  /\ lang l settings <> lang l business_register
  /\ lang l settings <> lang l create_payment
  /\ lang l settings <> lang l view_dashboard
  /\ lang l settings <> lang l help.
Proof.
  destruct l; repeat split; intros H; vm_compute in H; discriminate H.
Qed.

Lemma idle_step s :
  idle s = true ->
  s <> register_name /\ s <> register_phone
  /\ s <> payment_amount /\ s <> payment_description.
Proof. destruct s; intros H; try discriminate H; repeat split; discriminate. Qed.

Lemma includes_app p rest : includes (p ++ rest) p = true.
Proof.
  destruct (p ++ rest) eqn:E; cbn [includes]; rewrite <- E, startsWith_app;
    reflexivity.
Qed.

End LabelFacts.

(* ===================================================================== *)
(** * The sizes of the stores *)
(* ===================================================================== *)

Section Counts.

Lemma size_grown {K A B} `{Countable K} (m : gmap K A) (m' : gmap K B) :
  (forall k, is_Some (m !! k) -> is_Some (m' !! k)) -> (size m <= size m')%nat.
Proof.
  intros Hsub. rewrite <- !(size_dom (D := gset K)). apply subseteq_size.
  intros k. rewrite !elem_of_dom. apply Hsub.
Qed.

(** A map whose keys are all written from keys of another map has no more
    entries than that one. *)
Lemma size_keys {A B} (U : gmap Z A) (P : gmap jsstring B) :
  (forall k, is_Some (P !! k) -> exists c, k = businessId_of c /\ is_Some (U !! c)) ->
  (size P <= size U)%nat.
Proof.
  intros Hkeys.
  assert (Hinj : Inj (=) (=) businessId_of) by (intros c d; apply businessId_of_inj).
  transitivity (size (kmap (M2 := gmap jsstring) businessId_of U)).
  - apply size_grown. intros k Hk. apply lookup_kmap_is_Some; [exact Hinj |].
    destruct (Hkeys k Hk) as (c & -> & Hc). eauto.
  - rewrite <- !length_map_to_list, map_to_list_kmap, length_fmap;
      [reflexivity | exact Hinj].
Qed.

End Counts.

(* ===================================================================== *)
(** * The run of the examples *)
(* ===================================================================== *)

Section Demo.

Lemma demo_reachable : reachable demo_cfg demo_world.
Proof. apply reachable_run. constructor. Qed.

Lemma demo_stores :
  users demo_world !! 42%Z = Some demo_session
  /\ businesses demo_world !! businessId_of 42 = Some demo_business
  /\ payments demo_world !! generatePaymentId demo_env = Some demo_payment.
Proof. vm_compute. repeat split; reflexivity. Qed.

End Demo.

(* ===================================================================== *)
(** * The scenarios of the specification, run on the model *)
(* ===================================================================== *)

Section Scenarios.

Let cfg : Config :=
  {| WEBHOOK_URL := JSString.lit "https://dafi.example";
     PAYTABS_SERVER_KEY := None; PAYTABS_PROFILE_ID := None |}.

Let env : Env :=
  {| clock := fun n => (1700000000000 + Z.of_nat n)%Z;
     randomBytes := [222; 173; 190; 239]%N;
     toDataURL := fun _ => Some (JSString.lit "data:image/png;base64,iVBORw0KGgo=");
     delivered := fun _ => true;
     paytabs_data := None |}.

Let says (s : string) : Env * Event := (env, Message 42 (Some (JSString.lit s))).

Let paymentId : jsstring := JSString.lit "DAFI_1700000000000_deadbeef".

(** Scenario A: registration. *)
Let registered : World :=
  run cfg (map says [ "/start"; "🇺🇸 English"; "📝 Register Business";
                      "Acme Foods"; "+966501234567" ]%string) initial.

(** Scenario B: a payment of 250 for a coffee order. *)
Let requested : World :=
  run cfg (map says [ "💳 Create Payment Link"; "250"; "Coffee order" ]%string)
    registered.

Example literal_arabic_button :
  arabic_button
  = [55356; 56824; 55356; 56806; 32; 1575; 1604; 1593; 1585; 1576; 1610; 1577]%N.
Proof. reflexivity. Qed.

Example literal_english_button :
  english_button
  = [55356; 56826; 55356; 56824; 32; 69; 110; 103; 108; 105; 115; 104]%N.
Proof. reflexivity. Qed.

Example payment_id_format : generatePaymentId env = paymentId.
Proof. reflexivity. Qed.

Example business_id_format : businessId_of (-1001234) = JSString.lit "BIZ_-1001234".
Proof. reflexivity. Qed.

Example phone_boundaries :
  map (fun s => validatePhone (JSString.lit s))
      [ "+966501234567"; "1"; "12"; "123456789012345"; "1234567890123456";
        "0123"; "+"; "12a"; "notaphone"; ""; " 1 2 " ]%string
  = [ true; false; true; true; false; false; false; false; false; false; true ].
Proof. reflexivity. Qed.

Example parseFloat_values :
  map (fun s => Number.parseFloat (JSString.lit s))
      [ "250"; "250abc"; "  2.5e2"; "-0"; "abc"; "."; "-Infinity" ]%string
  = [ Number.of_Z 250; Number.of_Z 250; Number.of_Z 250; S754_zero true;
      Number.NaN; Number.NaN; S754_infinity true ].
Proof. reflexivity. Qed.

Example literal_values :
  map (fun s => Number.literal (JSString.lit s))
      [ " 250 SAR"; "2.5e2"; ".5"; "5."; "1e"; "-12.50"; "+Infinity"; "SAR 250";
        "." ]%string
  = [ Number.Decimal false 250 0; Number.Decimal false 25 1;
      Number.Decimal false 5 (-1); Number.Decimal false 5 0;
      Number.Decimal false 1 0; Number.Decimal true 1250 (-2);
      Number.Infinite false; Number.NoLiteral; Number.NoLiteral ].
Proof. reflexivity. Qed.

Example amount_boundaries :
  map (fun s => validateAmount (JSString.lit s))
      [ "1"; "50000"; "0.99"; "50000.01"; "99.99"; "1e3"; "5e4"; "1e5"; "0";
        "-5"; "abc"; ""; "Infinity"; "12 apples"; "50000.0000000000001" ]%string
  = [ true; true; false; false; true; true; true; false; false;
      false; false; false; false; true; true ].
Proof. reflexivity. Qed.

(** The decimals next to the two ends of the range: [0.99999999999999995]
    is nearer to 1 than to the binary64 number below it, and
    [50000.000000000003] is nearer to 50000 than to the one above it. *)
Example amount_rounding :
  map (fun s => validateAmount (JSString.lit s))
      [ "0.9999999999999999"; "0.99999999999999995"; "50000.000000000003";
        "50000.000000000004" ]%string
  = [ false; true; true; false ].
Proof. reflexivity. Qed.

Example scenario_A :
  users registered !! 42%Z
  = Some {| User.id := 42; User.language := en; User.step := main;
            User.tempData := User.no_tempData |}
  /\ businesses registered !! businessId_of 42
     = Some {| Business.id := JSString.lit "BIZ_42"; Business.ownerId := 42;
               Business.name := Some (JSString.lit "Acme Foods");
               Business.phone := JSString.lit "+966501234567";
               Business.createdAt := 1700000000000;
               Business.totalSales := Number.zero;
               Business.todaySales := Number.zero;
               Business.transactionCount := Number.zero |}.
Proof. vm_compute. split; reflexivity. Qed.

Example scenario_B :
  payments requested !! paymentId
  = Some {| Payment.id := paymentId; Payment.merchantId := 42;
            Payment.amount := Some (Number.of_Z 250);
            Payment.description := JSString.lit "Coffee order";
            Payment.status := pending;
            Payment.createdAt := 1700000000001;
            Payment.expiresAt := 1700086400002;
            Payment.transactionRef := None; Payment.completedAt := None;
            Payment.failureReason := None |}
  /\ last (outbox requested)
     = Some (sendPhoto 42 (JSString.lit "iVBORw0KGgo=")
               (PaymentCreatedText en (Some (Number.of_Z 250))
                  (JSString.lit "Coffee order")
                  (JSString.lit "https://dafi.example/pay/DAFI_1700000000000_deadbeef"))
               (main_keyboard en)).
Proof. vm_compute. split; reflexivity. Qed.

(** Scenario E: a visit after the expiry. *)
Example scenario_E :
  let late := {| clock := fun _ => 1700086400003%Z; randomBytes := [];
                 toDataURL := fun _ => None; delivered := fun _ => true;
                 paytabs_data := None |} in
  snd (pay_page cfg late paymentId requested) = ExpiredPage
  /\ Payment.status <$> payments (fst (pay_page cfg late paymentId requested))
                          !! paymentId
     = Some expired
  /\ snd (pay_page cfg env paymentId requested)
     = DemoPage (Some (Number.of_Z 250)) (JSString.lit "Coffee order").
Proof. vm_compute. repeat split; reflexivity. Qed.

(** Scenario F: an invalid phone. *)
Example scenario_F :
  let w := run cfg (map says [ "📝 Register Business"; "Acme Foods";
                               "notaphone" ]%string) initial in
  User.step <$> users w !! 42%Z = Some register_phone
  /\ businesses w = ∅
  /\ last (outbox w) = Some (sendMessage 42 (Plain (lang en invalid_phone)) NoMarkup).
Proof. vm_compute. repeat split; reflexivity. Qed.

End Scenarios.

(* ===================================================================== *)
(** * The validators *)
(* ===================================================================== *)

(** C7, as the specification states it, fails: the text [250abc] is not a
    numeral, and amount validation accepts it, because [parseFloat] reads
    the numeral at its head and ignores what follows. *)
Lemma validateAmount_accepts_trailing_text :
  validateAmount (JSString.lit "250abc") = true
  /\ spec_numeric (JSString.lit "250abc") = false.
Proof. split; reflexivity. Qed.

(** C7, amended: amount validation looks at the decimal literal that
    [parseFloat] reads at the head of the input, after the white space, and
    ignores the text that follows the literal. The input is accepted
    exactly when there is such a literal, it has no minus sign, and its
    exact value [v] has [1 - 2 ^ -54 <= v <= 50000 + 2 ^ -38]: these are the
    decimals whose nearest binary64 number is in the range 1 to 50000.
    An input with no literal at its head, or with [Infinity], is
    rejected. *)
Theorem validateAmount_literal (s : jsstring) :
  validateAmount s
  = match Number.literal s with
    | Number.Decimal false m k => rounds_into_range m k
    | _ => false
    end.
Proof.
  unfold validateAmount, Number.parseFloat. cbv zeta.
  rewrite range_check_value. reflexivity.
Qed.

(** For an integer literal the rounding plays no part: an input made of
    white space, an integer numeral and a text that does not continue the
    numeral is accepted exactly when the integer is in the range 1 to
    50000. *)
Lemma validateAmount_integer_prefix (ws ds t : jsstring) :
  forallb JSString.is_space ws = true ->
  ds <> [] -> forallb JSString.is_digit ds = true ->
  ends_numeral t = true ->
  validateAmount (ws ++ ds ++ t)
  = ((1 <=? Number.digits_value ds)%N && (Number.digits_value ds <=? 50000)%N).
Proof.
  intros Hws Hne Hds Ht. unfold validateAmount, Number.parseFloat. cbv zeta.
  rewrite range_check_value, (literal_integer ws ds t Hws Hne Hds Ht).
  apply rounds_into_range_integer.
Qed.

(** An input whose first character after the white space cannot start a
    numeral is rejected. *)
Lemma validateAmount_no_numeral (s : jsstring) :
  starts_no_numeral (JSString.trimStart s) = true ->
  validateAmount s = false.
Proof.
  intros Hs. unfold validateAmount, Number.parseFloat. cbv zeta.
  rewrite range_check_value.
  destruct (literal_no_numeral s Hs) as [-> | ->]; reflexivity.
Qed.

(** C8, as the specification states it, fails: a number written with
    spaces is not in the stated format, and phone validation accepts it,
    because the white space is removed before the pattern is tried. *)
Lemma validatePhone_accepts_spaces :
  validatePhone (JSString.lit "+966 50 123 4567") = true
  /\ spec_phone_format (JSString.lit "+966 50 123 4567") = false.
Proof. split; reflexivity. Qed.

(** C8, amended: phone validation accepts an input exactly when what is
    left of it once every white space character is removed is an optional
    leading [+] followed by 2 to 15 digits, the first of which is not 0. *)
Theorem validatePhone_format (phone : jsstring) :
  validatePhone phone = spec_phone_format (JSString.remove_spaces phone).
Proof. unfold validatePhone. apply phoneRegex_format. Qed.

(* ===================================================================== *)
(** * The settlement handler *)
(* ===================================================================== *)






(** C1, at a failing input: the handler never looks at the status of the
    record. A record that a first notification has completed is settled
    again by a second success notification, which adds its amount to the
    totals of the Business Profile a second time, and is turned into
    [failed] by a notification with another outcome. *)
Theorem settlement_is_repeated :
  let p := {| Payment.id := JSString.lit "DAFI_1_00";
              Payment.merchantId := 42;
              Payment.amount := Some (Number.of_Z 250);
              Payment.description := JSString.lit "Coffee order";
              Payment.status := pending;
              Payment.createdAt := 1; Payment.expiresAt := 86400001;
              Payment.transactionRef := None; Payment.completedAt := None;
              Payment.failureReason := None |} in
  let b := {| Business.id := businessId_of 42; Business.ownerId := 42;
              Business.name := Some (JSString.lit "Acme Foods");
              Business.phone := JSString.lit "+966501234567";
              Business.createdAt := 0;
              Business.totalSales := Number.zero;
              Business.todaySales := Number.zero;
              Business.transactionCount := Number.zero |} in
  let w := {| users := ∅; businesses := {[ businessId_of 42 := b ]};
              payments := {[ JSString.lit "DAFI_1_00" := p ]}; outbox := [] |} in
  let success := {| tran_ref := Value.Str (JSString.lit "TST2001");
                    payment_result :=
                      Value.Obj [(JSString.lit "response_status",
                                  Value.Str (JSString.lit "A"))];
                    cart_id := Value.Str (JSString.lit "DAFI_1_00") |} in
  let failure := {| tran_ref := Value.Str (JSString.lit "TST2002");
                    payment_result :=
                      Value.Obj [(JSString.lit "response_status",
                                  Value.Str (JSString.lit "D"))];
                    cart_id := Value.Str (JSString.lit "DAFI_1_00") |} in
  let env := {| clock := fun _ => 5000%Z; randomBytes := [];
                toDataURL := fun _ => None; delivered := fun _ => true;
                paytabs_data := None |} in
  let w1 := fst (paytabs_callback env success w) in
  let w2 := fst (paytabs_callback env success w1) in
  let w3 := fst (paytabs_callback env failure w1) in
  (Payment.status <$> payments w1 !! JSString.lit "DAFI_1_00" = Some completed
   /\ Business.totalSales <$> businesses w1 !! businessId_of 42
      = Some (Number.of_Z 250)
   /\ Business.transactionCount <$> businesses w1 !! businessId_of 42
      = Some (Number.of_Z 1))
  /\ (Business.totalSales <$> businesses w2 !! businessId_of 42
      = Some (Number.of_Z 500)
      /\ Business.todaySales <$> businesses w2 !! businessId_of 42
         = Some (Number.of_Z 500)
      /\ Business.transactionCount <$> businesses w2 !! businessId_of 42
         = Some (Number.of_Z 2))
  /\ (Payment.status <$> payments w3 !! JSString.lit "DAFI_1_00" = Some failed
      /\ Payment.failureReason <$> payments w3 !! JSString.lit "DAFI_1_00"
         = Some (Some (Value.Str (JSString.lit "Unknown error")))).
Proof. vm_compute. repeat split; reflexivity. Qed.

(* ===================================================================== *)
(** * The public payment page *)
(* ===================================================================== *)

(** C9: a visit of the payment page writes nothing but the status of the
    visited record, and that only from [pending] to [expired]: the record
    becomes [expired], every other field kept, exactly when it is pending
    and the clock is past [expiresAt]; in every other case (unknown
    identifier, record that is not pending, record still valid, whatever
    the gateway answers) the stores are left as they are. *)
Theorem pay_page_only_expires cfg env paymentId w :
  let '(w', page) := pay_page cfg env paymentId w in
  users w' = users w /\ businesses w' = businesses w /\ outbox w' = outbox w
  /\ match payments w !! paymentId with
     | Some p =>
       if bool_decide (Payment.status p = pending)
          && (clock env 0 >? Payment.expiresAt p)%Z
       then
         page = ExpiredPage
         /\ payments w'
            = <[paymentId := {| Payment.id := Payment.id p;
                                Payment.merchantId := Payment.merchantId p;
                                Payment.amount := Payment.amount p;
                                Payment.description := Payment.description p;
                                Payment.status := expired;
                                Payment.createdAt := Payment.createdAt p;
                                Payment.expiresAt := Payment.expiresAt p;
                                Payment.transactionRef := Payment.transactionRef p;
                                Payment.completedAt := Payment.completedAt p;
                                Payment.failureReason := Payment.failureReason p |}]>
              (payments w)
       else w' = w /\ page <> ExpiredPage
     | None => w' = w /\ page = NotFoundPage
     end.
Proof.
  unfold pay_page. destruct (payments w !! paymentId) as [p |] eqn:Hp; [| auto].
  destruct (bool_decide (Payment.status p = pending)); cbn [negb andb].
  - destruct (clock env 0 >? Payment.expiresAt p)%Z; [cbn; auto |].
    destruct (credentials_missing cfg); [repeat split; discriminate |].
    destruct (createPayTabsPayment cfg env) as [r |]; [| repeat split; discriminate].
    destruct (Value.nullish r); [repeat split; discriminate |].
    destruct (Value.truthy _); repeat split; discriminate.
  - repeat split; discriminate.
Qed.

(* ===================================================================== *)
(** * The conversation engine *)
(* ===================================================================== *)

(** C5, as the specification states it, fails: for a user who is asked for
    the phone, the label that starts a registration does not pass the phone
    validation, and yet no invalid-phone prompt is sent and the session
    does not stay in the step: it goes back to the step of the name. *)
Lemma register_label_leaves_phone_step :
  let cfg := {| WEBHOOK_URL := JSString.lit "https://dafi.example";
                PAYTABS_SERVER_KEY := None; PAYTABS_PROFILE_ID := None |} in
  let env := {| clock := fun _ => 5000%Z; randomBytes := [];
                toDataURL := fun _ => None; delivered := fun _ => true;
                paytabs_data := None |} in
  let u := {| User.id := 42; User.language := en; User.step := register_phone;
              User.tempData := {| User.businessName := Some (JSString.lit "Acme Foods");
                                  User.amount := None |} |} in
  let w := {| users := {[ 42%Z := u ]}; businesses := ∅; payments := ∅;
              outbox := [] |} in
  let text := lang en business_register in
  let w' := on_message cfg env 42 (Some text) w in
  validatePhone text = false
  /\ User.step <$> users w' !! 42%Z = Some register_name
  /\ outbox w'
     = [sendMessage 42 (Plain (lang en enter_business_name)) RemoveKeyboard].
Proof. vm_compute. repeat split; reflexivity. Qed.

(** C5, amended: for a user who is asked for the phone, a text that passes
    the phone validation creates or overwrites the Business Profile of the
    user, with the stashed name, the trimmed text as phone and the three
    counters at zero, empties the input buffer, moves the session to [main]
    and confirms. A text that does not pass it, and that is not a command,
    a button of the language keyboard or the label that starts a
    registration, is answered with the invalid-phone prompt and changes
    neither the session nor any Business Profile. *)
Theorem register_phone_step cfg env chatId text w u :
  users w !! chatId = Some u ->
  User.step u = register_phone ->
  let l := User.language u in
  let w' := on_message cfg env chatId (Some text) w in
  (validatePhone text = true ->
   businesses w'
   = <[businessId_of chatId :=
         {| Business.id := businessId_of chatId;
            Business.ownerId := chatId;
            Business.name := User.businessName (User.tempData u);
            Business.phone := JSString.trim text;
            Business.createdAt := clock env 0;
            Business.totalSales := Number.zero;
            Business.todaySales := Number.zero;
            Business.transactionCount := Number.zero |}]> (businesses w)
   /\ users w'
      = <[chatId := {| User.id := User.id u; User.language := l;
                       User.step := main;
                       User.tempData := User.no_tempData |}]> (users w)
   /\ payments w' = payments w
   /\ outbox w'
      = outbox w
        ++ sent env chatId l
             (sendMessage chatId (BusinessRegisteredText l None) (main_keyboard l)))
  /\ (validatePhone text = false ->
      text <> [] -> JSString.startsWith text (JSString.lit "/") = false ->
      text <> arabic_button -> text <> english_button ->
      text <> lang l business_register ->
      users w' = users w /\ businesses w' = businesses w
      /\ payments w' = payments w
      /\ outbox w'
         = outbox w
           ++ sent env chatId l
                (sendMessage chatId (Plain (lang l invalid_phone)) NoMarkup)).
Proof.
  intros Hu Hstep l w'. split.
  - intros Hv.
    destruct (phone_text_plain text l Hv) as (Hne & Hslash & Har & Hen & Hreg).
    subst w'. rewrite (on_message_text _ _ _ _ _ Hne Hslash).
    unfold on_text. rewrite (getUser_known _ _ _ Hu). fold l. skip_tests.
    unfold on_register_phone. rewrite Hv. cbn [negb]. cbv zeta.
    erewrite getMainMenu_known by user_lookup.
    erewrite await_send_known by user_lookup.
    stores. repeat split; reflexivity.
  - intros Hv Hne Hslash Har Hen Hreg.
    subst w'. rewrite (on_message_text _ _ _ _ _ Hne Hslash).
    unfold on_text. rewrite (getUser_known _ _ _ Hu). fold l. skip_tests.
    unfold on_register_phone. rewrite Hv. cbn [negb].
    erewrite await_send_known by user_lookup.
    stores. repeat split; reflexivity.
Qed.

(** The two parts of the statement above, at [+966501234567] and at
    [notaphone]. *)
Lemma register_phone_step_witness :
  let cfg := {| WEBHOOK_URL := JSString.lit "https://dafi.example";
                PAYTABS_SERVER_KEY := None; PAYTABS_PROFILE_ID := None |} in
  let env := {| clock := fun _ => 5000%Z; randomBytes := [];
                toDataURL := fun _ => None; delivered := fun _ => true;
                paytabs_data := None |} in
  let u := {| User.id := 42; User.language := en; User.step := register_phone;
              User.tempData := {| User.businessName := Some (JSString.lit "Acme Foods");
                                  User.amount := None |} |} in
  let w := {| users := {[ 42%Z := u ]}; businesses := ∅; payments := ∅;
              outbox := [] |} in
  Business.name <$> businesses
      (on_message cfg env 42 (Some (JSString.lit "+966501234567")) w)
      !! businessId_of 42
  = Some (Some (JSString.lit "Acme Foods"))
  /\ businesses (on_message cfg env 42 (Some (JSString.lit "notaphone")) w) = ∅.
Proof.
  intros cfg env u w.
  pose proof (register_phone_step cfg env 42 (JSString.lit "+966501234567") w u
                (lookup_singleton_eq _ _) eq_refl) as [Hok _].
  pose proof (register_phone_step cfg env 42 (JSString.lit "notaphone") w u
                (lookup_singleton_eq _ _) eq_refl) as [_ Hbad].
  cbv zeta in Hok, Hbad. split.
  - destruct (Hok eq_refl) as (Hb & _). rewrite Hb, lookup_insert_eq. reflexivity.
  - assert (H1 : JSString.lit "notaphone" <> []) by discriminate.
    assert (H2 : JSString.lit "notaphone" <> arabic_button) by discriminate.
    assert (H3 : JSString.lit "notaphone" <> english_button) by discriminate.
    assert (H4 : JSString.lit "notaphone" <> lang en business_register) by discriminate.
    destruct (Hbad eq_refl H1 eq_refl H2 H3 H4) as (_ & Hb & _). exact Hb.
Defined.

(** C4, as the specification states it, fails, in three ways. For a user
    who is asked for the description, with an amount in the buffer:
    a button of the language keyboard is a text message, and it creates no
    Payment Record (the language is changed, and the session stays in the
    step with its buffer); the identifier is made of the reading of the
    clock and four random bytes, and when the ledger has a record under
    it, here one of another merchant, the description replaces that
    record and the ledger does not grow; and when the data URL of the QR
    image has no comma, the record is stored and the only reply is the
    error message, so that the link is not delivered. *)
Lemma payment_description_exceptions :
  let cfg := {| WEBHOOK_URL := JSString.lit "https://dafi.example";
                PAYTABS_SERVER_KEY := None; PAYTABS_PROFILE_ID := None |} in
  let env := {| clock := fun _ => 1700000000000%Z;
                randomBytes := [222; 173; 190; 239]%N;
                toDataURL := fun _ => None; delivered := fun _ => true;
                paytabs_data := None |} in
  let no_comma := {| clock := clock env; randomBytes := randomBytes env;
                     toDataURL := fun _ => Some (JSString.lit "data:image/png");
                     delivered := fun _ => true; paytabs_data := None |} in
  let u := {| User.id := 42; User.language := en; User.step := payment_description;
              User.tempData := {| User.businessName := None;
                                  User.amount := Some (Number.of_Z 250) |} |} in
  let paymentId := JSString.lit "DAFI_1700000000000_deadbeef" in
  let other := {| Payment.id := paymentId;
                  Payment.merchantId := 7;
                  Payment.amount := Some (Number.of_Z 900);
                  Payment.description := JSString.lit "Catering";
                  Payment.status := pending;
                  Payment.createdAt := 1700000000000;
                  Payment.expiresAt := 1700086400000;
                  Payment.transactionRef := None; Payment.completedAt := None;
                  Payment.failureReason := None |} in
  let w := {| users := {[ 42%Z := u ]}; businesses := ∅; payments := ∅;
              outbox := [] |} in
  let taken := {| users := {[ 42%Z := u ]}; businesses := ∅;
                  payments := {[ paymentId := other ]}; outbox := [] |} in
  let button := on_message cfg env 42 (Some arabic_button) w in
  let replaced := on_message cfg env 42 (Some (JSString.lit "Coffee order")) taken in
  let unsent := on_message cfg no_comma 42 (Some (JSString.lit "Coffee order")) w in
  (payments button = ∅
   /\ users button !! 42%Z = Some (User.set_language ar u))
  /\ (generatePaymentId env = paymentId
      /\ Payment.merchantId <$> payments taken !! paymentId = Some 7%Z
      /\ Payment.merchantId <$> payments replaced !! paymentId = Some 42%Z
      /\ size (payments replaced) = size (payments taken))
  /\ (is_Some (payments unsent !! paymentId)
      /\ outbox unsent = [error_reply 42 en]).
Proof. vm_compute. repeat split; try reflexivity. eexists. reflexivity. Qed.

(** C4, amended: for a user who is asked for the description, with an
    amount in the buffer, a text that is not a command, a button of the
    language keyboard, or the label that starts a registration or a payment
    stores a Payment Record under a newly generated identifier, in the
    place of the record that the ledger has under that identifier, if any
    (the ledger grows by one record exactly when it has none): a pending
    record with the stashed amount, the trimmed text as description and an
    expiry 24 hours after the reading of the clock. The buffer is emptied
    and the session moved to [main], whatever the encoder of the QR image
    and the transport do. When the encoder fails or gives the empty
    string, the message with the link is sent as text; when it gives a data
    URL with a comma, the message is the caption of the image; when it
    gives a data URL without a comma, the only reply is the error message.
    A message or an image that the transport does not deliver is followed
    by the error message. *)
Theorem payment_description_step cfg env chatId text w u a :
  users w !! chatId = Some u ->
  User.step u = payment_description ->
  User.amount (User.tempData u) = Some a ->
  text <> [] -> JSString.startsWith text (JSString.lit "/") = false ->
  text <> arabic_button -> text <> english_button ->
  text <> lang (User.language u) business_register ->
  text <> lang (User.language u) create_payment ->
  let l := User.language u in
  let paymentId := generatePaymentId env in
  let paymentUrl := WEBHOOK_URL cfg ++ JSString.lit "/pay/" ++ paymentId in
  let message := PaymentCreatedText l (Some a) (JSString.trim text) paymentUrl in
  let w' := on_message cfg env chatId (Some text) w in
  payments w'
  = <[paymentId := {| Payment.id := paymentId;
                      Payment.merchantId := chatId;
                      Payment.amount := Some a;
                      Payment.description := JSString.trim text;
                      Payment.status := pending;
                      Payment.createdAt := clock env 1;
                      Payment.expiresAt := clock env 2 + 86400000;
                      Payment.transactionRef := None;
                      Payment.completedAt := None;
                      Payment.failureReason := None |}]> (payments w)
  /\ size (payments w')
     = match payments w !! paymentId with
       | Some _ => size (payments w)
       | None => S (size (payments w))
       end
  /\ users w'
     = <[chatId := {| User.id := User.id u; User.language := l;
                      User.step := main;
                      User.tempData := User.no_tempData |}]> (users w)
  /\ businesses w' = businesses w
  /\ outbox w'
     = outbox w
       ++ match generateQR env paymentUrl with
          | None | Some [] =>
            sent env chatId l (sendMessage chatId message (main_keyboard l))
          | Some qrImage =>
            match split_comma_1 qrImage with
            | Some qrBuffer =>
              sent env chatId l (sendPhoto chatId qrBuffer message (main_keyboard l))
            | None => [error_reply chatId l]
            end
          end.
Proof.
  intros Hu Hstep Ha Hne Hslash Har Hen Hreg Hpay l paymentId paymentUrl message w'.
  assert (Hpayments : payments w' = <[paymentId := new_payment env chatId paymentId
                        (Some a) (JSString.trim text)]> (payments w)
          /\ users w'
             = <[chatId := {| User.id := User.id u; User.language := l;
                              User.step := main;
                              User.tempData := User.no_tempData |}]> (users w)
          /\ businesses w' = businesses w
          /\ outbox w'
             = outbox w
               ++ match generateQR env paymentUrl with
                  | Some ((_ :: _) as qrImage) =>
                    match split_comma_1 qrImage with
                    | Some qrBuffer =>
                      sent env chatId l
                        (sendPhoto chatId qrBuffer message (main_keyboard l))
                    | None => [error_reply chatId l]
                    end
                  | _ => sent env chatId l (sendMessage chatId message (main_keyboard l))
                  end).
  { subst w' message paymentUrl paymentId l.
    rewrite (on_message_text _ _ _ _ _ Hne Hslash).
    unfold on_text. rewrite (getUser_known _ _ _ Hu). cbv beta iota zeta. skip_tests.
    unfold on_payment_description. rewrite Ha. cbv zeta.
    destruct (generateQR env _) as [[| c q] |];
      [ | destruct (split_comma_1 (c :: q)) | ];
      repeat first [ erewrite getMainMenu_known by user_lookup
                   | erewrite await_send_known by user_lookup
                   | erewrite handleBotError_known by user_lookup ];
      stores; repeat split; reflexivity. }
  destruct Hpayments as (Hp & Hus & Hb & Ho).
  split; [exact Hp |]. split.
  { rewrite Hp. destruct (payments w !! paymentId) as [old |] eqn:Hold.
    - apply map_size_insert_Some. rewrite Hold. eauto.
    - apply map_size_insert_None, Hold. }
  split; [exact Hus |]. split; [exact Hb |].
  rewrite Ho. destruct (generateQR env paymentUrl) as [[| c q] |]; reflexivity.
Qed.

(** The statement above, for the description [ Coffee order ] of a payment
    of 250. *)
Lemma payment_description_step_witness :
  let cfg := {| WEBHOOK_URL := JSString.lit "https://dafi.example";
                PAYTABS_SERVER_KEY := None; PAYTABS_PROFILE_ID := None |} in
  let env := {| clock := fun n => (1700000000000 + Z.of_nat n)%Z;
                randomBytes := [222; 173; 190; 239]%N;
                toDataURL := fun _ => None; delivered := fun _ => true;
                paytabs_data := None |} in
  let u := {| User.id := 42; User.language := en; User.step := payment_description;
              User.tempData := {| User.businessName := None;
                                  User.amount := Some (Number.of_Z 250) |} |} in
  let w := {| users := {[ 42%Z := u ]}; businesses := ∅; payments := ∅;
              outbox := [] |} in
  let w' := on_message cfg env 42 (Some (JSString.lit " Coffee order ")) w in
  (Payment.description <$> payments w' !! JSString.lit "DAFI_1700000000000_deadbeef"
   = Some (JSString.lit "Coffee order"))
  /\ (Payment.expiresAt <$> payments w' !! JSString.lit "DAFI_1700000000000_deadbeef"
      = Some 1700086400002%Z)
  /\ size (payments w') = 1%nat.
Proof.
  intros cfg env u w w'.
  assert (H1 : JSString.lit " Coffee order " <> []) by discriminate.
  assert (H2 : JSString.lit " Coffee order " <> arabic_button) by discriminate.
  assert (H3 : JSString.lit " Coffee order " <> english_button) by discriminate.
  assert (H4 : JSString.lit " Coffee order " <> lang en business_register) by discriminate.
  assert (H5 : JSString.lit " Coffee order " <> lang en create_payment) by discriminate.
  pose proof (payment_description_step cfg env 42 (JSString.lit " Coffee order ") w u
                (Number.of_Z 250) (lookup_singleton_eq _ _) eq_refl eq_refl
                H1 eq_refl H2 H3 H4 H5) as H.
  cbv zeta in H. destruct H as (Hp & Hsize & _).
  change (payments (on_message cfg env 42 (Some (JSString.lit " Coffee order ")) w))
    with (payments w') in Hp, Hsize.
  split; [| split].
  - rewrite Hp. change (generatePaymentId env) with (JSString.lit "DAFI_1700000000000_deadbeef").
    rewrite lookup_insert_eq. reflexivity.
  - rewrite Hp. change (generatePaymentId env) with (JSString.lit "DAFI_1700000000000_deadbeef").
    rewrite lookup_insert_eq. reflexivity.
  - rewrite Hsize; reflexivity.
Defined.




(** C3, at a failing input: a user who has given the amount of a payment,
    and then presses the label that starts a registration, is in the step
    of the business name with the amount still in the buffer. The world
    below is reached from the empty stores by seven messages of one user. *)
Theorem stale_amount_in_registration :
  let cfg := {| WEBHOOK_URL := JSString.lit "https://dafi.example";
                PAYTABS_SERVER_KEY := None; PAYTABS_PROFILE_ID := None |} in
  let env := {| clock := fun n => (1700000000000 + Z.of_nat n)%Z;
                randomBytes := [222; 173; 190; 239]%N;
                toDataURL := fun _ => None; delivered := fun _ => true;
                paytabs_data := None |} in
  let says (s : string) := (env, Message 42 (Some (JSString.lit s))) in
  let texts := [ "🇺🇸 English"; "📝 Register Business"; "Acme Foods";
                 "+966501234567"; "💳 Create Payment Link"; "250";
                 "📝 Register Business" ]%string in
  let w := run cfg (map says texts) initial in
  reachable cfg w
  /\ users w !! 42%Z
     = Some {| User.id := 42; User.language := en; User.step := register_name;
               User.tempData := {| User.businessName := None;
                                   User.amount := Some (Number.of_Z 250) |} |}.
Proof.
  intros cfg env says texts w. split.
  - apply reachable_run. constructor.
  - vm_compute. reflexivity.
Qed.

(* ===================================================================== *)
(** * The rest of the code: names and identifiers *)
(* ===================================================================== *)

(** X1: the validation of a business name accepts a text exactly when what
    is left of it without the white space on its two sides has 2 to 100
    characters; an empty text and a text of white space are rejected. *)
Theorem validateBusinessName_trimmed (name : jsstring) :
  validateBusinessName name = true
  <-> exists ws1 core ws2,
        name = ws1 ++ core ++ ws2
        /\ forallb JSString.is_space ws1 = true
        /\ forallb JSString.is_space ws2 = true
        /\ bare core = true
        /\ (2 <= length core <= 100)%nat.
Proof.
  split.
  - intros H. destruct (validateBusinessName_stored name H) as [Hb Hl].
    destruct (trim_split name) as (ws1 & ws2 & Hs & H1 & H2).
    exists ws1, (JSString.trim name), ws2. auto.
  - intros (ws1 & core & ws2 & -> & H1 & H2 & Hb & Hl).
    unfold validateBusinessName. rewrite (trim_unique ws1 core ws2 H1 H2 Hb).
    apply andb_true_iff. split; [apply andb_true_iff; split |].
    + rewrite !length_app. destruct (length core) eqn:E; [lia |].
      apply negb_true_iff, Nat.eqb_neq. lia.
    + apply Nat.leb_le. lia.
    + apply Nat.leb_le. lia.
Qed.

(** The statement above, at [  Acme Foods ]. *)
Lemma validateBusinessName_trimmed_witness :
  validateBusinessName (JSString.lit "  Acme Foods ") = true.
Proof.
  apply (proj2 (validateBusinessName_trimmed (JSString.lit "  Acme Foods "))).
  exists (JSString.lit "  "), (JSString.lit "Acme Foods"), (JSString.lit " ").
  repeat split; solve [reflexivity | vm_compute; lia].
Defined.

(** X2: a payment identifier tells the reading of the clock and the random
    bytes it was made from: two identifiers are the same only when both
    are. *)
Theorem generatePaymentId_unique (env1 env2 : Env) :
  Forall (fun b => b < 256) (randomBytes env1) ->
  Forall (fun b => b < 256) (randomBytes env2) ->
  generatePaymentId env1 = generatePaymentId env2 ->
  clock env1 0%nat = clock env2 0%nat /\ randomBytes env1 = randomBytes env2.
Proof.
  unfold generatePaymentId. intros H1 H2 H. apply app_inv_head in H.
  change (JSString.lit "_") with [95] in H. cbn [app] in H.
  apply split_at_separator in H as [Ht Hh]; try apply of_Z_no_separator.
  split; [apply of_Z_inj, Ht | apply hex_inj; assumption].
Qed.

Lemma generatePaymentId_unique_witness :
  clock demo_env 0%nat = clock demo_env 0%nat
  /\ randomBytes demo_env = randomBytes demo_env.
Proof.
  apply (generatePaymentId_unique demo_env demo_env);
    [repeat constructor | repeat constructor | reflexivity].
Defined.

(** X3: a payment identifier starts with [DAFI_], has two characters for
    each random byte after the last separator, and is made of the letters
    of the prefix, [_], [-], digits and the letters [a] to [f] only. *)
Theorem generatePaymentId_format (env : Env) :
  Forall (fun b => b < 256) (randomBytes env) ->
  exists ts hx,
    generatePaymentId env = JSString.lit "DAFI_" ++ ts ++ JSString.lit "_" ++ hx
    /\ forallb decimal_char ts = true
    /\ forallb hex_char hx = true
    /\ length hx = (2 * length (randomBytes env))%nat
    /\ forallb id_char (generatePaymentId env) = true.
Proof.
  intros Hbytes. exists (JSString.of_Z (clock env 0)), (JSString.hex (randomBytes env)).
  pose proof (of_Z_chars (clock env 0)) as Hts.
  pose proof (hex_chars _ Hbytes) as Hhx.
  split; [reflexivity |]. split; [exact Hts |]. split; [exact Hhx |].
  split; [apply hex_length |].
  unfold generatePaymentId. rewrite !forallb_app.
  apply andb_true_iff. split; [reflexivity |].
  apply andb_true_iff. split.
  - apply (forallb_weaken decimal_char); [| exact Hts].
    intros c Hc. unfold id_char. rewrite Hc, orb_true_r. reflexivity.
  - apply andb_true_iff. split; [reflexivity |].
    apply (forallb_weaken hex_char); [| exact Hhx].
    intros c Hc. unfold id_char. rewrite Hc, orb_true_r. reflexivity.
Qed.

Lemma generatePaymentId_format_witness :
  exists ts hx,
    generatePaymentId demo_env
    = JSString.lit "DAFI_" ++ ts ++ JSString.lit "_" ++ hx
    /\ forallb decimal_char ts = true
    /\ forallb hex_char hx = true
    /\ length hx = 8%nat
    /\ forallb id_char (generatePaymentId demo_env) = true.
Proof. apply (generatePaymentId_format demo_env). repeat constructor. Defined.

(** X4: the key of a Business Profile tells the chat it belongs to: two
    chats never have the same key. *)
Theorem businessId_of_distinct (c d : Z) :
  c <> d -> businessId_of c <> businessId_of d.
Proof. intros Hcd H. apply Hcd, businessId_of_inj, H. Qed.

Lemma businessId_of_distinct_witness : businessId_of 42 <> businessId_of (-42).
Proof. apply (businessId_of_distinct 42 (-42)). lia. Defined.

(* ===================================================================== *)
(** * The rest of the code: the other branches of the message handler *)
(* ===================================================================== *)

(** X5: for a user who is asked for the name of the business, a text that
    is not a command, a button of the language keyboard or the label that
    starts a registration is taken as the name, the labels of the rest of
    the menu too. When it passes the validation, the text without the
    white space around it is put in the input buffer and the session goes
    on to the phone; when it does not, the session is left as it is and
    the complaint is sent, in English whatever the language of the
    session. No Business Profile and no Payment Record is written. *)
Theorem register_name_step cfg env chatId text w u :
  users w !! chatId = Some u ->
  User.step u = register_name ->
  text <> [] -> JSString.startsWith text (JSString.lit "/") = false ->
  text <> arabic_button -> text <> english_button ->
  text <> lang (User.language u) business_register ->
  let l := User.language u in
  let w' := on_message cfg env chatId (Some text) w in
  businesses w' = businesses w /\ payments w' = payments w
  /\ if validateBusinessName text then
       users w'
       = <[chatId := {| User.id := User.id u; User.language := l;
                        User.step := register_phone;
                        User.tempData :=
                          {| User.businessName := Some (JSString.trim text);
                             User.amount := User.amount (User.tempData u) |} |}]>
           (users w)
       /\ outbox w'
          = outbox w
            ++ sent env chatId l
                 (sendMessage chatId (Plain (lang l enter_business_phone)) NoMarkup)
     else
       users w' = users w
       /\ outbox w'
          = outbox w
            ++ sent env chatId l
                 (sendMessage chatId
                    (Plain (JSString.lit
                       "❌ Please enter a valid business name (2-100 characters)"))
                    NoMarkup).
Proof.
  intros Hu Hstep Hne Hslash Har Hen Hreg l w'.
  subst w'. rewrite (on_message_text _ _ _ _ _ Hne Hslash).
  unfold on_text. rewrite (getUser_known _ _ _ Hu). skip_tests. fold l.
  unfold on_register_name. destruct (validateBusinessName text); cbn [negb]; cbv zeta.
  - erewrite await_send_known by user_lookup. stores. repeat split; reflexivity.
  - erewrite await_send_known by user_lookup. stores. repeat split; reflexivity.
Qed.

(** The statement above, at the label [❓ Help], which is stored as a name. *)
Lemma register_name_step_witness :
  let u := {| User.id := 42; User.language := en; User.step := register_name;
              User.tempData := User.no_tempData |} in
  let w := {| users := {[ 42%Z := u ]}; businesses := ∅; payments := ∅;
              outbox := [] |} in
  User.businessName
    <$> (User.tempData
           <$> users (on_message demo_cfg demo_env 42 (Some (lang en help)) w)
               !! 42%Z)
  = Some (Some (lang en help)).
Proof.
  intros u w.
  pose proof (register_name_step demo_cfg demo_env 42 (lang en help) w u
                (lookup_singleton_eq _ _) eq_refl) as H.
  destruct (lang_plain en help) as (H1 & H2 & H3 & H4).
  destruct (menu_labels_differ en) as (_ & _ & _ & H5 & _).
  specialize (H H1 H2 H3 H4 H5). cbv zeta in H.
  destruct H as (_ & _ & H).
  change (validateBusinessName (lang en help)) with true in H.
  destruct H as [H _]. rewrite H, lookup_insert_eq. reflexivity.
Defined.

(** X6: for a user who is asked for the amount, a text that is not a
    command, a button of the language keyboard or one of the two labels
    that start a flow is taken as the amount. When it passes the
    validation, the number that [parseFloat] reads in it is put in the
    input buffer and the session goes on to the description; when it does
    not, the session is left as it is and the invalid-amount prompt is
    sent. No Business Profile and no Payment Record is written. *)
Theorem payment_amount_step cfg env chatId text w u :
  users w !! chatId = Some u ->
  User.step u = payment_amount ->
  text <> [] -> JSString.startsWith text (JSString.lit "/") = false ->
  text <> arabic_button -> text <> english_button ->
  text <> lang (User.language u) business_register ->
  text <> lang (User.language u) create_payment ->
  let l := User.language u in
  let w' := on_message cfg env chatId (Some text) w in
  businesses w' = businesses w /\ payments w' = payments w
  /\ if validateAmount text then
       users w'
       = <[chatId := {| User.id := User.id u; User.language := l;
                        User.step := payment_description;
                        User.tempData :=
                          {| User.businessName :=
                               User.businessName (User.tempData u);
                             User.amount := Some (Number.parseFloat text) |} |}]>
           (users w)
       /\ outbox w'
          = outbox w
            ++ sent env chatId l
                 (sendMessage chatId (Plain (lang l enter_description)) NoMarkup)
     else
       users w' = users w
       /\ outbox w'
          = outbox w
            ++ sent env chatId l
                 (sendMessage chatId (Plain (lang l invalid_amount)) NoMarkup).
Proof.
  intros Hu Hstep Hne Hslash Har Hen Hreg Hpay l w'.
  subst w'. rewrite (on_message_text _ _ _ _ _ Hne Hslash).
  unfold on_text. rewrite (getUser_known _ _ _ Hu). skip_tests. fold l.
  unfold on_payment_amount. destruct (validateAmount text); cbn [negb]; cbv zeta.
  - erewrite await_send_known by user_lookup. stores. repeat split; reflexivity.
  - erewrite await_send_known by user_lookup. stores. repeat split; reflexivity.
Qed.

(** The statement above, at [250 SAR] and at [free]. *)
Lemma payment_amount_step_witness :
  let u := {| User.id := 42; User.language := en; User.step := payment_amount;
              User.tempData := User.no_tempData |} in
  let w := {| users := {[ 42%Z := u ]}; businesses := ∅; payments := ∅;
              outbox := [] |} in
  User.amount
    <$> (User.tempData
           <$> users (on_message demo_cfg demo_env 42
                        (Some (JSString.lit "250 SAR")) w) !! 42%Z)
  = Some (Some (Number.of_Z 250))
  /\ users (on_message demo_cfg demo_env 42 (Some (JSString.lit "free")) w)
     = users w.
Proof.
  intros u w. split.
  - pose proof (payment_amount_step demo_cfg demo_env 42 (JSString.lit "250 SAR") w u
                  (lookup_singleton_eq _ _) eq_refl) as H.
    assert (H1 : JSString.lit "250 SAR" <> []) by discriminate.
    assert (H3 : JSString.lit "250 SAR" <> arabic_button) by discriminate.
    assert (H4 : JSString.lit "250 SAR" <> english_button) by discriminate.
    assert (H5 : JSString.lit "250 SAR" <> lang en business_register) by discriminate.
    assert (H6 : JSString.lit "250 SAR" <> lang en create_payment) by discriminate.
    specialize (H H1 eq_refl H3 H4 H5 H6). cbv zeta in H. destruct H as (_ & _ & H).
    change (validateAmount (JSString.lit "250 SAR")) with true in H.
    destruct H as [H _]. rewrite H, lookup_insert_eq. reflexivity.
  - pose proof (payment_amount_step demo_cfg demo_env 42 (JSString.lit "free") w u
                  (lookup_singleton_eq _ _) eq_refl) as H.
    assert (H1 : JSString.lit "free" <> []) by discriminate.
    assert (H3 : JSString.lit "free" <> arabic_button) by discriminate.
    assert (H4 : JSString.lit "free" <> english_button) by discriminate.
    assert (H5 : JSString.lit "free" <> lang en business_register) by discriminate.
    assert (H6 : JSString.lit "free" <> lang en create_payment) by discriminate.
    specialize (H H1 eq_refl H3 H4 H5 H6). cbv zeta in H. destruct H as (_ & _ & H).
    change (validateAmount (JSString.lit "free")) with false in H.
    destruct H as [H _]. exact H.
Defined.

(** X7: the label that asks for a payment link, from a user who is not in
    the registration flow, starts the payment flow only when the user has
    a Business Profile: the session then moves to the amount, with its
    input buffer as it was; without a Business Profile the session is left
    as it is and the user is told to register first. *)
Theorem create_payment_entry cfg env chatId w u :
  users w !! chatId = Some u ->
  User.step u <> register_name -> User.step u <> register_phone ->
  let l := User.language u in
  let w' := on_message cfg env chatId (Some (lang l create_payment)) w in
  businesses w' = businesses w /\ payments w' = payments w
  /\ match businesses w !! businessId_of chatId with
     | Some _ =>
       users w'
       = <[chatId := {| User.id := User.id u; User.language := l;
                        User.step := payment_amount;
                        User.tempData := User.tempData u |}]> (users w)
       /\ outbox w'
          = outbox w
            ++ sent env chatId l
                 (sendMessage chatId (Plain (lang l enter_amount)) RemoveKeyboard)
     | None =>
       users w' = users w
       /\ outbox w'
          = outbox w
            ++ sent env chatId l
                 (sendMessage chatId (Plain (lang l register_first))
                    (main_keyboard l))
     end.
Proof.
  intros Hu Hname Hphone l w'.
  destruct (lang_plain l create_payment) as (Hne & Hslash & Har & Hen).
  destruct (menu_labels_differ l) as (Hreg & _).
  subst w'. rewrite (on_message_text _ _ _ _ _ Hne Hslash).
  unfold on_text. rewrite (getUser_known _ _ _ Hu). fold l. skip_tests.
  unfold enter_payment.
  destruct (businesses w !! businessId_of chatId) as [b |] eqn:Hb.
  - erewrite await_send_known by user_lookup. stores. repeat split; reflexivity.
  - erewrite getMainMenu_known by user_lookup.
    erewrite await_send_known by user_lookup. stores. repeat split; reflexivity.
Qed.

(** The statement above, for a user who has no Business Profile. *)
Lemma create_payment_entry_witness :
  let u := {| User.id := 42; User.language := en; User.step := main;
              User.tempData := User.no_tempData |} in
  let w := {| users := {[ 42%Z := u ]}; businesses := ∅; payments := ∅;
              outbox := [] |} in
  outbox (on_message demo_cfg demo_env 42 (Some (lang en create_payment)) w)
  = [sendMessage 42 (Plain (lang en register_first)) (main_keyboard en)].
Proof.
  intros u w.
  pose proof (create_payment_entry demo_cfg demo_env 42 w u
                (lookup_singleton_eq _ _)) as H.
  assert (H1 : User.step u <> register_name) by discriminate.
  assert (H2 : User.step u <> register_phone) by discriminate.
  specialize (H H1 H2). cbv zeta in H. destruct H as (_ & _ & H).
  change (businesses w !! businessId_of 42) with (@None Business.t) in H.
  destruct H as [_ H]. exact H.
Defined.

(** X8: outside a flow, the three other labels of the menu are answered
    and nothing is written: the dashboard label with the dashboard of the
    Business Profile of the user, or with the advice to register first
    when there is none; the help label with the help text in the language
    of the session; the settings label with the language keyboard. *)
Theorem menu_replies cfg env chatId w u :
  users w !! chatId = Some u ->
  idle (User.step u) = true ->
  let l := User.language u in
  let replied text o :=
    on_message cfg env chatId (Some text) w
    = {| users := users w; businesses := businesses w; payments := payments w;
         outbox := outbox w ++ sent env chatId l o |} in
  replied (lang l view_dashboard)
    (sendMessage chatId
       match businesses w !! businessId_of chatId with
       | Some business => DashboardText l business
       | None => Plain (lang l register_first)
       end
       (main_keyboard l))
  /\ replied (lang l help) (sendMessage chatId (HelpText l) (main_keyboard l))
  /\ replied (lang l settings)
       (sendMessage chatId (Plain (lang en choose_lang)) getLanguageKeyboard).
Proof.
  intros Hu Hidle l replied.
  destruct (idle_step _ Hidle) as (Hs1 & Hs2 & Hs3 & Hs4).
  destruct (menu_labels_differ l)
    as (_ & Hd1 & Hd2 & Hh1 & Hh2 & Hh3 & Ht1 & Ht2 & Ht3 & Ht4).
  subst replied. cbv beta. split; [| split].
  - destruct (lang_plain l view_dashboard) as (Hne & Hslash & Har & Hen).
    rewrite (on_message_text _ _ _ _ _ Hne Hslash).
    unfold on_text. rewrite (getUser_known _ _ _ Hu). fold l. skip_tests.
    unfold show_dashboard. destruct (businesses w !! businessId_of chatId);
      erewrite getMainMenu_known by user_lookup;
      erewrite await_send_known by user_lookup; reflexivity.
  - destruct (lang_plain l help) as (Hne & Hslash & Har & Hen).
    rewrite (on_message_text _ _ _ _ _ Hne Hslash).
    unfold on_text. rewrite (getUser_known _ _ _ Hu). fold l. skip_tests.
    unfold show_help.
    erewrite getMainMenu_known by user_lookup.
    erewrite await_send_known by user_lookup. reflexivity.
  - destruct (lang_plain l settings) as (Hne & Hslash & Har & Hen).
    rewrite (on_message_text _ _ _ _ _ Hne Hslash).
    unfold on_text. rewrite (getUser_known _ _ _ Hu). fold l. skip_tests.
    unfold show_settings.
    erewrite await_send_known by user_lookup. reflexivity.
Qed.

(** The statement above, for an Arabic session: the prompt of the settings
    is the one of the English table. *)
Lemma menu_replies_witness :
  let u := {| User.id := 42; User.language := ar; User.step := main;
              User.tempData := User.no_tempData |} in
  let w := {| users := {[ 42%Z := u ]}; businesses := ∅; payments := ∅;
              outbox := [] |} in
  outbox (on_message demo_cfg demo_env 42 (Some (lang ar settings)) w)
  = [sendMessage 42 (Plain (lang en choose_lang)) getLanguageKeyboard].
Proof.
  intros u w.
  destruct (menu_replies demo_cfg demo_env 42 w u (lookup_singleton_eq _ _) eq_refl)
    as (_ & _ & H).
  apply (f_equal outbox) in H. exact H.
Defined.

(* ===================================================================== *)
(** * The rest of the code: commands *)
(* ===================================================================== *)

(** X9: a text that begins with [/start] is answered with the language
    keyboard and touches no session that exists: a user in the middle of a
    flow stays in it, with the input buffer as it was. A session is made,
    in English and in the step [start], for a chat that has none. *)
Theorem start_command cfg env chatId rest w :
  let w' := receive cfg env chatId (Some (JSString.lit "/start" ++ rest)) w in
  users w'
  = match users w !! chatId with
    | Some _ => users w
    | None => <[chatId := new_user chatId]> (users w)
    end
  /\ businesses w' = businesses w
  /\ payments w' = payments w
  /\ outbox w' = outbox w ++ [start_prompt chatId].
Proof.
  intros w'. subst w'. unfold receive. rewrite includes_app.
  assert (Hmsg : on_message cfg env chatId (Some (JSString.lit "/start" ++ rest)) w = w)
    by reflexivity.
  rewrite Hmsg. unfold on_start, getUser.
  destruct (users w !! chatId); repeat split; reflexivity.
Qed.

(** X10: a message without text, and a command that has no [/start] in it,
    are left without an answer, and no session is made for the chat. *)
Theorem other_commands_ignored cfg env chatId text w :
  match text with
  | Some t =>
    JSString.startsWith t (JSString.lit "/") = true
    /\ includes t (JSString.lit "/start") = false
  | None => True
  end ->
  receive cfg env chatId text w = w.
Proof.
  intros H. unfold receive, on_message. destruct text as [[| c r] |];
    [destruct H as [H _]; discriminate H | | reflexivity].
  destruct H as [-> ->]. reflexivity.
Qed.

Lemma other_commands_ignored_witness :
  receive demo_cfg demo_env 42 (Some (JSString.lit "/help")) initial = initial
  /\ receive demo_cfg demo_env 42 None initial = initial.
Proof.
  split.
  - apply (other_commands_ignored demo_cfg demo_env 42 (Some (JSString.lit "/help"))).
    split; reflexivity.
  - apply (other_commands_ignored demo_cfg demo_env 42 None). exact I.
Defined.

(* ===================================================================== *)
(** * The rest of the code: what an event may touch *)
(* ===================================================================== *)

(** X11: an inbound chat message touches no session but the one of its
    sender, no Business Profile but the one of its sender, and no Payment
    Record but the one under the identifier that the handler generates;
    every message it makes the bot send is addressed to its sender. *)
Theorem message_touches_sender cfg env chatId text w :
  let w' := receive cfg env chatId text w in
  (forall c, c <> chatId -> users w' !! c = users w !! c)
  /\ (forall k, k <> businessId_of chatId -> businesses w' !! k = businesses w !! k)
  /\ (forall k, k <> generatePaymentId env -> payments w' !! k = payments w !! k)
  /\ exists out,
       outbox w' = outbox w ++ out
       /\ Forall (fun o => recipient o = chatId) out.
Proof.
  intros w'. subst w'.
  destruct (receive_written cfg env chatId text w)
    as [-> | (t & u' & b & p & out & _ & _ & Hout & ->)].
  - repeat split; try reflexivity. exists []. rewrite app_nil_r. auto.
  - cbn [users businesses payments outbox written]. repeat split.
    + intros c Hc. apply lookup_insert_ne. congruence.
    + intros k Hk. destruct b; [apply lookup_insert_ne; congruence | reflexivity].
    + intros k Hk. destruct p; [apply lookup_insert_ne; congruence | reflexivity].
    + exists out. auto.
Qed.

(** The statement above, for a message of chat 7 in the world of the
    examples: the session of chat 42 is as it was. *)
Lemma message_touches_sender_witness :
  users (receive demo_cfg demo_env 7 (Some english_button) demo_world) !! 42%Z
  = Some demo_session.
Proof.
  destruct (message_touches_sender demo_cfg demo_env 7 (Some english_button)
              demo_world) as (H & _).
  rewrite (H 42%Z) by lia. apply demo_stores.
Defined.

(** X12: a settlement notification whose [cart_id] is not the identifier
    of a record of the ledger (it is missing, is not a string, or names no
    record) is answered with 404 and changes nothing. *)
Theorem settlement_unknown_record env body w :
  (forall key, cart_id body = Value.Str key -> payments w !! key = None) ->
  paytabs_callback env body w = (w, NotFoundAck).
Proof.
  intros H. unfold paytabs_callback, payments_get.
  destruct (cart_id body) as [| | | | key | |]; try reflexivity.
  rewrite (H key eq_refl). reflexivity.
Qed.

(** The statement above, for a notification whose [cart_id] is a number. *)
Lemma settlement_unknown_record_witness :
  paytabs_callback demo_env
    {| tran_ref := Value.Undefined; payment_result := Value.Undefined;
       cart_id := Value.Num (Number.of_Z 1) |} demo_world
  = (demo_world, NotFoundAck).
Proof.
  apply (settlement_unknown_record demo_env
           {| tran_ref := Value.Undefined; payment_result := Value.Undefined;
              cart_id := Value.Num (Number.of_Z 1) |} demo_world).
  intros key H. discriminate H.
Defined.

(** X13: a settlement notification for a record of the ledger, whatever
    the status of the record, keeps the terms of the record (identifier,
    merchant, amount, description and the two dates), leaves it [completed]
    or [failed] as the notification says, and touches no other record, no
    session of another chat and no Business Profile of another chat. It is
    answered with OK and sends one message, to the merchant of the record,
    unless it is a success whose transaction reference has no string: that
    one is answered with the error, and sends nothing. *)
Theorem settlement_keeps_terms env body w key p :
  cart_id body = Value.Str key ->
  payments w !! key = Some p ->
  let w' := fst (paytabs_callback env body w) in
  let stopped :=
    approved (payment_result body) && negb (Value.printable (tran_ref body)) in
  snd (paytabs_callback env body w) = (if stopped then ErrorAck else OkAck)
  /\ (exists p',
        payments w' = <[key := p']> (payments w)
        /\ same_terms p p'
        /\ Payment.status p'
           = if approved (payment_result body) then completed else failed)
  /\ (if stopped then outbox w' = outbox w
      else exists o, outbox w' = outbox w ++ [o]
                     /\ recipient o = Payment.merchantId p)
  /\ (forall c, c <> Payment.merchantId p -> users w' !! c = users w !! c)
  /\ (forall k, k <> businessId_of (Payment.merchantId p) ->
                businesses w' !! k = businesses w !! k).
Proof.
  intros Hcart Hp w' stopped. subst w'.
  destruct (callback_found env body w key p Hcart Hp)
    as (p' & out & Epay & Eout & Eusers & Ebus & Hterms & Hstatus & Hto & Hack).
  change (interrupted body) with stopped in Hack.
  assert (Hout : if stopped then out = [] else exists o, out = [o]).
  { destruct stopped; [apply Hack |]. destruct Hack as [Hlen _].
    destruct out as [| o [| o' r]]; try discriminate Hlen. exists o. reflexivity. }
  split; [destruct stopped; apply Hack |]. split; [exists p'; auto |]. split.
  - destruct stopped.
    + rewrite Eout, Hout. apply app_nil_r.
    + destruct Hout as [o ->]. exists o. split; [exact Eout |].
      exact (Forall_inv Hto).
  - split.
    + intros c Hc. rewrite Eusers. apply getUser_others, Hc.
    + intros k Hk. destruct Ebus as [-> | (b & _ & ->)]; [reflexivity |].
      apply lookup_insert_ne. congruence.
Qed.

(** The statement above, for two more notifications for the payment that
    the run of the examples has completed: a refusal, which is answered
    with OK and makes the record [failed], and a success with a transaction
    reference that has no string, which is answered with the error and
    sends nothing. *)
Lemma settlement_keeps_terms_witness :
  let refusal := {| tran_ref := Value.Str (JSString.lit "TST2002");
                    payment_result := Value.Null;
                    cart_id := Value.Str (generatePaymentId demo_env) |} in
  let broken := {| tran_ref :=
                     Value.Arr [Value.Obj [(JSString.lit "toString", Value.Null)]];
                   payment_result :=
                     Value.Obj [(JSString.lit "response_status",
                                 Value.Str (JSString.lit "A"))];
                   cart_id := Value.Str (generatePaymentId demo_env) |} in
  (snd (paytabs_callback demo_env refusal demo_world) = OkAck
   /\ (exists p',
         payments (fst (paytabs_callback demo_env refusal demo_world))
         = <[generatePaymentId demo_env := p']> (payments demo_world)
         /\ same_terms demo_payment p'
         /\ Payment.status p' = failed)
   /\ exists o,
        outbox (fst (paytabs_callback demo_env refusal demo_world))
        = outbox demo_world ++ [o]
        /\ recipient o = 42%Z)
  /\ (snd (paytabs_callback demo_env broken demo_world) = ErrorAck
      /\ (exists p',
            payments (fst (paytabs_callback demo_env broken demo_world))
            = <[generatePaymentId demo_env := p']> (payments demo_world)
            /\ same_terms demo_payment p'
            /\ Payment.status p' = completed)
      /\ outbox (fst (paytabs_callback demo_env broken demo_world))
         = outbox demo_world).
Proof.
  intros refusal broken. split.
  - destruct (settlement_keeps_terms demo_env refusal demo_world
                (generatePaymentId demo_env) demo_payment eq_refl
                (proj2 (proj2 demo_stores))) as (Hack & H & Hout & _).
    split; [exact Hack |]. split; [exact H | exact Hout].
  - destruct (settlement_keeps_terms demo_env broken demo_world
                (generatePaymentId demo_env) demo_payment eq_refl
                (proj2 (proj2 demo_stores))) as (Hack & H & Hout & _).
    split; [exact Hack |]. split; [exact H | exact Hout].
Defined.

(** X14: no event removes a session, a Business Profile or a Payment
    Record, and no event takes back a message that was sent. *)
Theorem nothing_is_deleted cfg env e w :
  let w' := handle cfg env e w in
  (forall c, is_Some (users w !! c) -> is_Some (users w' !! c))
  /\ (forall k, is_Some (businesses w !! k) -> is_Some (businesses w' !! k))
  /\ (forall k, is_Some (payments w !! k) -> is_Some (payments w' !! k))
  /\ exists out, outbox w' = outbox w ++ out.
Proof.
  intros w'. subst w'. destruct e as [chatId text | paymentId | body]; cbn [handle].
  - destruct (receive_written cfg env chatId text w)
      as [-> | (t & u' & b & p & out & _ & _ & _ & ->)].
    + repeat split; auto. exists []. rewrite app_nil_r. reflexivity.
    + destruct (written_grown chatId (generatePaymentId env) w u' b p out) as [Hu Hb].
      split; [exact Hu |]. split; [exact Hb |]. split; [| exists out; reflexivity].
      intros k Hk. cbn [payments written].
      destruct p; [apply insert_is_Some |]; exact Hk.
  - destruct (pay_page_written cfg env paymentId w) as [-> | (p & _ & _ & ->)].
    + repeat split; auto. exists []. rewrite app_nil_r. reflexivity.
    + cbn [users businesses payments outbox set_payments]. repeat split; auto.
      * intros k Hk. apply insert_is_Some, Hk.
      * exists []. rewrite app_nil_r. reflexivity.
  - destruct (callback_written env body w) as [-> | (key & p & Hcart & Hp)].
    + repeat split; auto. exists []. rewrite app_nil_r. reflexivity.
    + destruct (callback_found env body w key p Hcart Hp)
        as (p' & o & Epay & Eout & Eusers & Ebus & _).
      split; [| split; [| split]].
      * intros c Hc. rewrite Eusers. apply getUser_keeps, Hc.
      * intros k Hk. destruct Ebus as [-> | (b & _ & ->)];
          [exact Hk | apply insert_is_Some, Hk].
      * intros k Hk. rewrite Epay. apply insert_is_Some, Hk.
      * exists o. exact Eout.
Qed.

(** The statement above, for a visit of the payment page in the world of
    the examples: the session of chat 42 is still there. *)
Lemma nothing_is_deleted_witness :
  is_Some (users (handle demo_cfg demo_env (Visit (generatePaymentId demo_env))
                    demo_world) !! 42%Z).
Proof.
  destruct (nothing_is_deleted demo_cfg demo_env (Visit (generatePaymentId demo_env))
              demo_world) as (H & _).
  apply (H 42%Z). rewrite (proj1 demo_stores). eauto.
Defined.

(* ===================================================================== *)
(** * The rest of the code: the counts of the monitoring endpoints *)
(* ===================================================================== *)

(** X15: the three counts that the health endpoint reports never go down
    from one event to the next. *)
Theorem health_counts_grow cfg env e w :
  (Health.users (health w) <= Health.users (health (handle cfg env e w)))%nat
  /\ (Health.businesses (health w)
      <= Health.businesses (health (handle cfg env e w)))%nat
  /\ (Health.payments (health w)
      <= Health.payments (health (handle cfg env e w)))%nat.
Proof.
  assert (H : forall w',
            (forall c, is_Some (users w !! c) -> is_Some (users w' !! c)) ->
            (forall k, is_Some (businesses w !! k) -> is_Some (businesses w' !! k)) ->
            (forall k, is_Some (payments w !! k) -> is_Some (payments w' !! k)) ->
            (size (users w) <= size (users w'))%nat
            /\ (size (businesses w) <= size (businesses w'))%nat
            /\ (size (payments w) <= size (payments w'))%nat).
  { intros w' Hu Hb Hp. repeat split; apply size_grown; assumption. }
  destruct e as [chatId text | paymentId | body]; cbn [handle health Health.users
    Health.businesses Health.payments].
  - destruct (receive_written cfg env chatId text w)
      as [-> | (t & u' & b & p & out & _ & _ & _ & ->)]; [lia |].
    destruct (written_grown chatId (generatePaymentId env) w u' b p out) as [Hu Hb].
    apply H; [exact Hu | exact Hb |].
    intros k Hk. cbn [payments written]. destruct p; [apply insert_is_Some |]; exact Hk.
  - destruct (pay_page_written cfg env paymentId w) as [-> | (p & _ & _ & ->)]; [lia |].
    apply H; cbn [users businesses payments set_payments]; auto.
    intros k Hk. apply insert_is_Some, Hk.
  - destruct (callback_written env body w) as [-> | (key & p & Hcart & Hp)]; [lia |].
    destruct (callback_found env body w key p Hcart Hp)
      as (p' & o & Epay & _ & Eusers & Ebus & _).
    apply H.
    + intros c Hc. rewrite Eusers. apply getUser_keeps, Hc.
    + intros k Hk. destruct Ebus as [-> | (b & _ & ->)];
        [exact Hk | apply insert_is_Some, Hk].
    + intros k Hk. rewrite Epay. apply insert_is_Some, Hk.
Qed.

(** X16: in every world that a run reaches, there are no more Business
    Profiles than sessions: the count of businesses that the health
    endpoint reports is at most its count of users. *)
Theorem profiles_within_sessions cfg w :
  reachable cfg w ->
  (Health.businesses (health w) <= Health.users (health w))%nat.
Proof.
  intros Hw. destruct (reachable_consistent cfg w Hw) as (_ & _ & Hb & _).
  cbn [health Health.businesses Health.users]. apply size_keys.
  intros k [b Hk]. destruct (Hb k b Hk) as (Hkey & _ & _ & _ & Howner & _).
  exists (Business.ownerId b). auto.
Qed.

Lemma profiles_within_sessions_witness :
  (Health.businesses (health demo_world) <= Health.users (health demo_world))%nat.
Proof. apply (profiles_within_sessions demo_cfg demo_world demo_reachable). Defined.

(* ===================================================================== *)
(** * The rest of the code: what the stores of a run hold *)
(* ===================================================================== *)

(** X17: in every world that a run reaches, a session is filed under the
    chat it belongs to, and holds what its step is going to read: a
    session that is asked for the phone has a name in its input buffer,
    with no white space around it and 2 to 100 characters; a session that
    is asked for the description has an amount in its input buffer, a
    number in the range 1 to 50000. *)
Theorem sessions_hold_their_input cfg w chatId u :
  reachable cfg w ->
  users w !! chatId = Some u ->
  User.id u = chatId
  /\ (User.step u = register_phone ->
      exists n,
        User.businessName (User.tempData u) = Some n
        /\ bare n = true /\ (2 <= length n <= 100)%nat)
  /\ (User.step u = payment_description ->
      exists a,
        User.amount (User.tempData u) = Some a
        /\ Number.ge a (Number.of_Z 1) = true
        /\ Number.le a (Number.of_Z 50000) = true).
Proof.
  intros Hw Hu. destruct (reachable_consistent cfg w Hw) as (Hs & _).
  exact (Hs chatId u Hu).
Qed.

(** The statement above, at two points of the run of the examples: after
    the name of the business, where the session of chat 42 is asked for the
    phone and holds the name, and after the amount, where it is asked for
    the description and holds the amount. *)
Lemma sessions_hold_their_input_witness :
  let named := run demo_cfg (firstn 3 demo_events) initial in
  let priced := run demo_cfg (firstn 6 demo_events) initial in
  let asked_phone :=
    {| User.id := 42; User.language := en; User.step := register_phone;
       User.tempData :=
         {| User.businessName := Some (JSString.lit "Acme Foods");
            User.amount := None |} |} in
  let asked_description :=
    {| User.id := 42; User.language := en; User.step := payment_description;
       User.tempData :=
         {| User.businessName := None;
            User.amount := Some (Number.of_Z 250) |} |} in
  (users named !! 42%Z = Some asked_phone
   /\ exists n,
        User.businessName (User.tempData asked_phone) = Some n
        /\ bare n = true /\ (2 <= length n <= 100)%nat)
  /\ (users priced !! 42%Z = Some asked_description
      /\ exists a,
           User.amount (User.tempData asked_description) = Some a
           /\ Number.ge a (Number.of_Z 1) = true
           /\ Number.le a (Number.of_Z 50000) = true).
Proof.
  intros named priced asked_phone asked_description.
  assert (Hnamed : users named !! 42%Z = Some asked_phone)
    by (vm_compute; reflexivity).
  assert (Hpriced : users priced !! 42%Z = Some asked_description)
    by (vm_compute; reflexivity).
  split; (split; [assumption |]).
  - apply (sessions_hold_their_input demo_cfg named 42 asked_phone
             (reachable_run demo_cfg _ initial (reachable_initial demo_cfg)) Hnamed).
    reflexivity.
  - apply (sessions_hold_their_input demo_cfg priced 42 asked_description
             (reachable_run demo_cfg _ initial (reachable_initial demo_cfg)) Hpriced).
    reflexivity.
Defined.

(** X18: in every world that a run reaches, a Business Profile is filed
    under [BIZ_] and the chat of its owner, who has a session; its name
    has no white space around it and 2 to 100 characters, and its phone
    passes the phone validation. *)
Theorem profiles_are_registered cfg w k b :
  reachable cfg w ->
  businesses w !! k = Some b ->
  k = businessId_of (Business.ownerId b)
  /\ Business.id b = k
  /\ is_Some (users w !! Business.ownerId b)
  /\ (exists n, Business.name b = Some n
                /\ bare n = true /\ (2 <= length n <= 100)%nat)
  /\ validatePhone (Business.phone b) = true.
Proof.
  intros Hw Hk. destruct (reachable_consistent cfg w Hw) as (_ & _ & Hb & _).
  destruct (Hb k b Hk) as (H1 & H2 & H3 & H4 & H5 & _). auto.
Qed.

Lemma profiles_are_registered_witness :
  validatePhone (Business.phone demo_business) = true.
Proof.
  apply (profiles_are_registered demo_cfg demo_world (businessId_of 42) demo_business
           demo_reachable (proj1 (proj2 demo_stores))).
Defined.

(** X19: in every world that a run reaches, the sales of today of a
    Business Profile are its total sales (no handler ever starts a new
    day), and neither they nor the count of transactions are NaN or
    negative. *)
Theorem sales_totals cfg w k b :
  reachable cfg w ->
  businesses w !! k = Some b ->
  Business.todaySales b = Business.totalSales b
  /\ nonnegative (Business.totalSales b) = true
  /\ nonnegative (Business.transactionCount b) = true.
Proof.
  intros Hw Hk. destruct (reachable_consistent cfg w Hw) as (_ & _ & Hb & _).
  destruct (Hb k b Hk) as (_ & _ & _ & _ & _ & H). exact H.
Qed.

Lemma sales_totals_witness :
  Business.todaySales demo_business = Business.totalSales demo_business
  /\ nonnegative (Business.totalSales demo_business) = true
  /\ nonnegative (Business.transactionCount demo_business) = true.
Proof.
  apply (sales_totals demo_cfg demo_world (businessId_of 42) demo_business
           demo_reachable (proj1 (proj2 demo_stores))).
Defined.

(** X20: in every world that a run reaches, a Payment Record is filed
    under its identifier, which starts with [DAFI_]; its amount is a
    number in the range 1 to 50000, its description has no white space
    around it, and its merchant has a session and a Business Profile. *)
Theorem records_are_well_formed cfg w k p :
  reachable cfg w ->
  payments w !! k = Some p ->
  Payment.id p = k
  /\ JSString.startsWith k (JSString.lit "DAFI_") = true
  /\ (exists a, Payment.amount p = Some a
                /\ Number.ge a (Number.of_Z 1) = true
                /\ Number.le a (Number.of_Z 50000) = true)
  /\ bare (Payment.description p) = true
  /\ is_Some (businesses w !! businessId_of (Payment.merchantId p))
  /\ is_Some (users w !! Payment.merchantId p).
Proof.
  intros Hw Hk. destruct (reachable_consistent cfg w Hw) as (_ & _ & _ & Hp).
  exact (Hp k p Hk).
Qed.

Lemma records_are_well_formed_witness :
  is_Some (businesses demo_world !! businessId_of (Payment.merchantId demo_payment)).
Proof.
  apply (records_are_well_formed demo_cfg demo_world (generatePaymentId demo_env)
           demo_payment demo_reachable (proj2 (proj2 demo_stores))).
Defined.

(** X21: in every world that a run reaches, a notification of success for
    a record of the ledger makes no session, and the branch of the handler
    for a merchant without a Business Profile is never taken: when the
    transaction reference has a string, the notification is acknowledged
    and the profile of the merchant is there and gets the amount of the
    record added (as binary64 numbers are added) to its two totals and 1
    to its count; when it has none, the handler answers with its error and
    the profiles stay as they are. *)
Theorem settlement_credits_profile cfg env body w key p :
  reachable cfg w ->
  cart_id body = Value.Str key ->
  payments w !! key = Some p ->
  approved (payment_result body) = true ->
  let w' := fst (paytabs_callback env body w) in
  let businessId := businessId_of (Payment.merchantId p) in
  users w' = users w
  /\ if Value.printable (tran_ref body) then
       snd (paytabs_callback env body w) = OkAck
       /\ exists b a,
            businesses w !! businessId = Some b
            /\ Payment.amount p = Some a
            /\ businesses w'
               = <[businessId :=
                     {| Business.id := Business.id b;
                        Business.ownerId := Business.ownerId b;
                        Business.name := Business.name b;
                        Business.phone := Business.phone b;
                        Business.createdAt := Business.createdAt b;
                        Business.totalSales :=
                          SFadd 53 1024 (Business.totalSales b) a;
                        Business.todaySales :=
                          SFadd 53 1024 (Business.todaySales b) a;
                        Business.transactionCount :=
                          SFadd 53 1024 (Business.transactionCount b)
                            (S754_finite false 4503599627370496 (-52)) |}]>
                 (businesses w)
     else
       snd (paytabs_callback env body w) = ErrorAck
       /\ businesses w' = businesses w.
Proof.
  intros Hw Hcart Hp Hok w' businessId. subst w' businessId.
  destruct (reachable_consistent cfg w Hw) as (_ & _ & _ & Hpay).
  destruct (Hpay key p Hp) as (_ & _ & (a & Ha & _) & _ & [b Hb] & [u Hu]).
  unfold paytabs_callback, payments_get. rewrite Hcart, Hp, Hok.
  cbn [Payment.merchantId Payment.amount Payment.description
       Payment.set_completedAt Payment.set_transactionRef Payment.set_status].
  rewrite getUserLang_set_payments, (getUserLang_known _ _ _ Hu). cbn [snd].
  destruct (Value.printable (tran_ref body)); cbn [negb].
  - stores. rewrite Hb. cbn [fst snd]. stores. split; [reflexivity |].
    split; [reflexivity |]. exists b, a. split; [reflexivity |]. split; [exact Ha |].
    rewrite Ha. reflexivity.
  - cbn [fst snd]. stores. auto.
Qed.

(** The statement above, for a second notification of success for the
    payment of 250 that the run of the examples has completed: the totals
    of the profile go from 250 to 500 and its count from 1 to 2. *)
Lemma settlement_credits_profile_witness :
  let body := {| tran_ref := Value.Str (JSString.lit "TST2003");
                 payment_result :=
                   Value.Obj [(JSString.lit "response_status",
                               Value.Str (JSString.lit "A"))];
                 cart_id := Value.Str (generatePaymentId demo_env) |} in
  let sold := businesses (fst (paytabs_callback demo_env body demo_world))
              !! businessId_of 42 in
  users (fst (paytabs_callback demo_env body demo_world)) = users demo_world
  /\ Business.totalSales <$> sold = Some (Number.of_Z 500)
  /\ Business.todaySales <$> sold = Some (Number.of_Z 500)
  /\ Business.transactionCount <$> sold = Some (Number.of_Z 2).
Proof.
  intros body sold. subst sold.
  destruct (settlement_credits_profile demo_cfg demo_env body demo_world
              (generatePaymentId demo_env) demo_payment demo_reachable eq_refl
              (proj2 (proj2 demo_stores)) eq_refl) as [H Hsold].
  split; [exact H |].
  change (Value.printable (tran_ref body)) with true in Hsold.
  destruct Hsold as (_ & b & a & Hb & Ha & ->).
  change (businessId_of (Payment.merchantId demo_payment)) with (businessId_of 42) in *.
  rewrite (proj1 (proj2 demo_stores)) in Hb.
  injection Hb as <-. injection Ha as <-.
  rewrite lookup_insert_eq. repeat split; vm_compute; reflexivity.
Defined.

(* ===================================================================== *)
(** * The rest of the code: the answers of the payment page *)
(* ===================================================================== *)

(** X22: the payment page shows the amount and the description of a
    record, or sends the visitor to the gateway, only for a record that is
    pending and has not expired; it shows them when the credentials of the
    gateway are missing, and redirects, to an address that is not empty,
    when they are there. It answers that the payment is not found exactly
    when the ledger has no record under the identifier, and that the
    payment was processed exactly for a record that is not pending. *)
Theorem pay_page_answers cfg env paymentId w :
  let page := snd (pay_page cfg env paymentId w) in
  (forall amount description,
     page = DemoPage amount description ->
     exists p,
       payments w !! paymentId = Some p /\ Payment.status p = pending
       /\ (clock env 0 <= Payment.expiresAt p)%Z
       /\ credentials_missing cfg = true
       /\ amount = Payment.amount p /\ description = Payment.description p)
  /\ (forall redirect_url,
        page = Redirect redirect_url ->
        exists p,
          payments w !! paymentId = Some p /\ Payment.status p = pending
          /\ (clock env 0 <= Payment.expiresAt p)%Z
          /\ credentials_missing cfg = false
          /\ Value.truthy redirect_url = true)
  /\ (page = NotFoundPage <-> payments w !! paymentId = None)
  /\ (forall s,
        page = ProcessedPage s <->
        s <> pending
        /\ exists p, payments w !! paymentId = Some p /\ Payment.status p = s).
Proof.
  intros page. subst page. unfold pay_page.
  destruct (payments w !! paymentId) as [p |] eqn:Hp; cbn [snd].
  2: { split; [discriminate |]. split; [discriminate |].
       split; [split; reflexivity |].
       intros s. split; [discriminate |]. intros (_ & p & Hp' & _). discriminate Hp'. }
  assert (Hfound : forall s (P : Prop),
            (s <> pending /\ exists p', Some p = Some p' /\ Payment.status p' = s) ->
            Payment.status p = pending -> P).
  { intros s P (Hne & p' & Hp' & <-) Hs. injection Hp' as <-. contradiction. }
  destruct (bool_decide_reflect (Payment.status p = pending)) as [Hs | Hs]; cbn [negb].
  2: { cbn [snd]. split; [discriminate |]. split; [discriminate |].
       split; [split; discriminate |].
       intros s. split.
       - intros H. injection H as <-. eauto.
       - intros (_ & p' & Hp' & <-). injection Hp' as <-. reflexivity. }
  destruct (Z.gtb_spec (clock env 0) (Payment.expiresAt p)) as [Hexp | Hexp]; cbn [snd].
  { split; [discriminate |]. split; [discriminate |]. split; [split; discriminate |].
    intros s. split; [discriminate | intros H; exact (Hfound _ _ H Hs)]. }
  destruct (credentials_missing cfg) eqn:Hcred; cbn [snd].
  { split; [| split; [discriminate |]; split; [split; discriminate |]].
    - intros amount description H. injection H as <- <-. exists p.
      repeat split; auto.
    - intros s. split; [discriminate | intros H; exact (Hfound _ _ H Hs)]. }
  assert (Hrest : forall page,
            (forall a d, page <> DemoPage a d) -> (forall r, page <> Redirect r) ->
            page <> NotFoundPage -> (forall s, page <> ProcessedPage s) ->
            (forall amount description,
               page = DemoPage amount description ->
               exists p0,
                 Some p = Some p0 /\ Payment.status p0 = pending
                 /\ (clock env 0 <= Payment.expiresAt p0)%Z
                 /\ false = true
                 /\ amount = Payment.amount p0
                 /\ description = Payment.description p0)
            /\ (forall redirect_url,
                  page = Redirect redirect_url ->
                  exists p0,
                    Some p = Some p0 /\ Payment.status p0 = pending
                    /\ (clock env 0 <= Payment.expiresAt p0)%Z
                    /\ false = false
                    /\ Value.truthy redirect_url = true)
            /\ (page = NotFoundPage <-> Some p = None)
            /\ (forall s,
                  page = ProcessedPage s <->
                  s <> pending
                  /\ exists p0, Some p = Some p0 /\ Payment.status p0 = s)).
  { intros page H1 H2 H3 H4.
    split; [intros a d H; destruct (H1 _ _ H) |].
    split; [intros r H; destruct (H2 _ H) |].
    split; [split; [intros H; destruct (H3 H) | discriminate] |].
    intros s. split; [intros H; destruct (H4 _ H) | intros H; exact (Hfound _ _ H Hs)]. }
  destruct (createPayTabsPayment cfg env) as [r |]; cbn [snd];
    [| apply Hrest; discriminate].
  destruct (Value.nullish r); cbn [snd]; [apply Hrest; discriminate |].
  destruct (Value.truthy (Value.get r (JSString.lit "redirect_url"))) eqn:Hurl;
    cbn [snd]; [| apply Hrest; discriminate].
  split; [discriminate |]. split; [| split; [split; discriminate |]].
  - intros url H. injection H as <-. exists p. repeat split; auto.
  - intros s. split; [discriminate | intros H; exact (Hfound _ _ H Hs)].
Qed.

(** The statement above, for a visit of the page of the payment that the
    run of the examples has completed. *)
Lemma pay_page_answers_witness :
  snd (pay_page demo_cfg demo_env (generatePaymentId demo_env) demo_world)
  = ProcessedPage completed.
Proof.
  destruct (pay_page_answers demo_cfg demo_env (generatePaymentId demo_env) demo_world)
    as (_ & _ & _ & H).
  apply (proj2 (H completed)). split; [discriminate |].
  exists demo_payment. split; [apply demo_stores | reflexivity].
Defined.

(* ===================================================================== *)
(** * The rest of the code: the two flows, from their first message to
      their last *)
(* ===================================================================== *)

(** X23: whatever step a session is in, three messages register a
    business: the label that starts a registration, a name that passes the
    validation (and is not a command, a button of the language keyboard or
    that label), and a phone that passes the validation. The Business
    Profile of the sender then holds the name and the phone without the
    white space around them, with the three counters at zero, and the
    session is in [main] with an empty input buffer. *)
Theorem registration_flow cfg env1 env2 env3 chatId name phone w u :
  users w !! chatId = Some u ->
  name <> [] -> JSString.startsWith name (JSString.lit "/") = false ->
  name <> arabic_button -> name <> english_button ->
  name <> lang (User.language u) business_register ->
  validateBusinessName name = true ->
  validatePhone phone = true ->
  let l := User.language u in
  let w1 := on_message cfg env1 chatId (Some (lang l business_register)) w in
  let w2 := on_message cfg env2 chatId (Some name) w1 in
  let w3 := on_message cfg env3 chatId (Some phone) w2 in
  users w3
  = <[chatId := {| User.id := User.id u; User.language := l; User.step := main;
                   User.tempData := User.no_tempData |}]> (users w)
  /\ businesses w3
     = <[businessId_of chatId :=
           {| Business.id := businessId_of chatId;
              Business.ownerId := chatId;
              Business.name := Some (JSString.trim name);
              Business.phone := JSString.trim phone;
              Business.createdAt := clock env3 0;
              Business.totalSales := Number.zero;
              Business.todaySales := Number.zero;
              Business.transactionCount := Number.zero |}]> (businesses w)
  /\ payments w3 = payments w.
Proof.
  intros Hu Hne Hslash Har Hen Hreg Hname Hphone l w1 w2 w3.
  destruct (lang_plain l business_register) as (Lne & Lslash & Lar & Len).
  destruct (phone_text_plain phone l Hphone) as (Pne & Pslash & Par & Pen & Preg).
  assert (E1 : w1 = {| users := <[chatId := User.set_step register_name u]> (users w);
                       businesses := businesses w; payments := payments w;
                       outbox := outbox w1 |}).
  { subst w1. rewrite (on_message_text _ _ _ _ _ Lne Lslash).
    unfold on_text. rewrite (getUser_known _ _ _ Hu). fold l. skip_tests.
    unfold enter_registration. erewrite await_send_known by user_lookup.
    stores. reflexivity. }
  assert (E2 : w2 = {| users :=
                         <[chatId := User.set_step register_phone
                                       (User.set_businessName (JSString.trim name)
                                          (User.set_step register_name u))]>
                           (users w);
                       businesses := businesses w; payments := payments w;
                       outbox := outbox w2 |}).
  { subst w2. rewrite E1. rewrite (on_message_text _ _ _ _ _ Hne Hslash).
    unfold on_text. erewrite getUser_known by user_lookup.
    cbn [User.language User.step User.set_step]. skip_tests.
    unfold on_register_name. rewrite Hname. cbn [negb]. cbv zeta.
    erewrite await_send_known by user_lookup.
    stores. rewrite insert_insert_eq. reflexivity. }
  subst w3. rewrite E2. rewrite (on_message_text _ _ _ _ _ Pne Pslash).
  unfold on_text. erewrite getUser_known by user_lookup.
  cbn [User.language User.step User.set_step User.set_businessName
       User.set_tempData]. fold l. skip_tests.
  unfold on_register_phone. rewrite Hphone. cbn [negb]. cbv zeta.
  erewrite getMainMenu_known by user_lookup.
  erewrite await_send_known by user_lookup.
  stores. rewrite insert_insert_eq. repeat split; reflexivity.
Qed.

(** The statement above, for a user in the middle of the payment flow. *)
Lemma registration_flow_witness :
  let u := {| User.id := 42; User.language := en; User.step := payment_description;
              User.tempData := {| User.businessName := None;
                                  User.amount := Some (Number.of_Z 250) |} |} in
  let w := {| users := {[ 42%Z := u ]}; businesses := ∅; payments := ∅;
              outbox := [] |} in
  let w1 := on_message demo_cfg demo_env 42 (Some (lang en business_register)) w in
  let w2 := on_message demo_cfg demo_env 42 (Some (JSString.lit "  Acme Foods ")) w1 in
  let w3 := on_message demo_cfg demo_env 42 (Some (JSString.lit "+966 50 123 4567")) w2 in
  Business.name <$> businesses w3 !! businessId_of 42
  = Some (Some (JSString.lit "Acme Foods")).
Proof.
  intros u w w1 w2 w3.
  assert (H1 : JSString.lit "  Acme Foods " <> []) by discriminate.
  assert (H3 : JSString.lit "  Acme Foods " <> arabic_button) by discriminate.
  assert (H4 : JSString.lit "  Acme Foods " <> english_button) by discriminate.
  assert (H5 : JSString.lit "  Acme Foods " <> lang en business_register)
    by discriminate.
  destruct (registration_flow demo_cfg demo_env demo_env demo_env 42
              (JSString.lit "  Acme Foods ") (JSString.lit "+966 50 123 4567") w u
              (lookup_singleton_eq _ _) H1 eq_refl H3 H4 H5 eq_refl eq_refl)
    as (_ & H & _).
  pose proof (f_equal (fun m => Business.name <$> m !! businessId_of 42) H) as H'.
  cbv beta in H'. rewrite lookup_insert_eq in H'. exact H'.
Defined.

(** X24: for a user who has a Business Profile and is not in the
    registration flow, three messages make a payment link: the label that
    asks for one, an amount that passes the validation, and a description
    (texts that are not commands, buttons of the language keyboard or the
    two labels that start a flow). The ledger then holds, under the
    identifier generated for the last message, a pending record of the
    sender with the number read in the amount and the description without
    the white space around it, and the session is in [main] with an empty
    input buffer. *)
Theorem payment_flow cfg env1 env2 env3 chatId amount description w u b :
  users w !! chatId = Some u ->
  businesses w !! businessId_of chatId = Some b ->
  User.step u <> register_name -> User.step u <> register_phone ->
  amount <> [] -> JSString.startsWith amount (JSString.lit "/") = false ->
  amount <> arabic_button -> amount <> english_button ->
  amount <> lang (User.language u) business_register ->
  amount <> lang (User.language u) create_payment ->
  validateAmount amount = true ->
  description <> [] ->
  JSString.startsWith description (JSString.lit "/") = false ->
  description <> arabic_button -> description <> english_button ->
  description <> lang (User.language u) business_register ->
  description <> lang (User.language u) create_payment ->
  let l := User.language u in
  let w1 := on_message cfg env1 chatId (Some (lang l create_payment)) w in
  let w2 := on_message cfg env2 chatId (Some amount) w1 in
  let w3 := on_message cfg env3 chatId (Some description) w2 in
  payments w3
  = <[generatePaymentId env3 :=
        {| Payment.id := generatePaymentId env3;
           Payment.merchantId := chatId;
           Payment.amount := Some (Number.parseFloat amount);
           Payment.description := JSString.trim description;
           Payment.status := pending;
           Payment.createdAt := clock env3 1;
           Payment.expiresAt := clock env3 2 + 86400000;
           Payment.transactionRef := None;
           Payment.completedAt := None;
           Payment.failureReason := None |}]> (payments w)
  /\ users w3
     = <[chatId := {| User.id := User.id u; User.language := l; User.step := main;
                      User.tempData := User.no_tempData |}]> (users w)
  /\ businesses w3 = businesses w.
Proof.
  intros Hu Hb Hs1 Hs2 Ane Aslash Aar Aen Areg Apay Hamount
         Dne Dslash Dar Den Dreg Dpay l w1 w2 w3.
  destruct (lang_plain l create_payment) as (Lne & Lslash & Lar & Len).
  destruct (menu_labels_differ l) as (Lreg & _).
  assert (E1 : w1 = {| users := <[chatId := User.set_step payment_amount u]> (users w);
                       businesses := businesses w; payments := payments w;
                       outbox := outbox w1 |}).
  { subst w1. rewrite (on_message_text _ _ _ _ _ Lne Lslash).
    unfold on_text. rewrite (getUser_known _ _ _ Hu). fold l. skip_tests.
    unfold enter_payment. rewrite Hb. erewrite await_send_known by user_lookup.
    stores. reflexivity. }
  assert (E2 : w2 = {| users :=
                         <[chatId := User.set_step payment_description
                                       (User.set_amount (Number.parseFloat amount)
                                          (User.set_step payment_amount u))]>
                           (users w);
                       businesses := businesses w; payments := payments w;
                       outbox := outbox w2 |}).
  { subst w2. rewrite E1. rewrite (on_message_text _ _ _ _ _ Ane Aslash).
    unfold on_text. erewrite getUser_known by user_lookup.
    cbn [User.language User.step User.set_step]. skip_tests.
    unfold on_payment_amount. rewrite Hamount. cbn [negb]. cbv zeta.
    erewrite await_send_known by user_lookup.
    stores. rewrite insert_insert_eq. reflexivity. }
  subst w3. rewrite E2. rewrite (on_message_text _ _ _ _ _ Dne Dslash).
  unfold on_text. erewrite getUser_known by user_lookup.
  cbn [User.language User.step User.set_step User.set_amount User.set_tempData].
  skip_tests. fold l.
  unfold on_payment_description. cbv zeta.
  destruct (generateQR env3 _) as [[| c q] |];
    [ | destruct (split_comma_1 (c :: q)) | ];
    transport; stores; rewrite insert_insert_eq; repeat split; reflexivity.
Qed.

(** The statement above, for the merchant of the examples. *)
Lemma payment_flow_witness :
  let w1 := on_message demo_cfg demo_env 42 (Some (lang en create_payment)) demo_world in
  let w2 := on_message demo_cfg demo_env 42 (Some (JSString.lit "99.5")) w1 in
  let w3 := on_message demo_cfg demo_env 42 (Some (JSString.lit "Tea")) w2 in
  Payment.status <$> payments w3 !! generatePaymentId demo_env = Some pending.
Proof.
  intros w1 w2 w3.
  assert (A1 : JSString.lit "99.5" <> []) by discriminate.
  assert (A3 : JSString.lit "99.5" <> arabic_button) by discriminate.
  assert (A4 : JSString.lit "99.5" <> english_button) by discriminate.
  assert (A5 : JSString.lit "99.5" <> lang en business_register) by discriminate.
  assert (A6 : JSString.lit "99.5" <> lang en create_payment) by discriminate.
  assert (D1 : JSString.lit "Tea" <> []) by discriminate.
  assert (D3 : JSString.lit "Tea" <> arabic_button) by discriminate.
  assert (D4 : JSString.lit "Tea" <> english_button) by discriminate.
  assert (D5 : JSString.lit "Tea" <> lang en business_register) by discriminate.
  assert (D6 : JSString.lit "Tea" <> lang en create_payment) by discriminate.
  assert (S1 : User.step demo_session <> register_name) by discriminate.
  assert (S2 : User.step demo_session <> register_phone) by discriminate.
  destruct (payment_flow demo_cfg demo_env demo_env demo_env 42
              (JSString.lit "99.5") (JSString.lit "Tea") demo_world demo_session
              demo_business (proj1 demo_stores) (proj1 (proj2 demo_stores)) S1 S2
              A1 eq_refl A3 A4 A5 A6 eq_refl D1 eq_refl D3 D4 D5 D6)
    as (H & _).
  pose proof (f_equal (fun m => Payment.status <$> m !! generatePaymentId demo_env) H)
    as H'.
  cbv beta in H'. rewrite lookup_insert_eq in H'. exact H'.
Defined.

(* ===================================================================== *)
(** * The rest of the code: the stores and the transport *)
(* ===================================================================== *)

(** X25: what an inbound message leaves in the three stores does not
    depend on the transport or on the QR encoder: with the same clock and
    the same random bytes, the sessions, the Business Profiles and the
    ledger are the same whether the replies are delivered or not and
    whether the QR image is made or not. A failed delivery takes back
    nothing that the handler wrote. *)
Theorem stores_ignore_transport cfg env env' chatId text w :
  clock env = clock env' ->
  randomBytes env = randomBytes env' ->
  let w1 := receive cfg env chatId text w in
  let w2 := receive cfg env' chatId text w in
  users w1 = users w2 /\ businesses w1 = businesses w2 /\ payments w1 = payments w2.
Proof.
  intros Hclock Hbytes w1 w2. subst w1 w2.
  assert (Hid : generatePaymentId env = generatePaymentId env').
  { unfold generatePaymentId. rewrite Hclock, Hbytes. reflexivity. }
  assert (Htext : forall t,
            users (on_text cfg env chatId t w) = users (on_text cfg env' chatId t w)
            /\ businesses (on_text cfg env chatId t w)
               = businesses (on_text cfg env' chatId t w)
            /\ payments (on_text cfg env chatId t w)
               = payments (on_text cfg env' chatId t w)).
  { intros t. pose proof (getUser_spec chatId w) as Hget. unfold on_text.
    destruct (getUser chatId w) as [u w0]. destruct Hget as (Hlook & _).
    cbv beta iota zeta. repeat case_decide.
    - unfold select_language. transport. stores. auto.
    - unfold select_language. transport. stores. auto.
    - unfold enter_registration. transport. stores. auto.
    - unfold on_register_name. destruct (validateBusinessName t); cbn [negb];
        transport; stores; auto.
    - unfold on_register_phone. destruct (validatePhone t); cbn [negb]; cbv zeta;
        transport; stores; rewrite ?Hclock; auto.
    - unfold enter_payment. destruct (businesses w0 !! businessId_of chatId);
        transport; stores; auto.
    - unfold on_payment_amount. destruct (validateAmount t); cbn [negb];
        transport; stores; auto.
    - unfold on_payment_description, new_payment. cbv zeta. rewrite Hid, Hclock.
      destruct (generateQR env _) as [[| c q] |];
        [ | destruct (split_comma_1 (c :: q)) | ];
        (destruct (generateQR env' _) as [[| c' q'] |];
         [ | destruct (split_comma_1 (c' :: q')) | ]);
        transport; stores; auto.
    - unfold show_dashboard. destruct (businesses w0 !! businessId_of chatId);
        transport; stores; auto.
    - unfold show_help. transport. stores. auto.
    - unfold show_settings. transport. stores. auto.
    - auto. }
  assert (Hmsg : users (on_message cfg env chatId text w)
                 = users (on_message cfg env' chatId text w)
                 /\ businesses (on_message cfg env chatId text w)
                    = businesses (on_message cfg env' chatId text w)
                 /\ payments (on_message cfg env chatId text w)
                    = payments (on_message cfg env' chatId text w)).
  { unfold on_message. destruct text as [[| c r] |]; auto.
    destruct (JSString.startsWith (c :: r) (JSString.lit "/")); auto. }
  unfold receive. destruct text as [t |]; [| exact Hmsg].
  destruct (includes t (JSString.lit "/start")); [| exact Hmsg].
  destruct Hmsg as (Hu & Hb & Hp). unfold on_start, getUser. rewrite Hu.
  destruct (users (on_message cfg env' chatId (Some t) w) !! chatId);
    cbn [users businesses payments send set_users]; rewrite ?Hu, ?Hb, ?Hp; auto.
Qed.

(** The statement above, for the description of a payment, with a
    transport that delivers nothing. *)
Lemma stores_ignore_transport_witness :
  let env' := {| clock := clock demo_env; randomBytes := randomBytes demo_env;
                 toDataURL := fun _ => Some (JSString.lit "data:image/png;base64,AAAA");
                 delivered := fun _ => false; paytabs_data := None |} in
  let u := {| User.id := 42; User.language := en; User.step := payment_description;
              User.tempData := {| User.businessName := None;
                                  User.amount := Some (Number.of_Z 250) |} |} in
  let w := {| users := {[ 42%Z := u ]}; businesses := ∅; payments := ∅;
              outbox := [] |} in
  payments (receive demo_cfg demo_env 42 (Some (JSString.lit "Tea")) w)
  = payments (receive demo_cfg env' 42 (Some (JSString.lit "Tea")) w).
Proof.
  intros env' u w.
  destruct (stores_ignore_transport demo_cfg demo_env env' 42
              (Some (JSString.lit "Tea")) w eq_refl eq_refl) as (_ & _ & H).
  exact H.
Defined.

(* ===================================================================== *)
(** * The rest of the code: how a session moves *)
(* ===================================================================== *)

(** X26: the language of a session changes only when its user asks for
    it: after a message that is not one of the two buttons of the language
    keyboard, the session of the sender has the language it had, and the
    chat identifier it had. *)
Theorem language_changes_on_request cfg env chatId text w u :
  users w !! chatId = Some u ->
  text <> Some arabic_button -> text <> Some english_button ->
  exists u',
    users (receive cfg env chatId text w) !! chatId = Some u'
    /\ User.language u' = User.language u
    /\ User.id u' = User.id u.
Proof.
  intros Hu Har Hen.
  destruct (receive_written cfg env chatId text w)
    as [-> | (t & u' & b & p & out & -> & Htr & _ & ->)]; [eauto |].
  exists u'. cbn [users written]. rewrite lookup_insert_eq.
  split; [reflexivity |]. rewrite (getUser_known _ _ _ Hu) in Htr. cbn [fst] in Htr.
  destruct Htr; cbn [User.language User.id User.set_language User.set_step
                     User.set_tempData User.set_businessName User.set_amount];
    auto.
  destruct l; [destruct Har | destruct Hen]; f_equal; assumption.
Qed.

(** The statement above, for an Arabic session that asks for help. *)
Lemma language_changes_on_request_witness :
  let u := {| User.id := 42; User.language := ar; User.step := main;
              User.tempData := User.no_tempData |} in
  let w := {| users := {[ 42%Z := u ]}; businesses := ∅; payments := ∅;
              outbox := [] |} in
  exists u',
    users (receive demo_cfg demo_env 42 (Some (lang ar help)) w) !! 42%Z = Some u'
    /\ User.language u' = ar /\ User.id u' = 42%Z.
Proof.
  intros u w.
  apply (language_changes_on_request demo_cfg demo_env 42 (Some (lang ar help)) w u
           (lookup_singleton_eq _ _)); intros H; vm_compute in H; discriminate H.
Defined.

(** X27: a message moves the session of its sender along the arrows of
    the two flows only: to the name from any step, from the name to the
    phone, from the phone to [main], to the amount from any step but the
    two of the registration, from the amount to the description, and from
    the description to [main]; or it leaves the session in its step. No
    message takes a session back to [start]. *)
Theorem session_moves cfg env chatId text w u :
  users w !! chatId = Some u ->
  exists u',
    users (receive cfg env chatId text w) !! chatId = Some u'
    /\ moves (User.step u) (User.step u') = true.
Proof.
  intros Hu.
  assert (Hstay : forall s, moves s s = true).
  { intros s. destruct s; cbn [moves]; try reflexivity; apply bool_decide_eq_true;
      reflexivity. }
  destruct (receive_written cfg env chatId text w)
    as [-> | (t & u' & b & p & out & -> & Htr & _ & ->)]; [eauto |].
  exists u'. cbn [users written]. rewrite lookup_insert_eq.
  split; [reflexivity |]. rewrite (getUser_known _ _ _ Hu) in Htr. cbn [fst] in Htr.
  pose proof Htr as Htr'.
  destruct Htr; cbn [User.step User.set_language User.set_step
                     User.set_tempData User.set_businessName User.set_amount];
    try apply Hstay;
    try match goal with H : User.step _ = _ |- _ => rewrite H; reflexivity end.
  all: destruct (User.step u); solve [reflexivity | contradiction].
Qed.

(** The statement above, for a user who is asked for the phone and sends
    the label that asks for a payment link: the session stays where it
    is. *)
Lemma session_moves_witness :
  let u := {| User.id := 42; User.language := en; User.step := register_phone;
              User.tempData := {| User.businessName := Some (JSString.lit "Acme");
                                  User.amount := None |} |} in
  let w := {| users := {[ 42%Z := u ]}; businesses := ∅; payments := ∅;
              outbox := [] |} in
  exists u',
    users (receive demo_cfg demo_env 42 (Some (lang en create_payment)) w) !! 42%Z
    = Some u'
    /\ moves register_phone (User.step u') = true.
Proof.
  intros u w.
  apply (session_moves demo_cfg demo_env 42 (Some (lang en create_payment)) w u
           (lookup_singleton_eq _ _)).
Defined.
